(** * RClickhouse native client: session state machine of [src/clickhouse/client.cpp]

    A shallow embedding of [Client::Impl] (handshake, query dispatch, insert
    dialog, ping, packet reception) over an in-memory byte transcript, and
    the properties of it that the specification states. *)

From Stdlib Require Import ZArith NArith List Bool Lia.
From Stdlib Require Import Strings.String Strings.Ascii Strings.Byte.
From Stdlib Require Import DecimalString.
Import ListNotations.
Local Open Scope string_scope.
Local Open Scope list_scope.
Local Open Scope Z_scope.

(** ** Bytes, 64-bit words and decimal strings *)

Definition Z_of_byte (b : byte) : Z := Z.of_N (Byte.to_N b).

Definition byte_of_Z (z : Z) : byte :=
  match Byte.of_N (Z.to_N (z mod 256)) with
  | Some b => b
  | None => x00
  end.

Definition bytes_of_string (s : string) : list byte := list_byte_of_string s.
Definition string_of_bytes (l : list byte) : string := string_of_list_byte l.

(** [uint64_t] arithmetic wraps modulo 2^64. *)
Definition u64 (z : Z) : Z := z mod 2 ^ 64.

(** The value of [(int) v] for a 64-bit unsigned [v]: the low 32 bits, read
    as two's complement. *)
Definition int_of_u64 (v : Z) : Z := (v + 2 ^ 31) mod 2 ^ 32 - 2 ^ 31.

(** [std::to_string] on an integer: decimal digits, a leading minus sign for
    negative values. *)
Definition to_string (z : Z) : string := NilZero.string_of_int (Z.to_int z).

(** ** Primitive codec

    [base/coded.h] and [wire_format.h] are not part of the sources at hand;
    every reader below returns the decoded value, if any, together with the
    bytes left on the stream. A read that runs into the end of the stream
    has consumed what was there. *)
Module Codec.

Definition reader (A : Type) : Type := list byte -> option A * list byte.

(** Modelled from the spec: [BufferedInput] is absent; the read contract is
    [read_exact(n) -> bytes | EOF], with no partial read surfaced. *)
Definition ReadRaw (n : nat) : reader (list byte) :=
  fun inp =>
    if (List.length inp <? n)%nat then (None, [])
    else (Some (firstn n inp), skipn n inp).

(** Modelled from the spec: [CodedInputStream::ReadVarint64] is absent;
    7-bit groups, little-endian base 128, high bit as continuation, at most
    10 bytes; a 10th byte with bit 7 set, or bits beyond the 64th, are
    rejected. *)
Fixpoint ReadVarint64_from (fuel : nat) (shift acc : Z) (inp : list byte)
  : option Z * list byte :=
  match fuel with
  | O => (None, inp)
  | S fuel' =>
      match inp with
      | [] => (None, [])
      | b :: rest =>
          let x := Z_of_byte b in
          let acc' := Z.lor acc (Z.shiftl (Z.land x 127) shift) in
          if Z.testbit x 7 then ReadVarint64_from fuel' (shift + 7) acc' rest
          else if acc' <? 2 ^ 64 then (Some acc', rest) else (None, rest)
      end
  end.

Definition ReadVarint64 : reader Z := ReadVarint64_from 10 0 0.

(** Modelled from the spec: [CodedOutputStream::WriteVarint64] is absent;
    the encoder emits the minimum number of bytes. *)
Fixpoint WriteVarint64_go (fuel : nat) (v : Z) : list byte :=
  match fuel with
  | O => []
  | S fuel' =>
      if v <? 128 then [byte_of_Z v]
      else byte_of_Z (Z.lor (Z.land v 127) 128)
             :: WriteVarint64_go fuel' (Z.shiftr v 7)
  end.

Definition WriteVarint64 (v : Z) : list byte := WriteVarint64_go 10 (u64 v).

(** Little-endian value of a byte string. *)
Fixpoint le_decode (bs : list byte) : Z :=
  match bs with
  | [] => 0
  | b :: rest => Z_of_byte b + 256 * le_decode rest
  end.

Fixpoint le_encode (n : nat) (v : Z) : list byte :=
  match n with
  | O => []
  | S n' => byte_of_Z v :: le_encode n' (v / 256)
  end.

(** Two's complement reading of a [w]-byte little-endian value. *)
Definition signed (w : nat) (v : Z) : Z :=
  let m := 2 ^ (8 * Z.of_nat w) in
  if v <? m / 2 then v else v - m.

End Codec.

(** Modelled from the spec: [wire_format.h] is absent; fixed integers are
    little-endian, booleans one byte, strings [varuint64(length) ++ bytes]. *)
Module WireFormat.
Import Codec.

Definition ReadUInt64 : reader Z := ReadVarint64.

Definition ReadString : reader string :=
  fun inp =>
    match ReadVarint64 inp with
    | (Some len, rest) =>
        match ReadRaw (Z.to_nat len) rest with
        | (Some bs, rest') => (Some (string_of_bytes bs), rest')
        | (None, rest') => (None, rest')
        end
    | (None, rest) => (None, rest)
    end.

(** [ReadFixed] at [uint8_t] and [bool]. *)
Definition ReadFixed8 : reader Z :=
  fun inp =>
    match ReadRaw 1 inp with
    | (Some bs, rest) => (Some (le_decode bs), rest)
    | (None, rest) => (None, rest)
    end.

(** [ReadFixed] at [int32_t] and [int]. *)
Definition ReadFixed32 : reader Z :=
  fun inp =>
    match ReadRaw 4 inp with
    | (Some bs, rest) => (Some (signed 4 (le_decode bs)), rest)
    | (None, rest) => (None, rest)
    end.

Definition WriteUInt64 (v : Z) : list byte := WriteVarint64 v.

Definition WriteString (s : string) : list byte :=
  WriteVarint64 (Z.of_nat (String.length s)) ++ bytes_of_string s.

Definition WriteFixed8 (v : Z) : list byte := le_encode 1 v.
Definition WriteFixed32 (v : Z) : list byte := le_encode 4 v.

End WireFormat.

(** ** Column registry

    Modelled from the spec: [columns/factory.h] and the column classes are
    absent; the registry is the closed set of descriptors of the column
    design, each with its fixed stride, [String] being length-prefixed. A
    column keeps the raw bytes of each of its values. *)
Module Column.

Inductive kind : Type :=
| UInt8 | UInt16 | UInt32 | UInt64
| Int8 | Int16 | Int32 | Int64
| Float32 | Float64
| Str
| FixedString (k : N)
| Date | DateTime.

Record t : Type := make { Type_ : kind; data : list (list byte) }.

Definition Size (c : t) : Z := Z.of_nat (List.length (data c)).

Definition parse_size (s : string) : option N :=
  if String.eqb s "" then None
  else match NilEmpty.uint_of_string s with
       | Some d => Some (N.of_uint d)
       | None => None
       end.

Definition parse_fixed_string (s : string) : option kind :=
  let n := String.length s in
  if String.prefix "FixedString(" s && (13 <=? n)%nat
     && String.eqb (String.substring (n - 1) 1 s) ")" then
    match parse_size (String.substring 12 (n - 13) s) with
    | Some k => Some (FixedString k)
    | None => None
    end
  else None.

Definition kind_of_name (s : string) : option kind :=
  if String.eqb s "UInt8" then Some UInt8
  else if String.eqb s "UInt16" then Some UInt16
  else if String.eqb s "UInt32" then Some UInt32
  else if String.eqb s "UInt64" then Some UInt64
  else if String.eqb s "Int8" then Some Int8
  else if String.eqb s "Int16" then Some Int16
  else if String.eqb s "Int32" then Some Int32
  else if String.eqb s "Int64" then Some Int64
  else if String.eqb s "Float32" then Some Float32
  else if String.eqb s "Float64" then Some Float64
  else if String.eqb s "String" then Some Str
  else if String.eqb s "Date" then Some Date
  else if String.eqb s "DateTime" then Some DateTime
  else parse_fixed_string s.

Definition GetName (k : kind) : string :=
  match k with
  | UInt8 => "UInt8" | UInt16 => "UInt16" | UInt32 => "UInt32" | UInt64 => "UInt64"
  | Int8 => "Int8" | Int16 => "Int16" | Int32 => "Int32" | Int64 => "Int64"
  | Float32 => "Float32" | Float64 => "Float64"
  | Str => "String"
  | FixedString k => "FixedString(" ++ to_string (Z.of_N k) ++ ")"
  | Date => "Date" | DateTime => "DateTime"
  end.

(** Stride in bytes of a fixed-width kind; [None] for [String]. *)
Definition stride (k : kind) : option nat :=
  match k with
  | UInt8 | Int8 => Some 1%nat
  | UInt16 | Int16 | Date => Some 2%nat
  | UInt32 | Int32 | Float32 | DateTime => Some 4%nat
  | UInt64 | Int64 | Float64 => Some 8%nat
  | FixedString k => Some (N.to_nat k)
  | Str => None
  end.

Definition read_value (k : kind) : Codec.reader (list byte) :=
  match stride k with
  | Some w => Codec.ReadRaw w
  | None =>
      fun inp =>
        match WireFormat.ReadString inp with
        | (Some s, rest) => (Some (bytes_of_string s), rest)
        | (None, rest) => (None, rest)
        end
  end.

Fixpoint read_values (k : kind) (n : nat) (inp : list byte)
  : option (list (list byte)) * list byte :=
  match n with
  | O => (Some [], inp)
  | S n' =>
      match read_value k inp with
      | (Some v, rest) =>
          match read_values k n' rest with
          | (Some vs, rest') => (Some (v :: vs), rest')
          | (None, rest') => (None, rest')
          end
      | (None, rest) => (None, rest)
      end
  end.

(** [CreateColumnByType]: a fresh empty column, or null for a descriptor
    outside the registry. *)
Definition CreateColumnByType (type : string) : option t :=
  match kind_of_name type with
  | Some k => Some (make k [])
  | None => None
  end.

(** [col->Load(input, rows)]: the loaded column on success. *)
Definition Load (c : t) (rows : Z) : Codec.reader t :=
  fun inp =>
    match read_values (Type_ c) (Z.to_nat rows) inp with
    | (Some vs, rest) => (Some (make (Type_ c) (data c ++ vs)), rest)
    | (None, rest) => (None, rest)
    end.

Definition write_value (k : kind) (v : list byte) : list byte :=
  match stride k with
  | Some _ => v
  | None => Codec.WriteVarint64 (Z.of_nat (List.length v)) ++ v
  end.

(** [col->Save(output)]: no per-row framing beyond the value encoding. *)
Definition Save (c : t) : list byte :=
  List.concat (map (write_value (Type_ c)) (data c)).

End Column.

(** ** Data model of the session *)

Module BlockInfo.
Record t : Type := make { is_overflows : Z; bucket_num : Z }.
End BlockInfo.

(** Modelled from the spec: [block.h] is absent; a block is an ordered
    sequence of named columns with a declared row count and block-info
    metadata, and [AppendColumn] adds to the back. *)
Module Block.
Record t : Type :=
  make { Info : BlockInfo.t; columns : list (string * Column.t); rows : Z }.

Definition GetColumnCount (b : t) : Z := Z.of_nat (List.length (columns b)).
Definition GetRowCount (b : t) : Z := rows b.

Definition AppendColumn (b : t) (name : string) (col : Column.t) : t :=
  make (Info b) (columns b ++ [(name, col)]) (rows b).

End Block.

Module ClientOptions.
Record t : Type :=
  make { host : string; port : Z; default_database : string;
         user : string; password : string; rethrow_exceptions : bool }.
End ClientOptions.

Module ServerInfo.
Record t : Type :=
  make { name : string; timezone : string;
         version_major : Z; version_minor : Z; revision : Z }.
End ServerInfo.

Module Exception.
#[local] Set Warnings "-register-all".
Inductive t : Type :=
  make { code : Z; name : string; display_text : string;
         stack_trace : string; nested : option t }.

(** Number of frames of a chain. *)
Fixpoint depth (e : t) : nat :=
  match nested e with
  | Some e' => S (depth e')
  | None => 1%nat
  end.
End Exception.

Module Profile.
Record t : Type :=
  make { rows : Z; blocks : Z; bytes : Z; applied_limit : Z;
         rows_before_limit : Z; calculated_rows_before_limit : Z }.
End Profile.

Module Progress.
Record t : Type := make { rows : Z; bytes : Z; total_rows : Z }.
End Progress.

(** The caller's query: its text; the callbacks it carries are observed
    through the calls the session makes on it. *)
Module Query.
Record t : Type := make { GetText : string }.
End Query.

(** Calls on the [QueryEvents] interface. *)
Inductive SinkCall : Type :=
| OnData (block : Block.t)
| OnServerException (e : Exception.t)
| OnProfile (profile : Profile.t)
| OnProgress (progress : Progress.t)
| OnFinish.

(** Modelled from the spec: [protocol.h] is absent; the packet codes and the
    wire constants are those of the packet framing section. *)
Module ClientCodes.
Definition Hello : Z := 0.
Definition Query : Z := 1.
Definition Data : Z := 2.
Definition Ping : Z := 4.
End ClientCodes.

Module ServerCodes.
Definition Hello : Z := 0.
Definition Data : Z := 1.
Definition Exception : Z := 2.
Definition Progress : Z := 3.
Definition Pong : Z := 4.
Definition EndOfStream : Z := 5.
Definition ProfileInfo : Z := 6.
End ServerCodes.

Module Stages.
Definition Complete : Z := 2.
End Stages.

Module CompressionState.
Definition Disable : Z := 0.
End CompressionState.

Definition DBMS_NAME : string := "ClickHouse".
Definition DBMS_VERSION_MAJOR : Z := 1.
Definition DBMS_VERSION_MINOR : Z := 1.
Definition REVISION : Z := 54126.

Definition DBMS_MIN_REVISION_WITH_TEMPORARY_TABLES : Z := 50264.
Definition DBMS_MIN_REVISION_WITH_TOTAL_ROWS_IN_PROGRESS : Z := 51554.
Definition DBMS_MIN_REVISION_WITH_BLOCK_INFO : Z := 51903.
Definition DBMS_MIN_REVISION_WITH_CLIENT_INFO : Z := 54032.
Definition DBMS_MIN_REVISION_WITH_SERVER_TIMEZONE : Z := 54058.
Definition DBMS_MIN_REVISION_WITH_QUOTA_KEY_IN_CLIENT_INFO : Z := 54060.

Module ClientInfo.
Record t : Type :=
  make { iface_type : Z; query_kind : Z; initial_user : string;
         initial_query_id : string; quota_key : string; os_user : string;
         client_hostname : string; client_name : string;
         initial_address : string; client_version_major : Z;
         client_version_minor : Z; client_revision : Z }.
End ClientInfo.

(** ** The session object and the monad of its member functions *)

(** [Client::Impl]. The socket is an in-memory transcript: [input_] holds
    the bytes the server sends that have not been read yet, [output_] the
    bytes written and not yet flushed, [socket_] the bytes flushed to the
    server. [sink_calls] records, in order, the calls made through
    [events_]. *)
Module Impl.
Record t : Type :=
  make { options_ : ClientOptions.t;
         events_ : option Query.t;
         query_id_ : Z;
         socket_ : list byte;
         input_ : list byte;
         output_ : list byte;
         server_info_ : ServerInfo.t;
         sink_calls : list SinkCall }.

Definition set_events_ (ev : option Query.t) (s : t) : t :=
  make (options_ s) ev (query_id_ s) (socket_ s) (input_ s) (output_ s)
       (server_info_ s) (sink_calls s).
Definition set_input_ (inp : list byte) (s : t) : t :=
  make (options_ s) (events_ s) (query_id_ s) (socket_ s) inp (output_ s)
       (server_info_ s) (sink_calls s).
Definition set_output_ (sock out : list byte) (s : t) : t :=
  make (options_ s) (events_ s) (query_id_ s) sock (input_ s) out
       (server_info_ s) (sink_calls s).
Definition set_server_info_ (si : ServerInfo.t) (s : t) : t :=
  make (options_ s) (events_ s) (query_id_ s) (socket_ s) (input_ s)
       (output_ s) si (sink_calls s).
Definition set_sink_calls (cs : list SinkCall) (s : t) : t :=
  make (options_ s) (events_ s) (query_id_ s) (socket_ s) (input_ s)
       (output_ s) (server_info_ s) cs.
End Impl.

(** What a C++ [throw] carries out of the session. *)
Inductive Error : Type :=
| runtime_error (what : string)
| ServerException (e : Exception.t)
| system_error.

(** A member function returns, throws, or is still looping when the fuel
    given to an unbounded loop is spent. *)
Inductive Outcome (A : Type) : Type :=
| Ret (a : A)
| Throw (e : Error)
| OutOfFuel.
Arguments Ret {A} a.
Arguments Throw {A} e.
Arguments OutOfFuel {A}.

Definition M (A : Type) : Type := Impl.t -> Outcome A * Impl.t.

Definition ret {A} (a : A) : M A := fun s => (Ret a, s).

Definition bind {A B} (m : M A) (k : A -> M B) : M B :=
  fun s =>
    match m s with
    | (Ret a, s') => k a s'
    | (Throw e, s') => (Throw e, s')
    | (OutOfFuel, s') => (OutOfFuel, s')
    end.

Definition throw {A} (e : Error) : M A := fun s => (Throw e, s).
Definition out_of_fuel {A} : M A := fun s => (OutOfFuel, s).
Definition get : M Impl.t := fun s => (Ret s, s).

Declare Scope session_scope.
Delimit Scope session_scope with session.
Notation "x <- m ;; k" := (bind m (fun x => k))
  (at level 61, m at next level, right associativity) : session_scope.
Notation "m ;; k" := (bind m (fun _ => k))
  (at level 61, right associativity) : session_scope.
(** [if (!Read(..., &x)) return false;] in a function returning [bool]. *)
Notation "x <-! m ;; k" :=
  (bind m (fun o => match o with Some x => k | None => ret false end))
  (at level 61, m at next level, right associativity) : session_scope.
(** The same in a decoding step whose failure is reported as [None]. *)
Notation "x <-? m ;; k" :=
  (bind m (fun o => match o with Some x => k | None => ret None end))
  (at level 61, m at next level, right associativity) : session_scope.
Local Open Scope session_scope.

(** A read on [input_]. *)
Definition read {A} (r : Codec.reader A) : M (option A) :=
  fun s => let (v, rest) := r (Impl.input_ s) in (Ret v, Impl.set_input_ rest s).

(** A write on [output_]: buffered until the next flush. *)
Definition write (bs : list byte) : M unit :=
  fun s => (Ret tt, Impl.set_output_ (Impl.socket_ s) (Impl.output_ s ++ bs) s).

(** [output_.Flush()]. *)
Definition Flush : M unit :=
  fun s => (Ret tt, Impl.set_output_ (Impl.socket_ s ++ Impl.output_ s) [] s).

(** [if (events_) events_->call]. *)
Definition notify (call : SinkCall) : M unit :=
  fun s =>
    match Impl.events_ s with
    | Some _ => (Ret tt, Impl.set_sink_calls (Impl.sink_calls s ++ [call]) s)
    | None => (Ret tt, s)
    end.

Definition set_server_info (f : ServerInfo.t -> ServerInfo.t) : M unit :=
  fun s => (Ret tt, Impl.set_server_info_ (f (Impl.server_info_ s)) s).

(** The [EnsureNull] guard: [events_] is set on entry and cleared on every
    way out of the scope, a throw included. *)
Definition EnsureNull {A} (ev : Query.t) (body : M A) : M A :=
  fun s =>
    let (r, s') := body (Impl.set_events_ (Some ev) s) in
    (r, Impl.set_events_ None s').

(** ** Packet layouts on the wire, as the packet reception and data packet
    sections of the specification word them

    These are the byte strings of a transcript; the readers and writers of
    the session are compared with them. *)
Module Wire.
Import WireFormat.

Definition block_info (info : BlockInfo.t) : list byte :=
  WriteUInt64 1 ++ WriteFixed8 (BlockInfo.is_overflows info)
  ++ WriteUInt64 2 ++ WriteFixed32 (BlockInfo.bucket_num info)
  ++ WriteUInt64 0.

Definition optional {A} (f : A -> list byte) (o : option A) : list byte :=
  match o with
  | Some a => f a
  | None => []
  end.

(** Table name and block info, each present or not, then the two counts. *)
Definition data_header (table_name : option string) (info : option BlockInfo.t)
           (num_columns num_rows : Z) : list byte :=
  optional WriteString table_name ++ optional block_info info
  ++ WriteUInt64 num_columns ++ WriteUInt64 num_rows.

(** One column entry: name, type descriptor, body. *)
Definition column (entry : string * string * Column.t) : list byte :=
  let '(name, type, col) := entry in
  WriteString name ++ WriteString type ++ Column.Save col.

Definition columns (entries : list (string * string * Column.t)) : list byte :=
  List.concat (map column entries).

(** The entries of a block with the descriptors its columns name. *)
Definition entries_of (cols : list (string * Column.t))
  : list (string * string * Column.t) :=
  map (fun nc => (fst nc, Column.GetName (Column.Type_ (snd nc)), snd nc)) cols.

(** One frame of an exception chain, then the rest of the chain. *)
Fixpoint chain (e : Exception.t) : list byte :=
  WriteFixed32 (Exception.code e) ++ WriteString (Exception.name e)
  ++ WriteString (Exception.display_text e)
  ++ WriteString (Exception.stack_trace e)
  ++ match Exception.nested e with
     | Some e' => WriteFixed8 1 ++ chain e'
     | None => WriteFixed8 0
     end.

Definition progress (p : Progress.t) : list byte :=
  WriteUInt64 (Progress.rows p) ++ WriteUInt64 (Progress.bytes p)
  ++ WriteUInt64 (Progress.total_rows p).

Definition profile (p : Profile.t) : list byte :=
  WriteUInt64 (Profile.rows p) ++ WriteUInt64 (Profile.blocks p)
  ++ WriteUInt64 (Profile.bytes p) ++ WriteFixed8 (Profile.applied_limit p)
  ++ WriteUInt64 (Profile.rows_before_limit p)
  ++ WriteFixed8 (Profile.calculated_rows_before_limit p).

(** The server Hello up to the revision; the timezone, when sent,
    follows. *)
Definition hello (name : string) (version_major version_minor revision : Z)
  : list byte :=
  WriteUInt64 ServerCodes.Hello ++ WriteString name
  ++ WriteUInt64 version_major ++ WriteUInt64 version_minor
  ++ WriteUInt64 revision.

(** The ClientInfo block of a Query packet, without the quota key. *)
Definition client_info : list byte :=
  WriteFixed8 1 ++ WriteString "" ++ WriteString ""
  ++ WriteString "[::ffff:127.0.0.1]:0" ++ WriteFixed8 1
  ++ WriteString "" ++ WriteString "" ++ WriteString "ClickHouse client"
  ++ WriteUInt64 1 ++ WriteUInt64 1 ++ WriteUInt64 54126.

(** A client Data packet for a server of the given revision. *)
Definition client_data (revision : Z) (block : Block.t) : list byte :=
  WriteUInt64 ClientCodes.Data
  ++ data_header (if 50264 <=? revision then Some "" else None)
                 (if 51903 <=? revision then Some (Block.Info block) else None)
                 (Block.GetColumnCount block) (Block.GetRowCount block)
  ++ columns (entries_of (Block.columns block)).

(** The Query packet: code, query id, ClientInfo and quota key by
    revision, empty settings, stage, compression, text, and the empty
    block as end-of-data marker. *)
Definition query (revision : Z) (query_id : string) (text : string)
           (empty_block : Block.t) : list byte :=
  WriteUInt64 ClientCodes.Query ++ WriteString query_id
  ++ (if 54032 <=? revision
      then client_info ++ (if 54060 <=? revision then WriteString "" else [])
      else [])
  ++ WriteString "" ++ WriteUInt64 2 ++ WriteUInt64 0 ++ WriteString text
  ++ client_data revision empty_block.

(** A Data packet as the server sends it to this client: the table name and
    the block info are both present. *)
Record data : Type :=
  make_data { table_name : string; info : BlockInfo.t; num_rows : Z;
              entries : list (string * string * Column.t) }.

Definition data_body (d : data) : list byte :=
  data_header (Some (table_name d)) (Some (info d))
              (Z.of_nat (List.length (entries d))) (num_rows d)
  ++ columns (entries d).

Definition data_packet (d : data) : list byte :=
  WriteUInt64 ServerCodes.Data ++ data_body d.

Definition exception_packet (e : Exception.t) : list byte :=
  WriteUInt64 ServerCodes.Exception ++ chain e.

Definition progress_packet (p : Progress.t) : list byte :=
  WriteUInt64 ServerCodes.Progress ++ progress p.

Definition profile_packet (p : Profile.t) : list byte :=
  WriteUInt64 ServerCodes.ProfileInfo ++ profile p.

(** The client Hello. *)
Definition client_hello (opts : ClientOptions.t) : list byte :=
  WriteUInt64 ClientCodes.Hello ++ WriteString "ClickHouse client"
  ++ WriteUInt64 1 ++ WriteUInt64 1 ++ WriteUInt64 54126
  ++ WriteString (ClientOptions.default_database opts)
  ++ WriteString (ClientOptions.user opts)
  ++ WriteString (ClientOptions.password opts).

End Wire.

(** Ranges in which a value has an encoding that reads back. *)
Definition is_u64 (v : Z) : Prop := 0 <= v < 2 ^ 64.
Definition is_i32 (v : Z) : Prop := - 2 ^ 31 <= v < 2 ^ 31.
Definition is_u8 (v : Z) : Prop := 0 <= v < 256.
Definition is_short (s : string) : Prop := Z.of_nat (String.length s) < 2 ^ 64.


(** ** The member functions of [Client::Impl] *)

Section Client.

Import WireFormat.

(** Values of objects that the source default-constructs and whose
    classes are declared outside [client.cpp]: the block info of a fresh
    [Block], a fresh [Progress], and the server info before handshake. *)
Variable BlockInfo_init : BlockInfo.t.
Variable Progress_init : Progress.t.
Variable ServerInfo_init : ServerInfo.t.

(** [Block(num_columns, num_rows)] reserves the slots; [Block()] is the
    empty block. *)
Definition Block_new (num_columns num_rows : Z) : Block.t :=
  Block.make BlockInfo_init [] num_rows.
Definition Block_empty : Block.t := Block_new 0 0.

(** [static uint64_t GenerateQueryId()]: [++counter] on the process-global
    atomic counter, given here as the counter before and after. *)
Definition GenerateQueryId (counter : Z) : Z * Z :=
  let counter' := u64 (counter + 1) in (counter', counter').

(** The column loop of [SendData], lines 495-500: name, descriptor and
    values of each column, in the order of the block. Nothing compares the
    number of values of a column with the row count written in the
    header. *)
Fixpoint SaveColumns (cols : list (string * Column.t)) : M unit :=
  match cols with
  | [] => ret tt
  | (name, col) :: rest =>
      write (WriteString name);;
      write (WriteString (Column.GetName (Column.Type_ col)));;
      write (Column.Save col);;
      SaveColumns rest
  end.

Definition SendData (block : Block.t) : M unit :=
  write (WriteUInt64 ClientCodes.Data);;
  s <- get;;
  let revision := ServerInfo.revision (Impl.server_info_ s) in
  (if revision >=? DBMS_MIN_REVISION_WITH_TEMPORARY_TABLES
   then write (WriteString "")
   else ret tt);;
  (if revision >=? DBMS_MIN_REVISION_WITH_BLOCK_INFO
   then
     write (WriteUInt64 1);;
     write (WriteFixed8 (BlockInfo.is_overflows (Block.Info block)));;
     write (WriteUInt64 2);;
     write (WriteFixed32 (BlockInfo.bucket_num (Block.Info block)));;
     write (WriteUInt64 0)
   else ret tt);;
  write (WriteUInt64 (Block.GetColumnCount block));;
  write (WriteUInt64 (Block.GetRowCount block));;
  SaveColumns (Block.columns block);;
  Flush.

Definition SendQuery (query : string) : M unit :=
  write (WriteUInt64 ClientCodes.Query);;
  s <- get;;
  write (WriteString (to_string (Impl.query_id_ s)));;
  let revision := ServerInfo.revision (Impl.server_info_ s) in
  (if revision >=? DBMS_MIN_REVISION_WITH_CLIENT_INFO
   then
     let info :=
       {| ClientInfo.iface_type := 1;
          ClientInfo.query_kind := 1;
          ClientInfo.initial_user := "";
          ClientInfo.initial_query_id := "";
          ClientInfo.quota_key := "";
          ClientInfo.os_user := "";
          ClientInfo.client_hostname := "";
          ClientInfo.client_name := "ClickHouse client";
          ClientInfo.initial_address := "[::ffff:127.0.0.1]:0";
          ClientInfo.client_version_major := DBMS_VERSION_MAJOR;
          ClientInfo.client_version_minor := DBMS_VERSION_MINOR;
          ClientInfo.client_revision := REVISION |} in
     write (WriteFixed8 (ClientInfo.query_kind info));;
     write (WriteString (ClientInfo.initial_user info));;
     write (WriteString (ClientInfo.initial_query_id info));;
     write (WriteString (ClientInfo.initial_address info));;
     write (WriteFixed8 (ClientInfo.iface_type info));;
     write (WriteString (ClientInfo.os_user info));;
     write (WriteString (ClientInfo.client_hostname info));;
     write (WriteString (ClientInfo.client_name info));;
     write (WriteUInt64 (ClientInfo.client_version_major info));;
     write (WriteUInt64 (ClientInfo.client_version_minor info));;
     write (WriteUInt64 (ClientInfo.client_revision info));;
     (if revision >=? DBMS_MIN_REVISION_WITH_QUOTA_KEY_IN_CLIENT_INFO
      then write (WriteString (ClientInfo.quota_key info))
      else ret tt)
   else ret tt);;
  write (WriteString "");;
  write (WriteUInt64 Stages.Complete);;
  write (WriteUInt64 CompressionState.Disable);;
  write (WriteString query);;
  SendData Block_empty;;
  Flush.

Definition SendHello : M bool :=
  s <- get;;
  let opts := Impl.options_ s in
  write (WriteUInt64 ClientCodes.Hello);;
  write (WriteString (DBMS_NAME ++ " client"));;
  write (WriteUInt64 DBMS_VERSION_MAJOR);;
  write (WriteUInt64 DBMS_VERSION_MINOR);;
  write (WriteUInt64 REVISION);;
  write (WriteString (ClientOptions.default_database opts));;
  write (WriteString (ClientOptions.user opts));;
  write (WriteString (ClientOptions.password opts));;
  Flush;;
  ret true.

(** The frames of an exception packet, lines 387-415 of the source: the
    [do ... while (true)] loop that fills [*e] frame by frame. A frame
    takes at least one byte, so the fuel bounds the chain by the bytes at
    hand. *)
Fixpoint ReadExceptionFrames (fuel : nat) : M (option Exception.t) :=
  match fuel with
  | O => out_of_fuel
  | S fuel' =>
      code <-? read ReadFixed32;;
      name <-? read ReadString;;
      display_text <-? read ReadString;;
      stack_trace <-? read ReadString;;
      has_nested <-? read ReadFixed8;;
      if negb (has_nested =? 0) then
        nested <-? ReadExceptionFrames fuel';;
        ret (Some (Exception.make code name display_text stack_trace (Some nested)))
      else
        ret (Some (Exception.make code name display_text stack_trace None))
  end.

Definition ReadException : M (option Exception.t) :=
  s <- get;;
  ReadExceptionFrames (S (List.length (Impl.input_ s))).

Definition ReceiveException (rethrow : bool) : M bool :=
  e <-! ReadException;;
  notify (OnServerException e);;
  s <- get;;
  if rethrow || ClientOptions.rethrow_exceptions (Impl.options_ s)
  then throw (ServerException e)
  else ret true.

(** The column loop of [ReceiveData], lines 357-377. *)
Fixpoint ReadColumns (n : nat) (num_rows : Z) (block : Block.t)
  : M (option Block.t) :=
  match n with
  | O => ret (Some block)
  | S n' =>
      name <-? read ReadString;;
      type <-? read ReadString;;
      match Column.CreateColumnByType type with
      | Some col =>
          if num_rows =? 0 then
            ReadColumns n' num_rows (Block.AppendColumn block name col)
          else
            loaded <- read (Column.Load col num_rows);;
            match loaded with
            | Some col' =>
                ReadColumns n' num_rows (Block.AppendColumn block name col')
            | None => throw (runtime_error "can't load")
            end
      | None => throw (runtime_error ("unsupported column type: " ++ type))
      end
  end.

(** The decoding part of [ReceiveData], lines 313-377: [None] stands for
    each of its [return false]. *)
Definition ReadBlock : M (option Block.t) :=
  _ <-? (if REVISION >=? DBMS_MIN_REVISION_WITH_TEMPORARY_TABLES
         then
           table_name <-? read ReadString;;
           ret (Some tt)
         else ret (Some tt));;
  _ <-? (if REVISION >=? DBMS_MIN_REVISION_WITH_BLOCK_INFO
         then
           num <-? read ReadUInt64;;
           is_overflows <-? read ReadFixed8;;
           num <-? read ReadUInt64;;
           bucket_num <-? read ReadFixed32;;
           num <-? read ReadUInt64;;
           ret (Some tt)
         else ret (Some tt));;
  num_columns <-? read ReadUInt64;;
  num_rows <-? read ReadUInt64;;
  ReadColumns (Z.to_nat num_columns) num_rows (Block_new num_columns num_rows).

(** [ReceiveData]: the value returned is [false] on every path that
    returns, the one that has handed the block to the sink included. *)
Definition ReceiveData : M bool :=
  block <-! ReadBlock;;
  notify (OnData block);;
  ret false.

Definition ReadProfile : M (option Profile.t) :=
  rows <-? read ReadUInt64;;
  blocks <-? read ReadUInt64;;
  bytes <-? read ReadUInt64;;
  applied_limit <-? read ReadFixed8;;
  rows_before_limit <-? read ReadUInt64;;
  calculated_rows_before_limit <-? read ReadFixed8;;
  ret (Some (Profile.make rows blocks bytes applied_limit rows_before_limit
                          calculated_rows_before_limit)).

Definition ReadProgress : M (option Progress.t) :=
  rows <-? read ReadUInt64;;
  bytes <-? read ReadUInt64;;
  if REVISION >=? DBMS_MIN_REVISION_WITH_TOTAL_ROWS_IN_PROGRESS
  then
    total_rows <-? read ReadUInt64;;
    ret (Some (Progress.make rows bytes total_rows))
  else
    ret (Some (Progress.make rows bytes (Progress.total_rows Progress_init))).

(** The [switch] of [ReceivePacket]. *)
Definition dispatch (packet_type : Z) : M bool :=
  if packet_type =? ServerCodes.Data then
    (* the result of ReceiveData is tested, and the std::runtime_error
       built on failure is dropped, not thrown *)
    _ <- ReceiveData;;
    ret true
  else if packet_type =? ServerCodes.Exception then
    _ <- ReceiveException false;;
    ret false
  else if packet_type =? ServerCodes.ProfileInfo then
    profile <-! ReadProfile;;
    notify (OnProfile profile);;
    ret true
  else if packet_type =? ServerCodes.Progress then
    info <-! ReadProgress;;
    notify (OnProgress info);;
    ret true
  else if packet_type =? ServerCodes.Pong then
    ret true
  else if packet_type =? ServerCodes.EndOfStream then
    notify OnFinish;;
    ret false
  else
    throw (runtime_error ("unimplemented " ++ to_string (int_of_u64 packet_type))).

(** [ReceivePacket(server_packet)]: the second component is what the call
    stores through a non-null [server_packet], if it gets that far. *)
Definition ReceivePacket : M (bool * option Z) :=
  p <- read Codec.ReadVarint64;;
  match p with
  | None => ret (false, None)
  | Some packet_type =>
      b <- dispatch packet_type;;
      ret (b, Some packet_type)
  end.

(** [while (ReceivePacket()) { ; }] *)
Fixpoint ReceiveLoop (fuel : nat) : M unit :=
  match fuel with
  | O => out_of_fuel
  | S fuel' =>
      r <- ReceivePacket;;
      if fst r then ReceiveLoop fuel' else ret tt
  end.

(** Every round of the loop that goes on has read a packet code, so the
    bytes at hand bound the rounds. *)
Definition ReceiveAll : M unit :=
  s <- get;;
  ReceiveLoop (S (List.length (Impl.input_ s))).

Definition ExecuteQuery (query : Query.t) : M unit :=
  EnsureNull query
    (SendQuery (Query.GetText query);;
     ReceiveAll).

(** The first loop of [Insert], lines 174-188. [server_packet] is a local
    without initializer: the argument is the value it holds when a round
    begins, at the first round whatever the local happens to hold. A call
    of [ReceivePacket] that has read a packet code stores it there; a call
    whose read of the code fails leaves it as it is. The loop leaves on a
    [Data] code only; the [std::runtime_error] built when the call returns
    [false] is dropped, so nothing bounds the rounds. *)
Fixpoint AwaitData (fuel : nat) (server_packet : Z) : M unit :=
  match fuel with
  | O => out_of_fuel
  | S fuel' =>
      r <- ReceivePacket;;
      let server_packet :=
        match snd r with
        | Some packet_type => packet_type
        | None => server_packet
        end in
      if server_packet =? ServerCodes.Data then ret tt
      else AwaitData fuel' server_packet
  end.

(** [Insert]: [server_packet] is the value of the uninitialised local
    [uint64_t server_packet] at entry, which the source does not
    determine. *)
Definition Insert (fuel : nat) (server_packet : Z) (table_name : string)
           (block : Block.t) : M unit :=
  SendQuery ("INSERT INTO " ++ table_name ++ " VALUES");;
  AwaitData fuel server_packet;;
  SendData block;;
  SendData Block_empty;;
  ReceiveAll.

Definition Ping : M unit :=
  write (WriteUInt64 ClientCodes.Ping);;
  Flush;;
  _ <- ReceivePacket;;
  ret tt.

Definition ReceiveHello : M bool :=
  packet_type <-! read Codec.ReadVarint64;;
  if packet_type =? ServerCodes.Hello then
    name <-! read ReadString;;
    set_server_info (fun si =>
      ServerInfo.make name (ServerInfo.timezone si) (ServerInfo.version_major si)
                      (ServerInfo.version_minor si) (ServerInfo.revision si));;
    version_major <-! read ReadUInt64;;
    set_server_info (fun si =>
      ServerInfo.make (ServerInfo.name si) (ServerInfo.timezone si) version_major
                      (ServerInfo.version_minor si) (ServerInfo.revision si));;
    version_minor <-! read ReadUInt64;;
    set_server_info (fun si =>
      ServerInfo.make (ServerInfo.name si) (ServerInfo.timezone si)
                      (ServerInfo.version_major si) version_minor
                      (ServerInfo.revision si));;
    revision <-! read ReadUInt64;;
    set_server_info (fun si =>
      ServerInfo.make (ServerInfo.name si) (ServerInfo.timezone si)
                      (ServerInfo.version_major si) (ServerInfo.version_minor si)
                      revision);;
    s <- get;;
    if ServerInfo.revision (Impl.server_info_ s)
         >=? DBMS_MIN_REVISION_WITH_SERVER_TIMEZONE
    then
      timezone <-! read ReadString;;
      set_server_info (fun si =>
        ServerInfo.make (ServerInfo.name si) timezone (ServerInfo.version_major si)
                        (ServerInfo.version_minor si) (ServerInfo.revision si));;
      ret true
    else ret true
  else if packet_type =? ServerCodes.Exception then
    _ <- ReceiveException true;;
    ret false
  else ret false.

Definition Handshake : M bool :=
  sent <- SendHello;;
  if negb sent then ret false
  else
    received <- ReceiveHello;;
    if negb received then ret false else ret true.

(** [Client::Impl::Impl(opts)]: the members are initialized in the order
    of their declaration, the query id before the socket. [server] is the
    transcript of what the connected server sends, [None] when the
    connection could not be made. The result is the constructed session,
    or the error thrown, and the process-global counter afterwards. *)
Definition Impl_new (opts : ClientOptions.t) (counter : Z)
           (server : option (list byte)) : Outcome Impl.t * Z :=
  let (query_id, counter') := GenerateQueryId counter in
  match server with
  | None => (Throw system_error, counter')
  | Some transcript =>
      let s0 := Impl.make opts None query_id [] transcript []
                          ServerInfo_init [] in
      match Handshake s0 with
      | (Ret true, s) => (Ret s, counter')
      | (Ret false, _) =>
          (Throw (runtime_error ("fail to connect to " ++ ClientOptions.host opts)),
           counter')
      | (Throw e, _) => (Throw e, counter')
      | (OutOfFuel, _) => (OutOfFuel, counter')
      end
  end.

(** ** What a member function leaves alone

    [steady s s']: from [s] to [s'] the options, the active sink and the
    query id are unchanged, no byte has been put back on the input, and
    with no sink set no call has been recorded. *)
Definition steady (s s' : Impl.t) : Prop :=
  Impl.options_ s' = Impl.options_ s
  /\ Impl.events_ s' = Impl.events_ s
  /\ Impl.query_id_ s' = Impl.query_id_ s
  /\ (List.length (Impl.input_ s') <= List.length (Impl.input_ s))%nat
  /\ (Impl.events_ s = None -> Impl.sink_calls s' = Impl.sink_calls s).

Definition keeps {A} (m : M A) : Prop := forall s, steady s (snd (m s)).

(** A reader only takes bytes off the front of the stream. *)
Definition consuming {A} (r : Codec.reader A) : Prop :=
  forall inp, (List.length (snd (r inp)) <= List.length inp)%nat.

(** ** Values that have an encoding *)

(** Every frame of the chain has a 32-bit code and strings whose length
    fits a varuint64. *)
Fixpoint Exception_wf (e : Exception.t) : Prop :=
  is_i32 (Exception.code e) /\ is_short (Exception.name e)
  /\ is_short (Exception.display_text e) /\ is_short (Exception.stack_trace e)
  /\ match Exception.nested e with
     | Some e' => Exception_wf e'
     | None => True
     end.

Definition Profile_wf (p : Profile.t) : Prop :=
  is_u64 (Profile.rows p) /\ is_u64 (Profile.blocks p)
  /\ is_u64 (Profile.bytes p) /\ is_u8 (Profile.applied_limit p)
  /\ is_u64 (Profile.rows_before_limit p)
  /\ is_u8 (Profile.calculated_rows_before_limit p).

Definition Progress_wf (p : Progress.t) : Prop :=
  is_u64 (Progress.rows p) /\ is_u64 (Progress.bytes p)
  /\ is_u64 (Progress.total_rows p).

(** A value of a column of kind [k]: as wide as the stride, or a string
    whose length fits a varuint64. *)
Definition value_ok (k : Column.kind) (v : list byte) : Prop :=
  match Column.stride k with
  | Some w => List.length v = w
  | None => Z.of_nat (List.length v) < 2 ^ 64
  end.

(** A column of [rows] values, each of them encodable. *)
Definition Column_wf (rows : Z) (c : Column.t) : Prop :=
  Column.Size c = rows /\ Forall (value_ok (Column.Type_ c)) (Column.data c).

(** A column entry of a data packet of [rows] rows whose descriptor is in
    the registry and names the kind of the column sent. *)
Definition entry_ok (rows : Z) (entry : string * string * Column.t) : Prop :=
  let '(name, type, col) := entry in
  is_short name /\ is_short type
  /\ Column.kind_of_name type = Some (Column.Type_ col)
  /\ Column_wf rows col.

(** The columns a block holds after the entries have been appended. *)
Definition append_entries (block : Block.t)
           (entries : list (string * string * Column.t)) : Block.t :=
  Block.make (Block.Info block)
             (Block.columns block ++ map (fun e => (fst (fst e), snd e)) entries)
             (Block.rows block).

Definition BlockInfo_wf (info : BlockInfo.t) : Prop :=
  is_u8 (BlockInfo.is_overflows info) /\ is_i32 (BlockInfo.bucket_num info).

(** A server Data packet all of whose fields have an encoding and whose
    column entries are recognised. *)
Definition data_ok (d : Wire.data) : Prop :=
  is_short (Wire.table_name d) /\ BlockInfo_wf (Wire.info d)
  /\ is_u64 (Z.of_nat (List.length (Wire.entries d)))
  /\ is_u64 (Wire.num_rows d)
  /\ Forall (entry_ok (Wire.num_rows d)) (Wire.entries d).

(** The block [ReceiveData] builds from a Data packet. *)
Definition block_of (d : Wire.data) : Block.t :=
  append_entries
    (Block_new (Z.of_nat (List.length (Wire.entries d))) (Wire.num_rows d))
    (Wire.entries d).

(** The state after [if (events_) events_->...] for each of the calls. *)
Definition deliver (calls : list SinkCall) (s : Impl.t) : Impl.t :=
  match Impl.events_ s with
  | Some _ => Impl.set_sink_calls (Impl.sink_calls s ++ calls) s
  | None => s
  end.

(** A member function that never runs out of fuel: it returns or throws. *)
Definition total {A} (m : M A) : Prop := forall s, fst (m s) <> OutOfFuel.

(** [silent s s']: nothing has been written and the server info is the
    same. *)
Definition silent (s s' : Impl.t) : Prop :=
  Impl.socket_ s' = Impl.socket_ s
  /\ Impl.output_ s' = Impl.output_ s
  /\ Impl.server_info_ s' = Impl.server_info_ s.

Definition reads_only {A} (m : M A) : Prop := forall s, silent s (snd (m s)).

(** A step that does nothing but append [bs] to the output buffer. *)
Definition writes (m : M unit) (bs : list byte) : Prop :=
  forall s,
    m s = (Ret tt, Impl.set_output_ (Impl.socket_ s) (Impl.output_ s ++ bs) s).

(** A reader that fails, having consumed everything, on any proper prefix of
    the encoding [enc]. *)
Definition cut_short {A} (r : Codec.reader A) (enc : list byte) : Prop :=
  forall pre suf, enc = pre ++ suf -> suf <> [] -> r pre = (None, []).

(** ** Sessions and transcripts of the worked examples *)

Definition example_info : BlockInfo.t := BlockInfo.make 0 (-1).
Definition example_progress : Progress.t := Progress.make 0 0 0.
Definition example_server_init : ServerInfo.t := ServerInfo.make "" "" 0 0 0.

Definition example_options (rethrow : bool) : ClientOptions.t :=
  ClientOptions.make "localhost" 9000 "default" "default" "" rethrow.

(** A session after handshake with a server of the given revision, with the
    given sink installed, about to read the given transcript. *)
Definition example_session (revision : Z) (sink : option Query.t)
           (transcript : list byte) : Impl.t :=
  Impl.make (example_options false) sink 1 [] transcript []
            (ServerInfo.make "ClickHouse" "UTC" 1 1 revision) [].

(** One [UInt8] column named ["1"] holding the value 1. *)
Definition example_data : Wire.data :=
  Wire.make_data "" example_info 1
    [("1", "UInt8", Column.make Column.UInt8 [[x01]])].

(** A block of one [String] column and no row. *)
Definition example_schema : Wire.data :=
  Wire.make_data "" example_info 0
    [("name", "String", Column.make Column.Str [])].

(** The block of the insert example: [name = ["a"; "bb"]], [n = [1; 2]]. *)
Definition example_block : Block.t :=
  Block.make example_info
    [("name", Column.make Column.Str [[x61]; [x62; x62]]);
     ("n", Column.make Column.UInt32 [[x01; x00; x00; x00]; [x02; x00; x00; x00]])]
    2.

Definition example_exception : Exception.t :=
  Exception.make 516 "AUTH" "bad password" ""
    (Some (Exception.make 1 "Inner" "" "" None)).

(** The session once [Ping] has written its code and flushed. *)
Definition ping_sent (s : Impl.t) : Impl.t :=
  Impl.set_output_
    (Impl.socket_ s ++ Impl.output_ s ++ WireFormat.WriteUInt64 ClientCodes.Ping)
    [] s.

(** The session in [ExecuteQuery] once the sink is installed and the Query
    packet is flushed. *)
Definition query_sent (query : Query.t) (s : Impl.t) : Impl.t :=
  Impl.make (Impl.options_ s) (Some query) (Impl.query_id_ s)
    (Impl.socket_ s ++ Impl.output_ s
     ++ Wire.query (ServerInfo.revision (Impl.server_info_ s))
                   (to_string (Impl.query_id_ s)) (Query.GetText query)
                   Block_empty)
    (Impl.input_ s) [] (Impl.server_info_ s) (Impl.sink_calls s).

(** ** Transcripts packet by packet *)

(** A packet that does not end the receive loop. *)
Inductive packet : Type :=
| PData (d : Wire.data)
| PProgress (p : Progress.t)
| PProfileInfo (p : Profile.t)
| PPong.

Definition packet_wire (pk : packet) : list byte :=
  match pk with
  | PData d => Wire.data_packet d
  | PProgress p => Wire.progress_packet p
  | PProfileInfo p => Wire.profile_packet p
  | PPong => WireFormat.WriteUInt64 ServerCodes.Pong
  end.

(** The code a packet begins with. *)
Definition packet_code (pk : packet) : Z :=
  match pk with
  | PData _ => ServerCodes.Data
  | PProgress _ => ServerCodes.Progress
  | PProfileInfo _ => ServerCodes.ProfileInfo
  | PPong => ServerCodes.Pong
  end.

Definition packet_ok (pk : packet) : Prop :=
  match pk with
  | PData d => data_ok d
  | PProgress p => Progress_wf p
  | PProfileInfo p => Profile_wf p
  | PPong => True
  end.

(** The callback a packet stands for. *)
Definition packet_calls (pk : packet) : list SinkCall :=
  match pk with
  | PData d => [OnData (block_of d)]
  | PProgress p => [OnProgress p]
  | PProfileInfo p => [OnProfile p]
  | PPong => []
  end.

Definition transcript (pks : list packet) : list byte :=
  List.concat (map packet_wire pks).

Definition transcript_calls (pks : list packet) : list SinkCall :=
  List.concat (map packet_calls pks).

(** The session when [ExecuteQuery] is over: the query sent, the stream read
    up to [rest], the calls made on the sink of the query, the sink
    cleared. *)
Definition query_done (query : Query.t) (s : Impl.t) (rest : list byte)
           (calls : list SinkCall) : Impl.t :=
  Impl.set_events_ None
    (Impl.set_sink_calls (Impl.sink_calls s ++ calls)
       (Impl.set_input_ rest (query_sent query s))).

(** A block that [SendData] can send and [ReceiveData] can read back: the
    counts and the block info have an encoding, and every column has a
    short name, [rows] encodable values and a descriptor that the registry
    maps back to its kind. *)
Definition block_ok (block : Block.t) : Prop :=
  BlockInfo_wf (Block.Info block)
  /\ is_u64 (Block.GetColumnCount block)
  /\ is_u64 (Block.rows block)
  /\ Forall (fun nc =>
               is_short (fst nc)
               /\ is_short (Column.GetName (Column.Type_ (snd nc)))
               /\ Column.kind_of_name (Column.GetName (Column.Type_ (snd nc)))
                  = Some (Column.Type_ (snd nc))
               /\ Column_wf (Block.rows block) (snd nc))
            (Block.columns block).

(** The body of the Data packet of a block, table name and block info
    included. *)
Definition block_body (block : Block.t) : list byte :=
  Wire.data_header (Some "") (Some (Block.Info block))
                   (Block.GetColumnCount block) (Block.GetRowCount block)
  ++ Wire.columns (Wire.entries_of (Block.columns block)).

(** The errors a query, a ping or an insert can end with: a server
    exception, and then only if the options ask for it, or one of three
    runtime errors of the packet reader. *)
Definition expected (opts : ClientOptions.t) (e : Error) : Prop :=
  match e with
  | ServerException _ => ClientOptions.rethrow_exceptions opts = true
  | runtime_error what =>
      what = "can't load"
      \/ (exists type : string,
             what = ("unsupported column type: " ++ type)%string
             /\ Column.CreateColumnByType type = None)
      \/ (exists packet_type : Z,
             what
             = ("unimplemented " ++ to_string (int_of_u64 packet_type))%string)
  | system_error => False
  end.

Definition raises {A} (m : M A) : Prop :=
  forall s,
    match fst (m s) with
    | Throw e => expected (Impl.options_ s) e
    | _ => True
    end.

(** * Properties *)

(** ** The codec reads back what it writes *)

Lemma Z_of_byte_range (b : byte) : 0 <= Z_of_byte b < 256.
Proof.
  unfold Z_of_byte. pose proof (Byte.to_N_bounded b). lia.
Qed.

Lemma Z_of_byte_of_Z (z : Z) : Z_of_byte (byte_of_Z z) = z mod 256.
Proof.
  unfold Z_of_byte, byte_of_Z.
  assert (Hr : 0 <= z mod 256 < 256) by (apply Z.mod_pos_bound; lia).
  destruct (Byte.of_N (Z.to_N (z mod 256))) as [b|] eqn:E.
  - apply Byte.to_of_N in E. rewrite E. lia.
  - apply Byte.of_N_None_iff in E. lia.
Qed.

Lemma length_bytes_of_string (s : string) :
  List.length (bytes_of_string s) = String.length s.
Proof.
  unfold bytes_of_string, list_byte_of_string.
  rewrite length_map. induction s; simpl; congruence.
Qed.

Lemma ReadRaw_app (bs rest : list byte) :
  Codec.ReadRaw (List.length bs) (bs ++ rest) = (Some bs, rest).
Proof.
  unfold Codec.ReadRaw.
  replace (List.length (bs ++ rest) <? List.length bs)%nat with false.
  - rewrite firstn_app, Nat.sub_diag, firstn_all. simpl.
    rewrite skipn_app, Nat.sub_diag, skipn_all. simpl.
    now rewrite app_nil_r.
  - symmetry. apply Nat.ltb_ge. rewrite length_app. lia.
Qed.

Lemma ReadRaw_short (n : nat) (inp : list byte) :
  (List.length inp < n)%nat -> Codec.ReadRaw n inp = (None, []).
Proof.
  intros H. unfold Codec.ReadRaw.
  apply Nat.ltb_lt in H. now rewrite H.
Qed.

(** The low seven bits and the rest, put back together. *)
Lemma septet_split (v : Z) :
  Z.lor (Z.land v 127) (Z.shiftl (Z.shiftr v 7) 7) = v.
Proof.
  apply Z.bits_inj'. intros n Hn.
  rewrite Z.lor_spec, Z.land_spec.
  change 127 with (Z.ones 7).
  destruct (Z.ltb_spec n 7) as [Hlt|Hge].
  - rewrite Z.ones_spec_low by lia.
    rewrite Z.shiftl_spec_low by lia.
    now rewrite andb_true_r, orb_false_r.
  - rewrite Z.ones_spec_high by lia.
    rewrite Z.shiftl_spec by lia.
    rewrite Z.shiftr_spec by lia.
    rewrite andb_false_r. simpl. f_equal. lia.
Qed.

Lemma septet_shift (v shift : Z) :
  0 <= shift ->
  Z.lor (Z.shiftl (Z.land v 127) shift) (Z.shiftl (Z.shiftr v 7) (shift + 7))
  = Z.shiftl v shift.
Proof.
  intros Hs.
  replace (shift + 7) with (7 + shift) by lia.
  rewrite <- Z.shiftl_shiftl by lia.
  rewrite <- Z.shiftl_lor. now rewrite septet_split.
Qed.

Lemma continuation_byte (v : Z) :
  let x := Z_of_byte (byte_of_Z (Z.lor (Z.land v 127) 128)) in
  Z.testbit x 7 = true /\ Z.land x 127 = Z.land v 127.
Proof.
  intros x.
  assert (Hx : x = Z.lor (Z.land v 127) 128).
  { unfold x. rewrite Z_of_byte_of_Z.
    change 256 with (2 ^ 8). rewrite <- Z.land_ones by lia.
    apply Z.bits_inj'. intros n Hn.
    rewrite Z.land_spec, Z.lor_spec, Z.land_spec.
    change 127 with (Z.ones 7). change 128 with (2 ^ 7).
    destruct (Z.ltb_spec n 8) as [Hlt|Hge].
    - rewrite (Z.ones_spec_low 8) by lia. now rewrite andb_true_r.
    - rewrite (Z.ones_spec_high 8) by lia.
      rewrite Z.ones_spec_high by lia.
      rewrite Z.pow2_bits_false by lia.
      now rewrite !andb_false_r. }
  rewrite Hx. split.
  - rewrite Z.lor_spec. change 128 with (2 ^ 7).
    rewrite Z.pow2_bits_true by lia. apply orb_true_r.
  - apply Z.bits_inj'. intros n Hn.
    rewrite !Z.land_spec, Z.lor_spec, Z.land_spec.
    change 127 with (Z.ones 7). change 128 with (2 ^ 7).
    destruct (Z.ltb_spec n 7) as [Hlt|Hge].
    + rewrite Z.ones_spec_low by lia.
      rewrite Z.pow2_bits_false by lia.
      now rewrite !andb_true_r, orb_false_r.
    + rewrite Z.ones_spec_high by lia. now rewrite !andb_false_r.
Qed.

Lemma final_byte (v : Z) :
  0 <= v < 128 ->
  let x := Z_of_byte (byte_of_Z v) in
  Z.testbit x 7 = false /\ Z.land x 127 = v.
Proof.
  intros Hv x.
  assert (Hx : x = v).
  { unfold x. rewrite Z_of_byte_of_Z. apply Z.mod_small. lia. }
  rewrite Hx. split.
  - apply Z.testbit_false; [lia|].
    change (2 ^ 7) with 128. rewrite Z.div_small by lia. reflexivity.
  - change 127 with (Z.ones 7). rewrite Z.land_ones by lia.
    apply Z.mod_small. change (2 ^ 7) with 128. lia.
Qed.

Lemma ReadVarint64_from_go (fuel : nat) :
  forall v shift acc rest,
    0 <= v < 2 ^ (7 * Z.of_nat (S fuel)) ->
    0 <= shift ->
    Z.lor acc (Z.shiftl v shift) < 2 ^ 64 ->
    Codec.ReadVarint64_from (S fuel) shift acc
      (Codec.WriteVarint64_go (S fuel) v ++ rest)
    = (Some (Z.lor acc (Z.shiftl v shift)), rest).
Proof.
  induction fuel as [|fuel IH]; intros v shift acc rest Hv Hs Hlt.
  - change (7 * Z.of_nat 1) with 7 in Hv. change (2 ^ 7) with 128 in Hv.
    cbn [Codec.WriteVarint64_go Codec.ReadVarint64_from app].
    replace (v <? 128) with true by (symmetry; apply Z.ltb_lt; lia).
    cbn [app]. cbv zeta.
    destruct (final_byte v) as [Hb Hl]; [lia|].
    rewrite Hb, Hl.
    replace (Z.lor acc (Z.shiftl v shift) <? 2 ^ 64) with true
      by (symmetry; apply Z.ltb_lt; assumption).
    reflexivity.
  - remember (S fuel) as f eqn:Hf.
    cbn [Codec.WriteVarint64_go Codec.ReadVarint64_from].
    destruct (Z.ltb_spec v 128) as [Hsmall|Hbig].
    + cbn [app]. cbv zeta.
      destruct (final_byte v) as [Hb Hl]; [lia|].
      rewrite Hb, Hl.
      replace (Z.lor acc (Z.shiftl v shift) <? 2 ^ 64) with true
        by (symmetry; apply Z.ltb_lt; assumption).
      reflexivity.
    + cbn [app]. cbv zeta.
      destruct (continuation_byte v) as [Hb Hl].
      rewrite Hb, Hl. subst f.
      assert (Heq : Z.lor (Z.lor acc (Z.shiftl (Z.land v 127) shift))
                          (Z.shiftl (Z.shiftr v 7) (shift + 7))
                    = Z.lor acc (Z.shiftl v shift)).
      { rewrite <- Z.lor_assoc. now rewrite septet_shift. }
      rewrite IH.
      * now rewrite Heq.
      * rewrite Z.shiftr_div_pow2 by lia. split.
        -- apply Z.div_pos; lia.
        -- apply Z.div_lt_upper_bound; [lia|].
           rewrite <- Z.pow_add_r by lia.
           replace (7 + 7 * Z.of_nat (S fuel)) with (7 * Z.of_nat (S (S fuel))) by lia.
           lia.
      * lia.
      * now rewrite Heq.
Qed.

Lemma ReadVarint64_Write (v : Z) (rest : list byte) :
  is_u64 v ->
  Codec.ReadVarint64 (Codec.WriteVarint64 v ++ rest) = (Some v, rest).
Proof.
  intros Hv. unfold is_u64 in Hv.
  unfold Codec.ReadVarint64, Codec.WriteVarint64, u64.
  rewrite Z.mod_small by lia.
  rewrite ReadVarint64_from_go.
  - now rewrite Z.shiftl_0_r, Z.lor_0_l.
  - change (7 * Z.of_nat 10) with 70.
    assert (2 ^ 64 < 2 ^ 70) by (apply Z.pow_lt_mono_r; lia). lia.
  - lia.
  - rewrite Z.shiftl_0_r, Z.lor_0_l. lia.
Qed.

Lemma ReadUInt64_Write (v : Z) (rest : list byte) :
  is_u64 v ->
  WireFormat.ReadUInt64 (WireFormat.WriteUInt64 v ++ rest) = (Some v, rest).
Proof. apply ReadVarint64_Write. Qed.

Lemma ReadString_Write (s : string) (rest : list byte) :
  is_short s ->
  WireFormat.ReadString (WireFormat.WriteString s ++ rest) = (Some s, rest).
Proof.
  intros Hs. unfold is_short in Hs.
  unfold WireFormat.ReadString, WireFormat.WriteString.
  rewrite <- app_assoc, ReadVarint64_Write by (unfold is_u64; lia).
  rewrite Nat2Z.id, <- length_bytes_of_string, ReadRaw_app.
  unfold string_of_bytes, bytes_of_string.
  now rewrite string_of_list_byte_of_string.
Qed.

Lemma le_decode_encode (n : nat) :
  forall v, Codec.le_decode (Codec.le_encode n v) = v mod 256 ^ Z.of_nat n.
Proof.
  induction n as [|n IH]; intros v.
  - simpl. now rewrite Z.mod_1_r.
  - cbn [Codec.le_encode Codec.le_decode].
    rewrite Z_of_byte_of_Z, IH.
    rewrite Nat2Z.inj_succ, Z.pow_succ_r by lia.
    rewrite Z.rem_mul_r by lia. reflexivity.
Qed.

Lemma ReadFixed8_Write (v : Z) (rest : list byte) :
  is_u8 v ->
  WireFormat.ReadFixed8 (WireFormat.WriteFixed8 v ++ rest) = (Some v, rest).
Proof.
  intros Hv. unfold is_u8 in Hv.
  unfold WireFormat.ReadFixed8, WireFormat.WriteFixed8.
  change 1%nat with (List.length (Codec.le_encode 1 v)) at 1.
  rewrite ReadRaw_app, le_decode_encode.
  change (256 ^ Z.of_nat 1) with 256. now rewrite Z.mod_small by lia.
Qed.

Lemma ReadFixed32_Write (v : Z) (rest : list byte) :
  is_i32 v ->
  WireFormat.ReadFixed32 (WireFormat.WriteFixed32 v ++ rest) = (Some v, rest).
Proof.
  intros Hv. unfold is_i32 in Hv.
  unfold WireFormat.ReadFixed32, WireFormat.WriteFixed32.
  change 4%nat with (List.length (Codec.le_encode 4 v)) at 1.
  rewrite ReadRaw_app, le_decode_encode.
  f_equal. f_equal. unfold Codec.signed.
  change (256 ^ Z.of_nat 4) with (2 ^ 32).
  change (2 ^ (8 * Z.of_nat 4)) with (2 ^ 32).
  change (2 ^ 32 / 2) with (2 ^ 31).
  destruct (Z.ltb_spec (v mod 2 ^ 32) (2 ^ 31)) as [H|H].
  - destruct (Z_lt_le_dec v 0) as [Hn|Hp].
    + rewrite <- (Z.mod_add v 1 (2 ^ 32)) in H by lia.
      rewrite Z.mod_small in H by lia. lia.
    + apply Z.mod_small. lia.
  - destruct (Z_lt_le_dec v 0) as [Hn|Hp].
    + rewrite <- (Z.mod_add v 1 (2 ^ 32)) by lia.
      rewrite Z.mod_small by lia. lia.
    + rewrite Z.mod_small in H by lia. lia.
Qed.

(** ** Readers only consume *)

Lemma consuming_ReadRaw (n : nat) : consuming (Codec.ReadRaw n).
Proof.
  intros inp. unfold Codec.ReadRaw.
  destruct (List.length inp <? n)%nat; simpl; [lia|].
  rewrite length_skipn. lia.
Qed.

Lemma ReadVarint64_from_length (fuel : nat) :
  forall shift acc inp,
    (List.length (snd (Codec.ReadVarint64_from fuel shift acc inp))
     <= List.length inp)%nat.
Proof.
  induction fuel as [|fuel IH]; intros shift acc inp;
    cbn [Codec.ReadVarint64_from]; [simpl; lia|].
  destruct inp as [|b rest]; [simpl; lia|]. cbv zeta.
  destruct (Z.testbit (Z_of_byte b) 7).
  - etransitivity; [apply IH|]. simpl. lia.
  - destruct (_ <? _); simpl; lia.
Qed.

Lemma consuming_ReadVarint64 : consuming Codec.ReadVarint64.
Proof. intros inp. apply ReadVarint64_from_length. Qed.

(** A varint that was read took at least one byte. *)
Lemma ReadVarint64_from_progress (fuel : nat) :
  forall shift acc inp v rest,
    Codec.ReadVarint64_from fuel shift acc inp = (Some v, rest) ->
    (List.length rest < List.length inp)%nat.
Proof.
  induction fuel as [|fuel IH]; intros shift acc inp v rest;
    cbn [Codec.ReadVarint64_from]; [discriminate|].
  destruct inp as [|b tl]; [discriminate|]. cbv zeta.
  destruct (Z.testbit (Z_of_byte b) 7).
  - intros H. apply IH in H. simpl. lia.
  - destruct (_ <? _); intros H; inversion H; subst; simpl; lia.
Qed.

Lemma ReadVarint64_progress (inp rest : list byte) (v : Z) :
  Codec.ReadVarint64 inp = (Some v, rest) ->
  (List.length rest < List.length inp)%nat.
Proof. apply ReadVarint64_from_progress. Qed.

Lemma consuming_ReadUInt64 : consuming WireFormat.ReadUInt64.
Proof. exact consuming_ReadVarint64. Qed.

Lemma consuming_ReadString : consuming WireFormat.ReadString.
Proof.
  intros inp. unfold WireFormat.ReadString.
  pose proof (consuming_ReadVarint64 inp) as H1.
  destruct (Codec.ReadVarint64 inp) as [[len|] rest]; simpl in *; [|lia].
  pose proof (consuming_ReadRaw (Z.to_nat len) rest) as H2.
  destruct (Codec.ReadRaw (Z.to_nat len) rest) as [[bs|] rest']; simpl in *; lia.
Qed.

Lemma consuming_ReadFixed8 : consuming WireFormat.ReadFixed8.
Proof.
  intros inp. unfold WireFormat.ReadFixed8.
  pose proof (consuming_ReadRaw 1 inp) as H.
  destruct (Codec.ReadRaw 1 inp) as [[bs|] rest]; simpl in *; lia.
Qed.

Lemma consuming_ReadFixed32 : consuming WireFormat.ReadFixed32.
Proof.
  intros inp. unfold WireFormat.ReadFixed32.
  pose proof (consuming_ReadRaw 4 inp) as H.
  destruct (Codec.ReadRaw 4 inp) as [[bs|] rest]; simpl in *; lia.
Qed.

Lemma consuming_read_value (k : Column.kind) : consuming (Column.read_value k).
Proof.
  intros inp. unfold Column.read_value.
  destruct (Column.stride k) as [w|].
  - apply consuming_ReadRaw.
  - pose proof (consuming_ReadString inp) as H.
    destruct (WireFormat.ReadString inp) as [[s|] rest]; simpl in *; lia.
Qed.

Lemma consuming_read_values (k : Column.kind) (n : nat) :
  consuming (Column.read_values k n).
Proof.
  induction n as [|n IH]; intros inp; simpl; [lia|].
  pose proof (consuming_read_value k inp) as H1.
  destruct (Column.read_value k inp) as [[v|] rest]; simpl in *; [|lia].
  pose proof (IH rest) as H2.
  destruct (Column.read_values k n rest) as [[vs|] rest']; simpl in *; lia.
Qed.

Lemma consuming_Load (c : Column.t) (rows : Z) : consuming (Column.Load c rows).
Proof.
  intros inp. unfold Column.Load.
  pose proof (consuming_read_values (Column.Type_ c) (Z.to_nat rows) inp) as H.
  destruct (Column.read_values _ _ inp) as [[vs|] rest]; simpl in *; lia.
Qed.

Create HintDb consuming.
#[local] Hint Resolve consuming_ReadRaw consuming_ReadVarint64 consuming_ReadUInt64
  consuming_ReadString consuming_ReadFixed8 consuming_ReadFixed32
  consuming_Load : consuming.

(** ** The frame of the member functions *)

Lemma steady_refl (s : Impl.t) : steady s s.
Proof. unfold steady. repeat split; auto. Qed.

Lemma steady_trans (s1 s2 s3 : Impl.t) :
  steady s1 s2 -> steady s2 s3 -> steady s1 s3.
Proof.
  unfold steady. intros (Ho & He & Hq & Hl & Hc) (Ho' & He' & Hq' & Hl' & Hc').
  repeat split; try congruence; try lia.
  intros Hn. rewrite Hc' by congruence. auto.
Qed.

Lemma keeps_ret {A} (a : A) : keeps (ret a).
Proof. intros s. apply steady_refl. Qed.

Lemma keeps_throw {A} (e : Error) : keeps (@throw A e).
Proof. intros s. apply steady_refl. Qed.

Lemma keeps_out_of_fuel {A} : keeps (@out_of_fuel A).
Proof. intros s. apply steady_refl. Qed.

Lemma keeps_get : keeps get.
Proof. intros s. apply steady_refl. Qed.

Lemma keeps_bind {A B} (m : M A) (k : A -> M B) :
  keeps m -> (forall a, keeps (k a)) -> keeps (bind m k).
Proof.
  intros Hm Hk s. unfold bind.
  specialize (Hm s).
  destruct (m s) as [[a|e|] s1]; simpl in *; auto.
  eapply steady_trans; [exact Hm|apply Hk].
Qed.

Lemma keeps_read {A} (r : Codec.reader A) : consuming r -> keeps (read r).
Proof.
  intros Hr s. unfold read. specialize (Hr (Impl.input_ s)).
  destruct (r (Impl.input_ s)) as [v rest]. simpl in *.
  unfold steady. simpl. repeat split; auto.
Qed.

Lemma keeps_write (bs : list byte) : keeps (write bs).
Proof. intros s. unfold steady. simpl. repeat split; auto. Qed.

Lemma keeps_Flush : keeps Flush.
Proof. intros s. unfold steady. simpl. repeat split; auto. Qed.

Lemma keeps_notify (call : SinkCall) : keeps (notify call).
Proof.
  intros s. unfold notify, steady.
  destruct (Impl.events_ s) eqn:E; simpl; repeat split; auto; congruence.
Qed.

Lemma keeps_set_server_info (f : ServerInfo.t -> ServerInfo.t) :
  keeps (set_server_info f).
Proof. intros s. unfold steady. simpl. repeat split; auto. Qed.

Create HintDb frame.

(** One rule per construct of the monad, chosen on the shape of the goal. *)
Ltac keeps_step :=
  lazymatch goal with
  | |- keeps (ret _) => apply keeps_ret
  | |- keeps (throw _) => apply keeps_throw
  | |- keeps out_of_fuel => apply keeps_out_of_fuel
  | |- keeps get => apply keeps_get
  | |- keeps (write _) => apply keeps_write
  | |- keeps Flush => apply keeps_Flush
  | |- keeps (notify _) => apply keeps_notify
  | |- keeps (set_server_info _) => apply keeps_set_server_info
  | |- keeps (read _) => apply keeps_read; solve [auto with consuming]
  | |- keeps (bind _ _) => apply keeps_bind; [ | intros ? ]
  | |- keeps (match ?x with _ => _ end) => destruct x
  | |- keeps (let _ := _ in _) => cbv zeta
  | |- keeps _ => solve [auto 2 with frame nocore]
  end.

Ltac keeps_steps := repeat keeps_step.

Lemma keeps_SaveColumns (cols : list (string * Column.t)) :
  keeps (SaveColumns cols).
Proof.
  induction cols as [|[name col] cols IH]; cbn [SaveColumns]; keeps_steps.
Qed.
#[local] Hint Resolve keeps_SaveColumns : frame.

Lemma keeps_SendData (block : Block.t) : keeps (SendData block).
Proof. unfold SendData. keeps_steps. Qed.
#[local] Hint Resolve keeps_SendData : frame.

Lemma keeps_SendQuery (query : string) : keeps (SendQuery query).
Proof. unfold SendQuery. keeps_steps. Qed.
#[local] Hint Resolve keeps_SendQuery : frame.

Lemma keeps_ReadExceptionFrames (fuel : nat) : keeps (ReadExceptionFrames fuel).
Proof. induction fuel as [|fuel IH]; cbn [ReadExceptionFrames]; keeps_steps. Qed.
#[local] Hint Resolve keeps_ReadExceptionFrames : frame.

Lemma keeps_ReadException : keeps ReadException.
Proof. unfold ReadException. keeps_steps. Qed.
#[local] Hint Resolve keeps_ReadException : frame.

Lemma keeps_ReceiveException (rethrow : bool) : keeps (ReceiveException rethrow).
Proof. unfold ReceiveException. keeps_steps. Qed.
#[local] Hint Resolve keeps_ReceiveException : frame.

Lemma keeps_ReadColumns (n : nat) (num_rows : Z) :
  forall block, keeps (ReadColumns n num_rows block).
Proof.
  induction n as [|n IH]; intros block; cbn [ReadColumns]; keeps_steps.
Qed.
#[local] Hint Resolve keeps_ReadColumns : frame.

Lemma keeps_ReadBlock : keeps ReadBlock.
Proof. unfold ReadBlock. keeps_steps. Qed.
#[local] Hint Resolve keeps_ReadBlock : frame.

Lemma keeps_ReceiveData : keeps ReceiveData.
Proof. unfold ReceiveData. keeps_steps. Qed.
#[local] Hint Resolve keeps_ReceiveData : frame.

Lemma keeps_ReadProfile : keeps ReadProfile.
Proof. unfold ReadProfile. keeps_steps. Qed.
#[local] Hint Resolve keeps_ReadProfile : frame.

Lemma keeps_ReadProgress : keeps ReadProgress.
Proof. unfold ReadProgress. keeps_steps. Qed.
#[local] Hint Resolve keeps_ReadProgress : frame.

Lemma keeps_dispatch (packet_type : Z) : keeps (dispatch packet_type).
Proof.
  unfold dispatch.
    keeps_steps.
Qed.
#[local] Hint Resolve keeps_dispatch : frame.

Lemma keeps_ReceivePacket : keeps ReceivePacket.
Proof. unfold ReceivePacket. keeps_steps. Qed.
#[local] Hint Resolve keeps_ReceivePacket : frame.

Lemma keeps_ReceiveLoop (fuel : nat) : keeps (ReceiveLoop fuel).
Proof.
  induction fuel as [|fuel IH]; cbn [ReceiveLoop]; keeps_steps.
Qed.
#[local] Hint Resolve keeps_ReceiveLoop : frame.

Lemma keeps_ReceiveAll : keeps ReceiveAll.
Proof. unfold ReceiveAll. keeps_steps. Qed.
#[local] Hint Resolve keeps_ReceiveAll : frame.

Lemma keeps_AwaitData (fuel : nat) :
  forall server_packet, keeps (AwaitData fuel server_packet).
Proof.
  induction fuel as [|fuel IH]; intros server_packet; cbn [AwaitData]; keeps_steps.
Qed.
#[local] Hint Resolve keeps_AwaitData : frame.

Lemma keeps_Insert (fuel : nat) (server_packet : Z) (table_name : string)
      (block : Block.t) :
  keeps (Insert fuel server_packet table_name block).
Proof.
  unfold Insert.
    keeps_steps.
Qed.
#[local] Hint Resolve keeps_Insert : frame.

Lemma keeps_Ping : keeps Ping.
Proof. unfold Ping. keeps_steps. Qed.
#[local] Hint Resolve keeps_Ping : frame.

(** ** Running the session on a transcript *)

Lemma bind_read {A B} (r : Codec.reader A) (k : option A -> M B)
      (s : Impl.t) (v : option A) (rest : list byte) :
  r (Impl.input_ s) = (v, rest) ->
  bind (read r) k s = k v (Impl.set_input_ rest s).
Proof. intros H. unfold bind, read. now rewrite H. Qed.

Lemma bind_ret {A B} (a : A) (k : A -> M B) (s : Impl.t) :
  bind (ret a) k s = k a s.
Proof. reflexivity. Qed.

Lemma bind_get {A} (k : Impl.t -> M A) (s : Impl.t) :
  bind get k s = k s s.
Proof. reflexivity. Qed.

Lemma bind_write {A} (bs : list byte) (k : unit -> M A) (s : Impl.t) :
  bind (write bs) k s
  = k tt (Impl.set_output_ (Impl.socket_ s) (Impl.output_ s ++ bs) s).
Proof. reflexivity. Qed.

Lemma bind_Flush {A} (k : unit -> M A) (s : Impl.t) :
  bind Flush k s
  = k tt (Impl.set_output_ (Impl.socket_ s ++ Impl.output_ s) [] s).
Proof. reflexivity. Qed.

Lemma bind_bind {A B C} (m : M A) (f : A -> M B) (g : B -> M C) (s : Impl.t) :
  bind (bind m f) g s = bind m (fun a => bind (f a) g) s.
Proof.
  unfold bind. destruct (m s) as [[a|e|] s1]; reflexivity.
Qed.

Lemma bind_run {A B} (m : M A) (k : A -> M B) (s s1 : Impl.t) (a : A) :
  m s = (Ret a, s1) -> bind m k s = k a s1.
Proof. intros H. unfold bind. now rewrite H. Qed.

Lemma bind_throw {A B} (m : M A) (k : A -> M B) (s s1 : Impl.t) (e : Error) :
  m s = (Throw e, s1) -> bind m k s = (Throw e, s1).
Proof. intros H. unfold bind. now rewrite H. Qed.

(** Projections of records that are given by their fields. *)
Ltac fields :=
  unfold Impl.set_events_, Impl.set_input_, Impl.set_output_,
    Impl.set_server_info_, Impl.set_sink_calls in *;
  cbn [Impl.options_ Impl.events_ Impl.query_id_ Impl.socket_ Impl.input_
       Impl.output_ Impl.server_info_ Impl.sink_calls
       Impl.set_events_ Impl.set_input_ Impl.set_output_
       Impl.set_server_info_ Impl.set_sink_calls
       Progress.rows Progress.bytes Progress.total_rows
       Profile.rows Profile.blocks Profile.bytes Profile.applied_limit
       Profile.rows_before_limit Profile.calculated_rows_before_limit
       BlockInfo.is_overflows BlockInfo.bucket_num
       Block.Info Block.columns Block.rows
       ServerInfo.name ServerInfo.timezone ServerInfo.version_major
       ServerInfo.version_minor ServerInfo.revision
       Exception.code Exception.name Exception.display_text
       Exception.stack_trace Exception.nested
       Wire.table_name Wire.info Wire.num_rows Wire.entries
       Column.Type_ Column.data fst snd] in *.

(** One read off a stream that starts with an encoding. *)
Ltac read_step :=
  erewrite bind_read by
    (cbn [Impl.input_ Impl.set_input_ Impl.set_output_ Impl.set_sink_calls
          Impl.set_server_info_ Impl.set_events_];
     first [ apply ReadUInt64_Write | apply ReadVarint64_Write
           | apply ReadString_Write | apply ReadFixed8_Write
           | apply ReadFixed32_Write ];
     solve [ assumption | unfold is_u64, is_u8, is_i32, is_short; simpl; lia ]);
  cbv beta iota; fields.

Lemma ReadProgress_wire (s : Impl.t) (p : Progress.t) (rest : list byte) :
  is_u64 (Progress.rows p) -> is_u64 (Progress.bytes p) ->
  is_u64 (Progress.total_rows p) ->
  Impl.input_ s = Wire.progress p ++ rest ->
  ReadProgress s = (Ret (Some p), Impl.set_input_ rest s).
Proof.
  intros Hr Hb Ht Hin.
  destruct s as [o ev q sock inp out si calls]. simpl in Hin. subst inp.
  destruct p as [r b t]. fields.
  unfold ReadProgress, Wire.progress. fields.
  rewrite <- !app_assoc.
  read_step. read_step.
  change (REVISION >=? DBMS_MIN_REVISION_WITH_TOTAL_ROWS_IN_PROGRESS) with true.
  cbv iota.
  read_step. reflexivity.
Qed.

Lemma ReadProfile_wire (s : Impl.t) (p : Profile.t) (rest : list byte) :
  Profile_wf p ->
  Impl.input_ s = Wire.profile p ++ rest ->
  ReadProfile s = (Ret (Some p), Impl.set_input_ rest s).
Proof.
  intros (H1 & H2 & H3 & H4 & H5 & H6) Hin.
  destruct s as [o ev q sock inp out si calls]. simpl in Hin. subst inp.
  destruct p as [r bl by_ al rb cr]. fields.
  unfold ReadProfile, Wire.profile. fields.
  rewrite <- !app_assoc.
  do 6 read_step. reflexivity.
Qed.

(** *** Column bodies *)

Lemma read_value_write (k : Column.kind) (v rest : list byte) :
  value_ok k v ->
  Column.read_value k (Column.write_value k v ++ rest) = (Some v, rest).
Proof.
  unfold value_ok, Column.read_value, Column.write_value.
  destruct (Column.stride k) as [w|]; intros Hv.
  - subst w. apply ReadRaw_app.
  - unfold WireFormat.ReadString.
    rewrite <- app_assoc, ReadVarint64_Write by (unfold is_u64; lia).
    rewrite Nat2Z.id, ReadRaw_app.
    unfold bytes_of_string, string_of_bytes.
    now rewrite list_byte_of_string_of_list_byte.
Qed.

Lemma read_values_write (k : Column.kind) (vs : list (list byte)) (rest : list byte) :
  Forall (value_ok k) vs ->
  Column.read_values k (List.length vs)
    (List.concat (map (Column.write_value k) vs) ++ rest)
  = (Some vs, rest).
Proof.
  induction 1 as [|v vs Hv Hvs IH]; [reflexivity|].
  cbn [List.length map List.concat Column.read_values].
  rewrite <- app_assoc, read_value_write by assumption.
  now rewrite IH.
Qed.

Lemma Load_Save (rows : Z) (c : Column.t) (rest : list byte) :
  Column_wf rows c ->
  Column.Load (Column.make (Column.Type_ c) []) rows (Column.Save c ++ rest)
  = (Some c, rest).
Proof.
  intros [Hn Hv]. unfold Column.Load, Column.Save. cbn [Column.Type_ Column.data].
  unfold Column.Size in Hn. rewrite <- Hn, Nat2Z.id.
  rewrite read_values_write by assumption.
  destruct c; reflexivity.
Qed.

Lemma Column_wf_0 (c : Column.t) :
  Column_wf 0 c -> c = Column.make (Column.Type_ c) [] /\ Column.Save c = [].
Proof.
  intros [Hn _]. unfold Column.Size in Hn. destruct c as [k d]. simpl in *.
  destruct d; [split; reflexivity|simpl in Hn; lia].
Qed.

(** *** The column loop *)

Lemma ReadColumns_wire (num_rows : Z) (entries : list (string * string * Column.t)) :
  Forall (entry_ok num_rows) entries ->
  forall (block : Block.t) (s : Impl.t) (rest : list byte),
    Impl.input_ s = Wire.columns entries ++ rest ->
    ReadColumns (List.length entries) num_rows block s
    = (Ret (Some (append_entries block entries)), Impl.set_input_ rest s).
Proof.
  induction 1 as [|[[name type] col] entries He Hes IH]; intros block s rest Hin.
  - destruct s as [o ev q sock inp out si calls]. simpl in Hin. subst inp.
    unfold append_entries. simpl. rewrite app_nil_r.
    destruct block; reflexivity.
  - destruct He as (Hname & Htype & Hkind & Hwf).
    destruct s as [o ev q sock inp out si calls]. simpl in Hin. subst inp.
    cbn [List.length ReadColumns].
    unfold Wire.columns. cbn [map List.concat]. unfold Wire.column.
    rewrite <- !app_assoc.
    read_step. read_step.
    unfold Column.CreateColumnByType. rewrite Hkind.
    destruct (Z.eqb_spec num_rows 0) as [Hz|Hnz].
    + subst num_rows. destruct (Column_wf_0 col Hwf) as [Hc Hs].
      rewrite Hs. cbn [app]. rewrite <- Hc.
      erewrite IH by reflexivity.
      unfold append_entries, Block.AppendColumn. fields.
      now rewrite <- app_assoc.
    + erewrite bind_read by (fields; apply Load_Save; exact Hwf).
      cbv beta iota. fields.
      erewrite IH by reflexivity.
      unfold append_entries, Block.AppendColumn. fields.
      now rewrite <- app_assoc.
Qed.

(** After recognised entries, an entry whose descriptor is outside the
    registry stops the loop with a throw. *)
Lemma ReadColumns_unsupported (num_rows : Z)
      (entries : list (string * string * Column.t)) (name type : string) :
  Forall (entry_ok num_rows) entries ->
  is_short name -> is_short type ->
  Column.CreateColumnByType type = None ->
  forall (n : nat) (block : Block.t) (s : Impl.t) (rest : list byte),
    Impl.input_ s
    = Wire.columns entries ++ WireFormat.WriteString name
      ++ WireFormat.WriteString type ++ rest ->
    ReadColumns (List.length entries + S n) num_rows block s
    = (Throw (runtime_error ("unsupported column type: " ++ type)),
       Impl.set_input_ rest s).
Proof.
  intros Hes Hname Htype Hnone.
  induction Hes as [|[[name' type'] col] entries He Hes IH];
    intros n block s rest Hin.
  - destruct s as [o ev q sock inp out si calls]. simpl in Hin. subst inp.
    cbn [List.length Nat.add ReadColumns].
    read_step. read_step. rewrite Hnone. reflexivity.
  - destruct He as (Hname' & Htype' & Hkind & Hwf).
    destruct s as [o ev q sock inp out si calls]. simpl in Hin. subst inp.
    cbn [List.length Nat.add ReadColumns].
    unfold Wire.columns. cbn [map List.concat]. unfold Wire.column.
    rewrite <- !app_assoc.
    read_step. read_step.
    unfold Column.CreateColumnByType. rewrite Hkind.
    destruct (Z.eqb_spec num_rows 0) as [Hz|Hnz].
    + subst num_rows. destruct (Column_wf_0 col Hwf) as [Hc Hs].
      rewrite Hs. cbn [app].
      erewrite IH by reflexivity. reflexivity.
    + erewrite bind_read by (fields; apply Load_Save; exact Hwf).
      cbv beta iota. fields.
      erewrite IH by reflexivity. reflexivity.
Qed.

(** *** Exception chains *)

Lemma chain_length (n : nat) :
  forall e, (Exception.depth e <= n)%nat ->
            (Exception.depth e <= List.length (Wire.chain e))%nat.
Proof.
  induction n as [|n IH]; intros [c nm d st [e'|]];
    cbn [Exception.depth Wire.chain]; fields; intros Hd; try lia.
  - rewrite !length_app.
    change (List.length (WireFormat.WriteFixed32 c)) with 4%nat.
    assert (Exception.depth e' <= List.length (Wire.chain e'))%nat
      by (apply IH; lia).
    lia.
  - rewrite !length_app.
    change (List.length (WireFormat.WriteFixed32 c)) with 4%nat. lia.
Qed.

Lemma ReadExceptionFrames_wire (fuel : nat) :
  forall (e : Exception.t) (s : Impl.t) (rest : list byte),
    (Exception.depth e <= fuel)%nat ->
    Exception_wf e ->
    Impl.input_ s = Wire.chain e ++ rest ->
    ReadExceptionFrames fuel s = (Ret (Some e), Impl.set_input_ rest s).
Proof.
  induction fuel as [|fuel IH]; intros [c nm d st ne] s rest Hd Hwf Hin.
  - destruct ne; simpl in Hd; lia.
  - destruct s as [o ev q sock inp out si calls]. simpl in Hin. subst inp.
    destruct Hwf as (Hc & Hn & Hdt & Hst & Hne). fields.
    cbn [ReadExceptionFrames Wire.chain]. fields.
    rewrite <- !app_assoc.
    do 4 read_step.
    destruct ne as [e'|]; cbn [Exception.depth] in Hd; fields.
    + read_step.
      change (negb (1 =? 0)) with true. cbv iota.
      erewrite bind_run
        by (eapply IH; [ | | reflexivity]; [lia | assumption]).
      reflexivity.
    + read_step. reflexivity.
Qed.

Lemma ReadException_wire (e : Exception.t) (s : Impl.t) (rest : list byte) :
  Exception_wf e ->
  Impl.input_ s = Wire.chain e ++ rest ->
  ReadException s = (Ret (Some e), Impl.set_input_ rest s).
Proof.
  intros Hwf Hin. unfold ReadException. rewrite bind_get.
  apply ReadExceptionFrames_wire; try assumption.
  rewrite Hin, length_app.
  pose proof (chain_length (Exception.depth e) e (Nat.le_refl _)). lia.
Qed.

Lemma notify_deliver (call : SinkCall) (s : Impl.t) :
  notify call s = (Ret tt, deliver [call] s).
Proof. unfold notify, deliver. destruct (Impl.events_ s); reflexivity. Qed.

Lemma bind_notify {A} (call : SinkCall) (k : unit -> M A) (s : Impl.t) :
  bind (notify call) k s = k tt (deliver [call] s).
Proof. unfold bind. now rewrite notify_deliver. Qed.

(** [ReceiveException]: the chain goes to the sink, if any, and is thrown
    when asked for by the caller or by the options. *)
Lemma ReceiveException_wire (rethrow : bool) (e : Exception.t) (s : Impl.t)
      (rest : list byte) :
  Exception_wf e ->
  Impl.input_ s = Wire.chain e ++ rest ->
  ReceiveException rethrow s
  = (if rethrow || ClientOptions.rethrow_exceptions (Impl.options_ s)
     then Throw (ServerException e) else Ret true,
     deliver [OnServerException e] (Impl.set_input_ rest s)).
Proof.
  intros Hwf Hin. unfold ReceiveException.
  erewrite bind_run by (apply ReadException_wire; eassumption).
  cbv beta iota.
  rewrite bind_notify, bind_get.
  replace (Impl.options_ (deliver [OnServerException e] (Impl.set_input_ rest s)))
    with (Impl.options_ s)
    by (unfold deliver; destruct s as [o [ev|] q sock inp out si calls]; reflexivity).
  destruct (rethrow || _); reflexivity.
Qed.

(** *** Data packets *)

Lemma ReadBlock_header (s : Impl.t) (table_name : string) (info : BlockInfo.t)
      (num_columns num_rows : Z) (rest : list byte) :
  is_short table_name -> BlockInfo_wf info ->
  is_u64 num_columns -> is_u64 num_rows ->
  Impl.input_ s
  = Wire.data_header (Some table_name) (Some info) num_columns num_rows ++ rest ->
  ReadBlock s
  = ReadColumns (Z.to_nat num_columns) num_rows (Block_new num_columns num_rows)
                (Impl.set_input_ rest s).
Proof.
  intros Ht [Ho Hb] Hc Hr Hin.
  destruct s as [o ev q sock inp out si calls]. simpl in Hin. subst inp.
  unfold ReadBlock, Wire.data_header, Wire.optional, Wire.block_info.
  change (REVISION >=? DBMS_MIN_REVISION_WITH_TEMPORARY_TABLES) with true.
  change (REVISION >=? DBMS_MIN_REVISION_WITH_BLOCK_INFO) with true.
  cbv iota.
  rewrite <- !app_assoc.
  rewrite !bind_bind. read_step. rewrite bind_ret. cbv beta iota.
  rewrite !bind_bind. do 5 (read_step; rewrite ?bind_bind).
  rewrite bind_ret. cbv beta iota.
  read_step. read_step. reflexivity.
Qed.

Lemma ReadBlock_wire (s : Impl.t) (d : Wire.data) (rest : list byte) :
  data_ok d ->
  Impl.input_ s = Wire.data_body d ++ rest ->
  ReadBlock s = (Ret (Some (block_of d)), Impl.set_input_ rest s).
Proof.
  intros (Ht & Hi & Hc & Hr & He) Hin.
  unfold Wire.data_body in Hin. rewrite <- app_assoc in Hin.
  rewrite (ReadBlock_header s (Wire.table_name d) (Wire.info d)
             (Z.of_nat (List.length (Wire.entries d))) (Wire.num_rows d)
             (Wire.columns (Wire.entries d) ++ rest)) by assumption.
  rewrite Nat2Z.id.
  rewrite (ReadColumns_wire (Wire.num_rows d) (Wire.entries d) He _ _ rest)
    by reflexivity.
  destruct s; reflexivity.
Qed.

Lemma ReceiveData_wire (s : Impl.t) (d : Wire.data) (rest : list byte) :
  data_ok d ->
  Impl.input_ s = Wire.data_body d ++ rest ->
  ReceiveData s
  = (Ret false, deliver [OnData (block_of d)] (Impl.set_input_ rest s)).
Proof.
  intros Hd Hin. unfold ReceiveData.
  erewrite bind_run by (apply ReadBlock_wire; eassumption).
  cbv beta iota.
  now rewrite bind_notify.
Qed.

(** ** Termination of the bounded loops *)

Lemma total_ret {A} (a : A) : total (ret a).
Proof. intros s. discriminate. Qed.

Lemma total_throw {A} (e : Error) : total (@throw A e).
Proof. intros s. discriminate. Qed.

Lemma total_get : total get.
Proof. intros s. discriminate. Qed.

Lemma total_read {A} (r : Codec.reader A) : total (read r).
Proof. intros s. unfold read. destruct (r (Impl.input_ s)). discriminate. Qed.

Lemma total_write (bs : list byte) : total (write bs).
Proof. intros s. discriminate. Qed.

Lemma total_Flush : total Flush.
Proof. intros s. discriminate. Qed.

Lemma total_notify (call : SinkCall) : total (notify call).
Proof. intros s. rewrite notify_deliver. discriminate. Qed.

Lemma total_set_server_info (f : ServerInfo.t -> ServerInfo.t) :
  total (set_server_info f).
Proof. intros s. discriminate. Qed.

Lemma total_bind {A B} (m : M A) (k : A -> M B) :
  total m -> (forall a, total (k a)) -> total (bind m k).
Proof.
  intros Hm Hk s. unfold bind. specialize (Hm s).
  destruct (m s) as [[a|e|] s1]; simpl in *; [apply Hk|discriminate|congruence].
Qed.

Create HintDb total.

Ltac total_step :=
  lazymatch goal with
  | |- total (ret _) => apply total_ret
  | |- total (throw _) => apply total_throw
  | |- total get => apply total_get
  | |- total (write _) => apply total_write
  | |- total Flush => apply total_Flush
  | |- total (notify _) => apply total_notify
  | |- total (set_server_info _) => apply total_set_server_info
  | |- total (read _) => apply total_read
  | |- total (bind _ _) => apply total_bind; [ | intros ? ]
  | |- total (match ?x with _ => _ end) => destruct x
  | |- total (let _ := _ in _) => cbv zeta
  | |- total _ => solve [auto 2 with total nocore]
  end.

Ltac total_steps := repeat total_step.

Lemma ReadRaw_length (n : nat) (inp bs rest : list byte) :
  Codec.ReadRaw n inp = (Some bs, rest) ->
  (List.length rest + n = List.length inp)%nat.
Proof.
  unfold Codec.ReadRaw.
  destruct (Nat.ltb_spec (List.length inp) n) as [H|H]; [discriminate|].
  intros E. inversion E; subst. rewrite length_skipn. lia.
Qed.

Lemma ReadFixed32_progress (inp rest : list byte) (v : Z) :
  WireFormat.ReadFixed32 inp = (Some v, rest) ->
  (List.length rest < List.length inp)%nat.
Proof.
  unfold WireFormat.ReadFixed32.
  destruct (Codec.ReadRaw 4 inp) as [[bs|] r] eqn:E; [|discriminate].
  intros H. inversion H; subst. apply ReadRaw_length in E. lia.
Qed.

(** A chain cannot have more frames than the stream has bytes. *)
Lemma ReadExceptionFrames_fuel (fuel : nat) :
  forall s, (List.length (Impl.input_ s) < fuel)%nat ->
            fst (ReadExceptionFrames fuel s) <> OutOfFuel.
Proof.
  induction fuel as [|fuel IH]; intros s Hlen; [lia|].
  cbn [ReadExceptionFrames].
  unfold bind at 1.
  destruct (read WireFormat.ReadFixed32 s) as [[[c|]|e|] s1] eqn:E1;
    try (simpl; discriminate).
  2:{ exfalso. revert E1. unfold read.
      destruct (WireFormat.ReadFixed32 (Impl.input_ s)); discriminate. }
  assert (Hs1 : (List.length (Impl.input_ s1) < List.length (Impl.input_ s))%nat).
  { revert E1. unfold read.
    destruct (WireFormat.ReadFixed32 (Impl.input_ s)) as [v rest] eqn:E.
    intros H. inversion H; subst. simpl. eapply ReadFixed32_progress; eauto. }
  clear E1.
  assert (Hk : forall (m : M (option Exception.t)) (s' : Impl.t),
             (List.length (Impl.input_ s') < fuel)%nat ->
             (m = ReadExceptionFrames fuel) -> fst (m s') <> OutOfFuel)
    by (intros m s' Hl ->; now apply IH).
  assert (Hstep : forall {A} (r : Codec.reader A) (k : option A -> M (option Exception.t)) s',
             consuming r ->
             (List.length (Impl.input_ s') < S fuel)%nat ->
             (forall v s'', (List.length (Impl.input_ s'') <= List.length (Impl.input_ s'))%nat ->
                            fst (k v s'') <> OutOfFuel) ->
             fst (bind (read r) k s') <> OutOfFuel).
  { intros A r k s' Hr Hl Hkk. unfold bind, read.
    specialize (Hr (Impl.input_ s')).
    destruct (r (Impl.input_ s')) as [v rest]. simpl in Hr.
    apply Hkk. simpl. exact Hr. }
  apply Hstep; [auto with consuming|lia|]. intros [nm|] s2 H2; [|simpl; discriminate].
  apply Hstep; [auto with consuming|lia|]. intros [d|] s3 H3; [|simpl; discriminate].
  apply Hstep; [auto with consuming|lia|]. intros [st|] s4 H4; [|simpl; discriminate].
  apply Hstep; [auto with consuming|lia|]. intros [h|] s5 H5; [|simpl; discriminate].
  destruct (negb (h =? 0)); [|simpl; discriminate].
  unfold bind.
  assert (Hr : fst (ReadExceptionFrames fuel s5) <> OutOfFuel) by (apply IH; lia).
  destruct (ReadExceptionFrames fuel s5) as [[[e'|]|e'|] s6];
    simpl in *; congruence.
Qed.

Lemma total_ReadException : total ReadException.
Proof.
  intros s. unfold ReadException. rewrite bind_get.
  apply ReadExceptionFrames_fuel. lia.
Qed.
#[local] Hint Resolve total_ReadException : total.

Lemma total_ReceiveException (rethrow : bool) : total (ReceiveException rethrow).
Proof. unfold ReceiveException. total_steps. Qed.
#[local] Hint Resolve total_ReceiveException : total.

Lemma total_ReadColumns (n : nat) (num_rows : Z) :
  forall block, total (ReadColumns n num_rows block).
Proof. induction n as [|n IH]; intros block; cbn [ReadColumns]; total_steps. Qed.
#[local] Hint Resolve total_ReadColumns : total.

Lemma total_ReadBlock : total ReadBlock.
Proof. unfold ReadBlock. total_steps. Qed.
#[local] Hint Resolve total_ReadBlock : total.

Lemma total_ReceiveData : total ReceiveData.
Proof. unfold ReceiveData. total_steps. Qed.
#[local] Hint Resolve total_ReceiveData : total.

Lemma total_dispatch (packet_type : Z) : total (dispatch packet_type).
Proof.
  unfold dispatch, ReadProfile, ReadProgress.
  total_steps.
Qed.
#[local] Hint Resolve total_dispatch : total.

Lemma total_ReceivePacket : total ReceivePacket.
Proof. unfold ReceivePacket. total_steps. Qed.
#[local] Hint Resolve total_ReceivePacket : total.

(** A round of the loop that goes on has taken at least the packet code off
    the stream. *)
Lemma ReceivePacket_progress (s s1 : Impl.t) (w : option Z) :
  ReceivePacket s = (Ret (true, w), s1) ->
  (List.length (Impl.input_ s1) < List.length (Impl.input_ s))%nat.
Proof.
  unfold ReceivePacket, bind at 1, read.
  destruct (Codec.ReadVarint64 (Impl.input_ s)) as [[c|] rest] eqn:E.
  - apply ReadVarint64_progress in E.
    pose proof (keeps_dispatch c (Impl.set_input_ rest s)) as Hk.
    unfold bind.
    destruct (dispatch c (Impl.set_input_ rest s)) as [[b|e|] s2];
      try discriminate.
    intros H. inversion H; subst.
    destruct Hk as (_ & _ & _ & Hl & _). simpl in Hl. lia.
  - discriminate.
Qed.

Lemma ReceiveLoop_fuel (n : nat) :
  forall m s,
    (List.length (Impl.input_ s) < n)%nat ->
    (List.length (Impl.input_ s) < m)%nat ->
    ReceiveLoop n s = ReceiveLoop m s.
Proof.
  induction n as [|n IH]; intros m s Hn Hm; [lia|].
  destruct m as [|m]; [lia|].
  cbn [ReceiveLoop]. unfold bind.
  destruct (ReceivePacket s) as [[[b w]|e|] s1] eqn:E; try reflexivity.
  destruct b; [|reflexivity]. simpl.
  apply ReceivePacket_progress in E. apply IH; lia.
Qed.

(** The loop of [ExecuteQuery], one round at a time. *)
Lemma ReceiveAll_unfold (s : Impl.t) :
  ReceiveAll s
  = bind ReceivePacket (fun r => if fst r then ReceiveAll else ret tt) s.
Proof.
  unfold ReceiveAll at 1. rewrite bind_get. cbn [ReceiveLoop].
  unfold bind.
  destruct (ReceivePacket s) as [[[b w]|e|] s1] eqn:E; try reflexivity.
  destruct b; [|reflexivity]. cbn [fst].
  unfold ReceiveAll, get.
  apply ReceivePacket_progress in E. apply ReceiveLoop_fuel; lia.
Qed.

Lemma ReceiveLoop_total (n : nat) :
  forall s, (List.length (Impl.input_ s) < n)%nat ->
            fst (ReceiveLoop n s) <> OutOfFuel.
Proof.
  induction n as [|n IH]; intros s Hn; [lia|].
  cbn [ReceiveLoop]. unfold bind.
  pose proof (total_ReceivePacket s) as Ht.
  destruct (ReceivePacket s) as [[[b w]|e|] s1] eqn:E;
    simpl in *; try congruence.
  destruct b; [|discriminate].
  apply ReceivePacket_progress in E. apply IH. lia.
Qed.

Lemma total_ReceiveAll : total ReceiveAll.
Proof.
  intros s. unfold ReceiveAll. rewrite bind_get. apply ReceiveLoop_total. lia.
Qed.
#[local] Hint Resolve total_ReceiveAll : total.

(** ** One packet at a time *)

Lemma ReceivePacket_code (s : Impl.t) (c : Z) (rest : list byte) :
  is_u64 c ->
  Impl.input_ s = WireFormat.WriteUInt64 c ++ rest ->
  ReceivePacket s
  = bind (dispatch c) (fun b => ret (b, Some c)) (Impl.set_input_ rest s).
Proof.
  intros Hc Hin. unfold ReceivePacket.
  erewrite bind_read by (rewrite Hin; apply ReadVarint64_Write; exact Hc).
  reflexivity.
Qed.

Lemma is_u64_small (c : Z) : 0 <= c < 256 -> is_u64 c.
Proof. unfold is_u64. intros H. assert (256 < 2 ^ 64) by reflexivity. lia. Qed.

Lemma ReceivePacket_Data (s : Impl.t) (d : Wire.data) (rest : list byte) :
  data_ok d ->
  Impl.input_ s = Wire.data_packet d ++ rest ->
  ReceivePacket s
  = (Ret (true, Some ServerCodes.Data),
     deliver [OnData (block_of d)] (Impl.set_input_ rest s)).
Proof.
  intros Hd Hin. unfold Wire.data_packet in Hin. rewrite <- app_assoc in Hin.
  rewrite (ReceivePacket_code s ServerCodes.Data (Wire.data_body d ++ rest))
    by (try apply is_u64_small; try exact Hin; unfold ServerCodes.Data; lia).
  change (dispatch ServerCodes.Data) with (bind ReceiveData (fun _ => ret true)).
  rewrite bind_bind.
  erewrite bind_run by (apply ReceiveData_wire; [exact Hd|reflexivity]).
  reflexivity.
Qed.

Lemma ReceivePacket_EndOfStream (s : Impl.t) (rest : list byte) :
  Impl.input_ s = WireFormat.WriteUInt64 ServerCodes.EndOfStream ++ rest ->
  ReceivePacket s
  = (Ret (false, Some ServerCodes.EndOfStream),
     deliver [OnFinish] (Impl.set_input_ rest s)).
Proof.
  intros Hin.
  rewrite (ReceivePacket_code s ServerCodes.EndOfStream rest)
    by (try apply is_u64_small; try exact Hin; unfold ServerCodes.EndOfStream; lia).
  change (dispatch ServerCodes.EndOfStream)
    with (bind (notify OnFinish) (fun _ => ret false)).
  rewrite bind_bind, bind_notify. reflexivity.
Qed.

Lemma ReceivePacket_Pong (s : Impl.t) (rest : list byte) :
  Impl.input_ s = WireFormat.WriteUInt64 ServerCodes.Pong ++ rest ->
  ReceivePacket s = (Ret (true, Some ServerCodes.Pong), Impl.set_input_ rest s).
Proof.
  intros Hin.
  rewrite (ReceivePacket_code s ServerCodes.Pong rest)
    by (try apply is_u64_small; try exact Hin; unfold ServerCodes.Pong; lia).
  reflexivity.
Qed.

Lemma ReceivePacket_Progress (s : Impl.t) (p : Progress.t) (rest : list byte) :
  Progress_wf p ->
  Impl.input_ s = Wire.progress_packet p ++ rest ->
  ReceivePacket s
  = (Ret (true, Some ServerCodes.Progress),
     deliver [OnProgress p] (Impl.set_input_ rest s)).
Proof.
  intros (Hr & Hb & Ht) Hin.
  unfold Wire.progress_packet in Hin. rewrite <- app_assoc in Hin.
  rewrite (ReceivePacket_code s ServerCodes.Progress (Wire.progress p ++ rest))
    by (try apply is_u64_small; try exact Hin; unfold ServerCodes.Progress; lia).
  change (dispatch ServerCodes.Progress)
    with (info <-! ReadProgress;; notify (OnProgress info);; ret true).
  rewrite bind_bind.
  erewrite bind_run by (apply ReadProgress_wire; [exact Hr|exact Hb|exact Ht|reflexivity]).
  cbv beta iota. rewrite !bind_bind, bind_notify. reflexivity.
Qed.

Lemma ReceivePacket_ProfileInfo (s : Impl.t) (p : Profile.t) (rest : list byte) :
  Profile_wf p ->
  Impl.input_ s = Wire.profile_packet p ++ rest ->
  ReceivePacket s
  = (Ret (true, Some ServerCodes.ProfileInfo),
     deliver [OnProfile p] (Impl.set_input_ rest s)).
Proof.
  intros Hp Hin.
  unfold Wire.profile_packet in Hin. rewrite <- app_assoc in Hin.
  rewrite (ReceivePacket_code s ServerCodes.ProfileInfo (Wire.profile p ++ rest))
    by (try apply is_u64_small; try exact Hin; unfold ServerCodes.ProfileInfo; lia).
  change (dispatch ServerCodes.ProfileInfo)
    with (profile <-! ReadProfile;; notify (OnProfile profile);; ret true).
  rewrite bind_bind.
  erewrite bind_run by (apply ReadProfile_wire; [exact Hp|reflexivity]).
  cbv beta iota. rewrite !bind_bind, bind_notify. reflexivity.
Qed.

Lemma ReceivePacket_Exception (s : Impl.t) (e : Exception.t) (rest : list byte) :
  Exception_wf e ->
  Impl.input_ s = Wire.exception_packet e ++ rest ->
  ReceivePacket s
  = (if ClientOptions.rethrow_exceptions (Impl.options_ s)
     then Throw (ServerException e)
     else Ret (false, Some ServerCodes.Exception),
     deliver [OnServerException e] (Impl.set_input_ rest s)).
Proof.
  intros He Hin.
  unfold Wire.exception_packet in Hin. rewrite <- app_assoc in Hin.
  rewrite (ReceivePacket_code s ServerCodes.Exception (Wire.chain e ++ rest))
    by (try apply is_u64_small; try exact Hin; unfold ServerCodes.Exception; lia).
  change (dispatch ServerCodes.Exception)
    with (bind (ReceiveException false) (fun _ => ret false)).
  rewrite bind_bind. unfold bind at 1.
  rewrite (ReceiveException_wire false e _ rest He) by reflexivity.
  cbn [orb]. fields.
  destruct (ClientOptions.rethrow_exceptions (Impl.options_ s)); reflexivity.
Qed.

(** A code outside the six the switch names. *)
Lemma ReceivePacket_unimplemented (s : Impl.t) (c : Z) (rest : list byte) :
  is_u64 c -> ~ (1 <= c <= 6) ->
  Impl.input_ s = WireFormat.WriteUInt64 c ++ rest ->
  ReceivePacket s
  = (Throw (runtime_error ("unimplemented " ++ to_string (int_of_u64 c))),
     Impl.set_input_ rest s).
Proof.
  intros Hc Hn Hin.
  rewrite (ReceivePacket_code s c rest Hc Hin).
  unfold dispatch, ServerCodes.Data, ServerCodes.Exception, ServerCodes.ProfileInfo,
    ServerCodes.Progress, ServerCodes.Pong, ServerCodes.EndOfStream.
  repeat match goal with
         | |- context [?a =? ?b] =>
             destruct (Z.eqb_spec a b); [exfalso; lia|]
         end.
  reflexivity.
Qed.

(** ** What the session writes *)

Lemma SaveColumns_wire (cols : list (string * Column.t)) :
  forall s,
    SaveColumns cols s
    = (Ret tt,
       Impl.set_output_ (Impl.socket_ s)
         (Impl.output_ s ++ Wire.columns (Wire.entries_of cols)) s).
Proof.
  induction cols as [|[name col] cols IH]; intros s.
  - destruct s as [o ev q sock inp out si calls].
    unfold Wire.columns. cbn. now rewrite app_nil_r.
  - destruct s as [o ev q sock inp out si calls].
    cbn [SaveColumns]. do 3 (rewrite bind_write; fields).
    rewrite IH. fields.
    unfold Wire.columns, Wire.entries_of. cbn [map List.concat fst snd].
    unfold Wire.column. fields.
    now rewrite <- !app_assoc.
Qed.

Lemma SendData_wire (block : Block.t) (s : Impl.t) :
  SendData block s
  = (Ret tt,
     Impl.set_output_
       (Impl.socket_ s ++ Impl.output_ s
        ++ Wire.client_data (ServerInfo.revision (Impl.server_info_ s)) block)
       [] s).
Proof.
  destruct s as [o ev q sock inp out si calls].
  unfold SendData, Wire.client_data, Wire.data_header, Wire.optional,
    Wire.block_info.
  rewrite bind_write, bind_get. cbv zeta. fields.
  rewrite !Z.geb_leb.
  unfold DBMS_MIN_REVISION_WITH_TEMPORARY_TABLES, DBMS_MIN_REVISION_WITH_BLOCK_INFO.
  destruct (50264 <=? ServerInfo.revision si);
    destruct (51903 <=? ServerInfo.revision si);
    repeat (progress (rewrite ?bind_bind, ?bind_write, ?bind_ret; fields));
    (erewrite bind_run by (apply SaveColumns_wire));
    unfold Flush; fields;
    unfold Impl.set_output_; fields;
    rewrite <- ?app_assoc; cbn [app]; rewrite ?app_nil_r; reflexivity.
Qed.

Lemma writes_write (bs : list byte) : writes (write bs) bs.
Proof. intros s. reflexivity. Qed.

Lemma writes_ret : writes (ret tt) [].
Proof.
  intros s. unfold ret. destruct s. unfold Impl.set_output_. simpl.
  now rewrite app_nil_r.
Qed.

Lemma writes_seq (m k : M unit) (a b : list byte) :
  writes m a -> writes k b -> writes (bind m (fun _ => k)) (a ++ b).
Proof.
  intros Hm Hk s. unfold bind. rewrite Hm, Hk.
  destruct s. unfold Impl.set_output_. simpl. now rewrite app_assoc.
Qed.

Lemma writes_if (c : bool) (m k : M unit) (a b : list byte) :
  writes m a -> writes k b ->
  writes (if c then m else k) (if c then a else b).
Proof. destruct c; auto. Qed.

(** The ClientInfo block of [SendQuery], by revision. *)
Lemma SendQuery_client_info (revision : Z) (m : M unit) :
  m = (if revision >=? DBMS_MIN_REVISION_WITH_CLIENT_INFO
       then
         write (WireFormat.WriteFixed8 1);;
         write (WireFormat.WriteString "");;
         write (WireFormat.WriteString "");;
         write (WireFormat.WriteString "[::ffff:127.0.0.1]:0");;
         write (WireFormat.WriteFixed8 1);;
         write (WireFormat.WriteString "");;
         write (WireFormat.WriteString "");;
         write (WireFormat.WriteString "ClickHouse client");;
         write (WireFormat.WriteUInt64 DBMS_VERSION_MAJOR);;
         write (WireFormat.WriteUInt64 DBMS_VERSION_MINOR);;
         write (WireFormat.WriteUInt64 REVISION);;
         (if revision >=? DBMS_MIN_REVISION_WITH_QUOTA_KEY_IN_CLIENT_INFO
          then write (WireFormat.WriteString "")
          else ret tt)
       else ret tt) ->
  writes m
    (if 54032 <=? revision
     then Wire.client_info
          ++ (if 54060 <=? revision then WireFormat.WriteString "" else [])
     else []).
Proof.
  intros ->. rewrite !Z.geb_leb.
  unfold DBMS_MIN_REVISION_WITH_CLIENT_INFO,
    DBMS_MIN_REVISION_WITH_QUOTA_KEY_IN_CLIENT_INFO.
  apply writes_if; [|apply writes_ret].
  unfold Wire.client_info. rewrite <- !app_assoc.
  repeat (apply writes_seq; [apply writes_write|]).
  apply writes_if; [apply writes_write|apply writes_ret].
Qed.

Lemma SendQuery_wire (query : string) (s : Impl.t) :
  SendQuery query s
  = (Ret tt,
     Impl.set_output_
       (Impl.socket_ s ++ Impl.output_ s
        ++ Wire.query (ServerInfo.revision (Impl.server_info_ s))
                      (to_string (Impl.query_id_ s)) query Block_empty)
       [] s).
Proof.
  destruct s as [o ev q sock inp out si calls].
  unfold SendQuery.
  rewrite bind_write. fields. rewrite bind_get. fields.
  rewrite bind_write. cbv zeta. fields.
  rewrite (bind_run _ _ _ _ _
             (SendQuery_client_info (ServerInfo.revision si) _ eq_refl _)).
  fields.
  do 4 (rewrite bind_write; fields).
  rewrite (bind_run _ _ _ _ _ (SendData_wire _ _)).
  fields.
  unfold Flush, Wire.query. fields.
  unfold Stages.Complete, CompressionState.Disable.
  rewrite app_nil_r. rewrite <- !app_assoc. reflexivity.
Qed.

(** ** The receiving side writes nothing *)

Lemma silent_refl (s : Impl.t) : silent s s.
Proof. unfold silent. auto. Qed.

Lemma silent_trans (s1 s2 s3 : Impl.t) :
  silent s1 s2 -> silent s2 s3 -> silent s1 s3.
Proof.
  unfold silent. intros (H1 & H2 & H3) (H1' & H2' & H3').
  repeat split; congruence.
Qed.

Lemma reads_only_ret {A} (a : A) : reads_only (ret a).
Proof. intros s. apply silent_refl. Qed.

Lemma reads_only_throw {A} (e : Error) : reads_only (@throw A e).
Proof. intros s. apply silent_refl. Qed.

Lemma reads_only_out_of_fuel {A} : reads_only (@out_of_fuel A).
Proof. intros s. apply silent_refl. Qed.

Lemma reads_only_get : reads_only get.
Proof. intros s. apply silent_refl. Qed.

Lemma reads_only_read {A} (r : Codec.reader A) : reads_only (read r).
Proof.
  intros s. unfold read. destruct (r (Impl.input_ s)).
  unfold silent. simpl. auto.
Qed.

Lemma reads_only_notify (call : SinkCall) : reads_only (notify call).
Proof.
  intros s. rewrite notify_deliver. unfold deliver, silent.
  destruct (Impl.events_ s); simpl; auto.
Qed.

Lemma reads_only_bind {A B} (m : M A) (k : A -> M B) :
  reads_only m -> (forall a, reads_only (k a)) -> reads_only (bind m k).
Proof.
  intros Hm Hk s. unfold bind. specialize (Hm s).
  destruct (m s) as [[a|e|] s1]; simpl in *; auto.
  eapply silent_trans; [exact Hm|apply Hk].
Qed.

Create HintDb quiet.

Ltac reads_only_step :=
  lazymatch goal with
  | |- reads_only (ret _) => apply reads_only_ret
  | |- reads_only (throw _) => apply reads_only_throw
  | |- reads_only out_of_fuel => apply reads_only_out_of_fuel
  | |- reads_only get => apply reads_only_get
  | |- reads_only (notify _) => apply reads_only_notify
  | |- reads_only (read _) => apply reads_only_read
  | |- reads_only (bind _ _) => apply reads_only_bind; [ | intros ? ]
  | |- reads_only (match ?x with _ => _ end) => destruct x
  | |- reads_only (let _ := _ in _) => cbv zeta
  | |- reads_only _ => solve [auto 2 with quiet nocore]
  end.

Ltac reads_only_steps := repeat reads_only_step.

Lemma reads_only_ReadExceptionFrames (fuel : nat) :
  reads_only (ReadExceptionFrames fuel).
Proof.
  induction fuel as [|fuel IH]; cbn [ReadExceptionFrames]; reads_only_steps.
Qed.
#[local] Hint Resolve reads_only_ReadExceptionFrames : quiet.

Lemma reads_only_ReadException : reads_only ReadException.
Proof. unfold ReadException. reads_only_steps. Qed.
#[local] Hint Resolve reads_only_ReadException : quiet.

Lemma reads_only_ReceiveException (rethrow : bool) :
  reads_only (ReceiveException rethrow).
Proof. unfold ReceiveException. reads_only_steps. Qed.
#[local] Hint Resolve reads_only_ReceiveException : quiet.

Lemma reads_only_ReadColumns (n : nat) (num_rows : Z) :
  forall block, reads_only (ReadColumns n num_rows block).
Proof.
  induction n as [|n IH]; intros block; cbn [ReadColumns]; reads_only_steps.
Qed.
#[local] Hint Resolve reads_only_ReadColumns : quiet.

Lemma reads_only_ReadBlock : reads_only ReadBlock.
Proof. unfold ReadBlock. reads_only_steps. Qed.
#[local] Hint Resolve reads_only_ReadBlock : quiet.

Lemma reads_only_ReceiveData : reads_only ReceiveData.
Proof. unfold ReceiveData. reads_only_steps. Qed.
#[local] Hint Resolve reads_only_ReceiveData : quiet.

Lemma reads_only_dispatch (packet_type : Z) : reads_only (dispatch packet_type).
Proof. unfold dispatch, ReadProfile, ReadProgress. reads_only_steps. Qed.
#[local] Hint Resolve reads_only_dispatch : quiet.

Lemma reads_only_ReceivePacket : reads_only ReceivePacket.
Proof. unfold ReceivePacket. reads_only_steps. Qed.
#[local] Hint Resolve reads_only_ReceivePacket : quiet.

Lemma reads_only_ReceiveLoop (fuel : nat) : reads_only (ReceiveLoop fuel).
Proof. induction fuel as [|fuel IH]; cbn [ReceiveLoop]; reads_only_steps. Qed.
#[local] Hint Resolve reads_only_ReceiveLoop : quiet.

Lemma reads_only_ReceiveAll : reads_only ReceiveAll.
Proof. unfold ReceiveAll. reads_only_steps. Qed.
#[local] Hint Resolve reads_only_ReceiveAll : quiet.

Lemma reads_only_AwaitData (fuel : nat) :
  forall server_packet, reads_only (AwaitData fuel server_packet).
Proof.
  induction fuel as [|fuel IH]; intros server_packet; cbn [AwaitData];
    reads_only_steps.
Qed.
#[local] Hint Resolve reads_only_AwaitData : quiet.

(** ** The receive loop on a stream of packets *)

Lemma deliver_nil (s : Impl.t) : deliver [] s = s.
Proof.
  unfold deliver. destruct s as [o [ev|] q sock inp out si calls]; simpl;
    [now rewrite app_nil_r|reflexivity].
Qed.

Lemma deliver_deliver (a b : list SinkCall) (s : Impl.t) :
  deliver b (deliver a s) = deliver (a ++ b) s.
Proof.
  unfold deliver. destruct s as [o [ev|] q sock inp out si calls]; simpl;
    [now rewrite app_assoc|reflexivity].
Qed.

Lemma deliver_set_input (calls : list SinkCall) (inp : list byte) (s : Impl.t) :
  Impl.set_input_ inp (deliver calls s) = deliver calls (Impl.set_input_ inp s).
Proof.
  unfold deliver. destruct s as [o [ev|] q sock i out si cs]; reflexivity.
Qed.

Lemma input_deliver (calls : list SinkCall) (s : Impl.t) :
  Impl.input_ (deliver calls s) = Impl.input_ s.
Proof. unfold deliver. destruct (Impl.events_ s); reflexivity. Qed.

Lemma set_input_set_input (a b : list byte) (s : Impl.t) :
  Impl.set_input_ a (Impl.set_input_ b s) = Impl.set_input_ a s.
Proof. reflexivity. Qed.

Lemma ReceiveAll_Data (s : Impl.t) (d : Wire.data) (rest : list byte) :
  data_ok d ->
  Impl.input_ s = Wire.data_packet d ++ rest ->
  ReceiveAll s
  = ReceiveAll (deliver [OnData (block_of d)] (Impl.set_input_ rest s)).
Proof.
  intros Hd Hin. rewrite ReceiveAll_unfold.
  erewrite bind_run by (apply ReceivePacket_Data; eassumption).
  reflexivity.
Qed.

Lemma ReceiveAll_EndOfStream (s : Impl.t) (rest : list byte) :
  Impl.input_ s = WireFormat.WriteUInt64 ServerCodes.EndOfStream ++ rest ->
  ReceiveAll s = (Ret tt, deliver [OnFinish] (Impl.set_input_ rest s)).
Proof.
  intros Hin. rewrite ReceiveAll_unfold.
  erewrite bind_run by (apply ReceivePacket_EndOfStream; eassumption).
  reflexivity.
Qed.

Lemma ReceiveAll_Exception (s : Impl.t) (e : Exception.t) (rest : list byte) :
  Exception_wf e ->
  Impl.input_ s = Wire.exception_packet e ++ rest ->
  ReceiveAll s
  = (if ClientOptions.rethrow_exceptions (Impl.options_ s)
     then Throw (ServerException e) else Ret tt,
     deliver [OnServerException e] (Impl.set_input_ rest s)).
Proof.
  intros He Hin. rewrite ReceiveAll_unfold. unfold bind.
  rewrite (ReceivePacket_Exception s e rest He Hin).
  destruct (ClientOptions.rethrow_exceptions (Impl.options_ s)); reflexivity.
Qed.

(** Data packets one after the other, then EndOfStream. *)
Lemma ReceiveAll_stream (ds : list Wire.data) :
  Forall data_ok ds ->
  forall (s : Impl.t) (rest : list byte),
    Impl.input_ s
    = List.concat (map Wire.data_packet ds)
      ++ WireFormat.WriteUInt64 ServerCodes.EndOfStream ++ rest ->
    ReceiveAll s
    = (Ret tt,
       deliver (map (fun d => OnData (block_of d)) ds ++ [OnFinish])
               (Impl.set_input_ rest s)).
Proof.
  induction 1 as [|d ds Hd Hds IH]; intros s rest Hin.
  - cbn [map List.concat app] in *. now apply ReceiveAll_EndOfStream.
  - cbn [map List.concat] in Hin. rewrite <- app_assoc in Hin.
    rewrite (ReceiveAll_Data s d _ Hd Hin).
    rewrite (IH _ rest) by (rewrite input_deliver; reflexivity).
    rewrite deliver_set_input, set_input_set_input, deliver_deliver.
    reflexivity.
Qed.

(** ** Query execution on a stream of data packets *)

Lemma ExecuteQuery_stream (query : Query.t) (ds : list Wire.data)
      (s : Impl.t) (rest : list byte) :
  Forall data_ok ds ->
  Impl.input_ s
  = List.concat (map Wire.data_packet ds)
    ++ WireFormat.WriteUInt64 ServerCodes.EndOfStream ++ rest ->
  ExecuteQuery query s
  = (Ret tt,
     Impl.make (Impl.options_ s) None (Impl.query_id_ s)
       (Impl.socket_ s ++ Impl.output_ s
        ++ Wire.query (ServerInfo.revision (Impl.server_info_ s))
                      (to_string (Impl.query_id_ s)) (Query.GetText query)
                      Block_empty)
       rest [] (Impl.server_info_ s)
       (Impl.sink_calls s
        ++ map (fun d => OnData (block_of d)) ds ++ [OnFinish])).
Proof.
  intros Hds Hin.
  destruct s as [o ev q sock inp out si calls]. fields. subst inp.
  unfold ExecuteQuery, EnsureNull. fields.
  rewrite (bind_run _ _ _ _ _ (SendQuery_wire _ _)). fields.
  rewrite (ReceiveAll_stream ds Hds _ rest) by reflexivity.
  unfold deliver. fields. reflexivity.
Qed.

(** ** Handshake *)

Lemma keeps_SendHello : keeps SendHello.
Proof. unfold SendHello. keeps_steps. Qed.
#[local] Hint Resolve keeps_SendHello : frame.

Lemma keeps_ReceiveHello : keeps ReceiveHello.
Proof. unfold ReceiveHello. keeps_steps. Qed.
#[local] Hint Resolve keeps_ReceiveHello : frame.

Lemma keeps_Handshake : keeps Handshake.
Proof. unfold Handshake. keeps_steps. Qed.
#[local] Hint Resolve keeps_Handshake : frame.

Lemma total_ReceiveHello : total ReceiveHello.
Proof. unfold ReceiveHello. total_steps. Qed.
#[local] Hint Resolve total_ReceiveHello : total.

Lemma total_Handshake : total Handshake.
Proof. unfold Handshake, SendHello. total_steps. Qed.

Lemma SendHello_wire (s : Impl.t) :
  SendHello s
  = (Ret true,
     Impl.set_output_
       (Impl.socket_ s ++ Impl.output_ s ++ Wire.client_hello (Impl.options_ s))
       [] s).
Proof.
  destruct s as [o ev q sock inp out si calls].
  unfold SendHello.
  rewrite bind_get. cbv zeta. fields.
  do 8 (rewrite bind_write; fields).
  rewrite bind_Flush. fields. unfold ret, Wire.client_hello.
  unfold DBMS_NAME, DBMS_VERSION_MAJOR, DBMS_VERSION_MINOR, REVISION.
  cbn [String.append].
  rewrite <- !app_assoc. reflexivity.
Qed.

Lemma bind_set_server_info {A} (f : ServerInfo.t -> ServerInfo.t)
      (k : unit -> M A) (s : Impl.t) :
  bind (set_server_info f) k s
  = k tt (Impl.set_server_info_ (f (Impl.server_info_ s)) s).
Proof. reflexivity. Qed.

(** The server Hello: name, versions and revision, then the timezone when
    the revision just read reaches the gate. *)
Lemma ReceiveHello_wire (s : Impl.t) (name : string)
      (version_major version_minor revision : Z) (tz : string) (rest : list byte) :
  is_short name -> is_u64 version_major -> is_u64 version_minor ->
  is_u64 revision -> is_short tz ->
  Impl.input_ s
  = Wire.hello name version_major version_minor revision
    ++ WireFormat.WriteString tz ++ rest ->
  ReceiveHello s
  = (Ret true,
     if 54058 <=? revision
     then Impl.set_server_info_
            (ServerInfo.make name tz version_major version_minor revision)
            (Impl.set_input_ rest s)
     else Impl.set_server_info_
            (ServerInfo.make name (ServerInfo.timezone (Impl.server_info_ s))
                             version_major version_minor revision)
            (Impl.set_input_ (WireFormat.WriteString tz ++ rest) s)).
Proof.
  intros Hn Hmaj Hmin Hrev Htz Hin.
  destruct s as [o ev q sock inp out si calls]. fields. subst inp.
  unfold ReceiveHello, Wire.hello, ServerCodes.Hello.
  rewrite <- !app_assoc.
  erewrite bind_read
    by (fields; apply ReadVarint64_Write; unfold is_u64; simpl; lia).
  cbv beta iota. fields.
  change (0 =? 0) with true. cbv iota.
  read_step. rewrite bind_set_server_info. fields.
  read_step. rewrite bind_set_server_info. fields.
  read_step. rewrite bind_set_server_info. fields.
  read_step. rewrite bind_set_server_info. fields.
  rewrite bind_get. fields.
  rewrite Z.geb_leb. unfold DBMS_MIN_REVISION_WITH_SERVER_TIMEZONE.
  destruct (54058 <=? revision).
  - read_step. rewrite bind_set_server_info. fields. reflexivity.
  - reflexivity.
Qed.

Lemma ReceiveHello_Exception (s : Impl.t) (e : Exception.t) (rest : list byte) :
  Exception_wf e ->
  Impl.input_ s = Wire.exception_packet e ++ rest ->
  ReceiveHello s
  = (Throw (ServerException e),
     deliver [OnServerException e] (Impl.set_input_ rest s)).
Proof.
  intros He Hin. unfold Wire.exception_packet in Hin.
  rewrite <- app_assoc in Hin.
  unfold ReceiveHello.
  erewrite bind_read
    by (rewrite Hin; apply ReadVarint64_Write; unfold is_u64, ServerCodes.Exception;
        simpl; lia).
  cbv beta iota.
  change (ServerCodes.Exception =? ServerCodes.Hello) with false.
  change (ServerCodes.Exception =? ServerCodes.Exception) with true.
  cbv iota. unfold bind.
  rewrite (ReceiveException_wire true e _ rest He) by reflexivity.
  reflexivity.
Qed.

(** What the constructor fixes: the id drawn from the counter, no sink, no
    call made. *)
Lemma Impl_new_state (opts : ClientOptions.t) (counter counter' : Z)
      (server : option (list byte)) (s : Impl.t) :
  Impl_new opts counter server = (Ret s, counter') ->
  counter' = u64 (counter + 1)
  /\ Impl.query_id_ s = counter'
  /\ Impl.options_ s = opts
  /\ Impl.events_ s = None
  /\ Impl.sink_calls s = [].
Proof.
  unfold Impl_new, GenerateQueryId.
  destruct server as [transcript|]; [|discriminate].
  match goal with
  | |- context [Handshake ?s0] =>
      pose proof (keeps_Handshake s0) as Hk;
      destruct (Handshake s0) as [[[|]|e|] s1]
  end; try discriminate.
  intros H. inversion H; subst. clear H.
  destruct Hk as (Ho & He & Hq & _ & Hc). cbn [snd] in *. fields.
  repeat split; auto.
Qed.

(** ** Streams that end inside a packet *)

Lemma app_split {A} (pre suf a b : list A) :
  pre ++ suf = a ++ b ->
  (exists a2, a2 <> [] /\ a = pre ++ a2)
  \/ (exists p', pre = a ++ p' /\ b = p' ++ suf).
Proof.
  revert a. induction pre as [|x pre IH]; intros a H.
  - destruct a as [|y a].
    + right. exists []. simpl in *. auto.
    + left. exists (y :: a). split; [discriminate|reflexivity].
  - destruct a as [|y a].
    + right. exists (x :: pre). simpl in *. auto.
    + simpl in H. inversion H; subst.
      destruct (IH a H2) as [(a2 & Hn & ->)|(p' & -> & ->)].
      * left. exists a2. auto.
      * right. exists p'. auto.
Qed.

Lemma cut_short_varint_go (fuel : nat) :
  forall v pre suf shift acc,
    Codec.WriteVarint64_go fuel v = pre ++ suf -> suf <> [] ->
    Codec.ReadVarint64_from fuel shift acc pre = (None, []).
Proof.
  induction fuel as [|fuel IH]; intros v pre suf shift acc H Hs.
  - simpl in H. destruct pre; destruct suf; try discriminate. congruence.
  - cbn [Codec.WriteVarint64_go] in H. cbn [Codec.ReadVarint64_from].
    destruct pre as [|x pre]; [reflexivity|].
    destruct (v <? 128).
    + simpl in H. inversion H.
      destruct pre; destruct suf; try discriminate. congruence.
    + simpl in H. inversion H; subst. cbv zeta.
      destruct (continuation_byte v) as [Hb _]. rewrite Hb.
      eapply IH; eassumption.
Qed.

Lemma cut_short_ReadUInt64 (v : Z) :
  cut_short WireFormat.ReadUInt64 (WireFormat.WriteUInt64 v).
Proof.
  intros pre suf H Hs.
  exact (cut_short_varint_go 10 _ pre suf 0 0 H Hs).
Qed.

Lemma cut_short_length {A} (pre suf : list A) :
  suf <> [] -> (List.length pre < List.length (pre ++ suf))%nat.
Proof.
  intros Hs. rewrite length_app. destruct suf; [congruence|simpl; lia].
Qed.

Lemma cut_short_ReadFixed8 (v : Z) :
  cut_short WireFormat.ReadFixed8 (WireFormat.WriteFixed8 v).
Proof.
  intros pre suf H Hs. unfold WireFormat.ReadFixed8.
  rewrite ReadRaw_short; [reflexivity|].
  pose proof (cut_short_length pre suf Hs) as Hl. rewrite <- H in Hl.
  exact Hl.
Qed.

Lemma cut_short_ReadFixed32 (v : Z) :
  cut_short WireFormat.ReadFixed32 (WireFormat.WriteFixed32 v).
Proof.
  intros pre suf H Hs. unfold WireFormat.ReadFixed32.
  rewrite ReadRaw_short; [reflexivity|].
  pose proof (cut_short_length pre suf Hs) as Hl. rewrite <- H in Hl.
  exact Hl.
Qed.

Lemma cut_short_ReadString (s : string) :
  is_short s ->
  cut_short WireFormat.ReadString (WireFormat.WriteString s).
Proof.
  intros Hshort pre suf H Hs. unfold WireFormat.WriteString in H.
  symmetry in H. apply app_split in H.
  unfold WireFormat.ReadString.
  destruct H as [(a2 & Hn & Ha)|(p' & -> & Hb)].
  - change (Codec.ReadVarint64 pre) with (Codec.ReadVarint64_from 10 0 0 pre).
    rewrite (cut_short_varint_go 10 _ pre a2 0 0 Ha Hn). reflexivity.
  - rewrite ReadVarint64_Write by (unfold is_u64, is_short in *; lia).
    rewrite Nat2Z.id, ReadRaw_short; [reflexivity|].
    rewrite <- length_bytes_of_string, Hb. now apply cut_short_length.
Qed.

(** A read on a stream that ends inside the fields still to come: either
    this field is cut short, or it is read and a later one is. *)
Lemma bind_read_cut {A B} (r : Codec.reader A) (v : A) (enc more : list byte)
      (k : option A -> M B) (s : Impl.t) (suf : list byte) (res : Outcome B) :
  (forall rest, r (enc ++ rest) = (Some v, rest)) ->
  cut_short r enc ->
  Impl.input_ s ++ suf = enc ++ more -> suf <> [] ->
  (forall p', more = p' ++ suf ->
              k (Some v) (Impl.set_input_ p' s) = (res, Impl.set_input_ [] s)) ->
  k None (Impl.set_input_ [] s) = (res, Impl.set_input_ [] s) ->
  bind (read r) k s = (res, Impl.set_input_ [] s).
Proof.
  intros Hok Hcut Hin Hs Hsome Hnone.
  apply app_split in Hin. destruct Hin as [(a2 & Hn & Ha)|(p' & Hp & Hm)].
  - erewrite bind_read by (apply (Hcut _ a2 Ha Hn)). exact Hnone.
  - erewrite bind_read by (rewrite Hp; apply Hok). now apply Hsome.
Qed.

Lemma no_proper_prefix_of_nil (p suf : list byte) :
  suf <> [] -> [] = p ++ suf -> False.
Proof. intros Hs H. destruct p; destruct suf; try discriminate. congruence. Qed.

(** The state left at the end of the stream, seen from the current state. *)
Ltac from_here :=
  match goal with
  | |- ?lhs = (?res, _) =>
      match lhs with
      | _ ?st => change (lhs = (res, Impl.set_input_ [] st))
      end
  end.

Ltac cut_u64 v Hv E :=
  from_here;
  eapply (bind_read_cut WireFormat.ReadUInt64 v (WireFormat.WriteUInt64 v));
  [ intros; apply ReadUInt64_Write; exact Hv
  | apply cut_short_ReadUInt64
  | first [exact E | exact (eq_sym E)]
  | assumption
  |
  | reflexivity ].

Ltac cut_u8 v Hv E :=
  from_here;
  eapply (bind_read_cut WireFormat.ReadFixed8 v (WireFormat.WriteFixed8 v));
  [ intros; apply ReadFixed8_Write; exact Hv
  | apply cut_short_ReadFixed8
  | first [exact E | exact (eq_sym E)]
  | assumption
  |
  | reflexivity ].

Ltac cut_u64_last v Hv E :=
  from_here;
  eapply (bind_read_cut WireFormat.ReadUInt64 v (WireFormat.WriteUInt64 v) []);
  [ intros; apply ReadUInt64_Write; exact Hv
  | apply cut_short_ReadUInt64
  | cbn [Impl.input_ Impl.set_input_]; rewrite <- E; symmetry; apply app_nil_r
  | assumption
  | intros ? ?; exfalso; eapply no_proper_prefix_of_nil; eassumption
  | reflexivity ].

Ltac cut_u8_last v Hv E :=
  from_here;
  eapply (bind_read_cut WireFormat.ReadFixed8 v (WireFormat.WriteFixed8 v) []);
  [ intros; apply ReadFixed8_Write; exact Hv
  | apply cut_short_ReadFixed8
  | cbn [Impl.input_ Impl.set_input_]; rewrite <- E; symmetry; apply app_nil_r
  | assumption
  | intros ? ?; exfalso; eapply no_proper_prefix_of_nil; eassumption
  | reflexivity ].

Lemma ReadProgress_cut (s : Impl.t) (p : Progress.t) (suf : list byte) :
  Progress_wf p ->
  Impl.input_ s ++ suf = Wire.progress p -> suf <> [] ->
  ReadProgress s = (Ret None, Impl.set_input_ [] s).
Proof.
  intros (Hr & Hb & Ht) Hin Hs. unfold Wire.progress in Hin.
  unfold ReadProgress.
  change (REVISION >=? DBMS_MIN_REVISION_WITH_TOTAL_ROWS_IN_PROGRESS) with true.
  cbv iota.
  cut_u64 (Progress.rows p) Hr Hin. intros p1 E1.
  cut_u64 (Progress.bytes p) Hb E1. intros p2 E2.
  cut_u64_last (Progress.total_rows p) Ht E2.
Qed.

Lemma ReadProfile_cut (s : Impl.t) (p : Profile.t) (suf : list byte) :
  Profile_wf p ->
  Impl.input_ s ++ suf = Wire.profile p -> suf <> [] ->
  ReadProfile s = (Ret None, Impl.set_input_ [] s).
Proof.
  intros (H1 & H2 & H3 & H4 & H5 & H6) Hin Hs. unfold Wire.profile in Hin.
  unfold ReadProfile.
  cut_u64 (Profile.rows p) H1 Hin. intros p1 E1.
  cut_u64 (Profile.blocks p) H2 E1. intros p2 E2.
  cut_u64 (Profile.bytes p) H3 E2. intros p3 E3.
  cut_u8 (Profile.applied_limit p) H4 E3. intros p4 E4.
  cut_u64 (Profile.rows_before_limit p) H5 E4. intros p5 E5.
  cut_u8_last (Profile.calculated_rows_before_limit p) H6 E5.
Qed.

Lemma cut_short_read_value (k : Column.kind) (v : list byte) :
  value_ok k v ->
  cut_short (Column.read_value k) (Column.write_value k v).
Proof.
  unfold value_ok, Column.read_value, Column.write_value.
  destruct (Column.stride k) as [w|]; intros Hv pre suf H Hs.
  - rewrite ReadRaw_short; [reflexivity|].
    rewrite <- Hv, H. now apply cut_short_length.
  - symmetry in H. apply app_split in H.
    unfold WireFormat.ReadString.
    destruct H as [(a2 & Hn & Ha)|(p' & -> & Hb)].
    + change (Codec.ReadVarint64 pre) with (Codec.ReadVarint64_from 10 0 0 pre).
      rewrite (cut_short_varint_go 10 _ pre a2 0 0 Ha Hn). reflexivity.
    + rewrite ReadVarint64_Write by (unfold is_u64; lia).
      rewrite Nat2Z.id, ReadRaw_short; [reflexivity|].
      rewrite Hb. now apply cut_short_length.
Qed.

Lemma cut_short_read_values (k : Column.kind) (vs : list (list byte)) :
  Forall (value_ok k) vs ->
  cut_short (Column.read_values k (List.length vs))
            (List.concat (map (Column.write_value k) vs)).
Proof.
  induction 1 as [|v vs Hv Hvs IH]; intros pre suf H Hs.
  - exfalso. eapply no_proper_prefix_of_nil; eassumption.
  - cbn [map List.concat] in H. cbn [List.length Column.read_values].
    symmetry in H. apply app_split in H.
    destruct H as [(a2 & Hn & Ha)|(p' & -> & Hb)].
    + now rewrite (cut_short_read_value k v Hv pre a2 Ha Hn).
    + rewrite read_value_write by assumption.
      now rewrite (IH p' suf Hb Hs).
Qed.

Lemma cut_short_Load (rows : Z) (c : Column.t) :
  Column_wf rows c ->
  cut_short (Column.Load (Column.make (Column.Type_ c) []) rows) (Column.Save c).
Proof.
  intros [Hn Hv] pre suf H Hs. unfold Column.Load, Column.Save in *.
  cbn [Column.Type_ Column.data].
  unfold Column.Size in Hn. rewrite <- Hn, Nat2Z.id.
  now rewrite (cut_short_read_values _ _ Hv pre suf H Hs).
Qed.

(** The column loop after the entries it has taken in. *)
Lemma ReadColumns_app (num_rows : Z) (entries : list (string * string * Column.t)) :
  Forall (entry_ok num_rows) entries ->
  forall (n : nat) (block : Block.t) (s : Impl.t) (rest : list byte),
    Impl.input_ s = Wire.columns entries ++ rest ->
    ReadColumns (List.length entries + n) num_rows block s
    = ReadColumns n num_rows (append_entries block entries)
                  (Impl.set_input_ rest s).
Proof.
  induction 1 as [|[[name type] col] entries He Hes IH];
    intros n block s rest Hin.
  - destruct s as [o ev q sock inp out si calls]. simpl in Hin. subst inp.
    unfold append_entries. cbn [List.length Nat.add map]. rewrite app_nil_r.
    destruct block; reflexivity.
  - destruct He as (Hname & Htype & Hkind & Hwf).
    destruct s as [o ev q sock inp out si calls]. simpl in Hin. subst inp.
    cbn [List.length Nat.add ReadColumns].
    unfold Wire.columns. cbn [map List.concat]. unfold Wire.column.
    rewrite <- !app_assoc.
    read_step. read_step.
    unfold Column.CreateColumnByType. rewrite Hkind.
    destruct (Z.eqb_spec num_rows 0) as [Hz|Hnz].
    + subst num_rows. destruct (Column_wf_0 col Hwf) as [Hc Hs].
      rewrite Hs. cbn [app]. rewrite <- Hc.
      erewrite IH by reflexivity.
      unfold append_entries, Block.AppendColumn. fields.
      now rewrite <- app_assoc.
    + erewrite bind_read by (fields; apply Load_Save; exact Hwf).
      cbv beta iota. fields.
      erewrite IH by reflexivity.
      unfold append_entries, Block.AppendColumn. fields.
      now rewrite <- app_assoc.
Qed.

(** The stream ends inside the body of a column: the load fails and the
    loop throws. *)
Lemma ReadColumns_cant_load (num_rows : Z)
      (entries : list (string * string * Column.t))
      (name type : string) (col : Column.t) (pre suf : list byte) :
  Forall (entry_ok num_rows) entries ->
  entry_ok num_rows (name, type, col) ->
  Column.Save col = pre ++ suf -> suf <> [] ->
  forall (n : nat) (block : Block.t) (s : Impl.t),
    Impl.input_ s
    = Wire.columns entries ++ WireFormat.WriteString name
      ++ WireFormat.WriteString type ++ pre ->
    ReadColumns (List.length entries + S n) num_rows block s
    = (Throw (runtime_error "can't load"), Impl.set_input_ [] s).
Proof.
  intros Hes (Hname & Htype & Hkind & Hwf) Hsave Hs n block s Hin.
  rewrite (ReadColumns_app num_rows entries Hes (S n) block s _ Hin).
  destruct s as [o ev q sock inp out si calls]. fields.
  cbn [ReadColumns].
  read_step. read_step.
  unfold Column.CreateColumnByType. rewrite Hkind.
  destruct (Z.eqb_spec num_rows 0) as [Hz|Hnz].
  - exfalso. subst num_rows. destruct (Column_wf_0 col Hwf) as [_ Hnil].
    rewrite Hnil in Hsave. eapply no_proper_prefix_of_nil; eassumption.
  - erewrite bind_read
      by (fields; apply (cut_short_Load num_rows col Hwf pre suf Hsave Hs)).
    reflexivity.
Qed.

(** ** Streams of mixed packets *)

Lemma ReceivePacket_Eof (s : Impl.t) :
  Impl.input_ s = [] -> ReceivePacket s = (Ret (false, None), s).
Proof.
  intros Hin. unfold ReceivePacket.
  erewrite bind_read by (rewrite Hin; reflexivity).
  destruct s as [o ev q sock inp out si calls]. fields. subst inp.
  reflexivity.
Qed.

Lemma ReceivePacket_packet (pk : packet) (s : Impl.t) (rest : list byte) :
  packet_ok pk ->
  Impl.input_ s = packet_wire pk ++ rest ->
  ReceivePacket s
  = (Ret (true, Some (packet_code pk)),
     deliver (packet_calls pk) (Impl.set_input_ rest s)).
Proof.
  intros Hok Hin.
  destruct pk as [d|p|p|];
    cbn [packet_ok packet_wire packet_calls packet_code] in *.
  - exact (ReceivePacket_Data s d rest Hok Hin).
  - exact (ReceivePacket_Progress s p rest Hok Hin).
  - exact (ReceivePacket_ProfileInfo s p rest Hok Hin).
  - rewrite (ReceivePacket_Pong s rest Hin). now rewrite deliver_nil.
Qed.

(** [ReceivePacket] answers [false] without throwing at an EndOfStream or
    Exception code, and otherwise only when a read has failed: that of the
    packet code, or one of the fields of a Progress or ProfileInfo packet.
    A Data or Pong code never gives [false]. *)
Lemma ReceivePacket_false (s s' : Impl.t) (c : option Z) :
  ReceivePacket s = (Ret (false, c), s') ->
  c = None \/ c = Some ServerCodes.EndOfStream
  \/ c = Some ServerCodes.Exception
  \/ c = Some ServerCodes.Progress \/ c = Some ServerCodes.ProfileInfo.
Proof.
  unfold ReceivePacket, bind at 1, read.
  destruct (Codec.ReadVarint64 (Impl.input_ s)) as [[pt|] rest].
  2:{ unfold ret. intros H. inversion H. now left. }
  unfold bind.
  destruct (dispatch pt (Impl.set_input_ rest s)) as [[b|e|] s1] eqn:E;
    try discriminate.
  unfold ret. intros H. inversion H. subst b c s1. clear H.
  right. revert E. unfold dispatch.
  destruct (Z.eqb_spec pt ServerCodes.Data) as [->|_].
  { unfold bind.
    destruct (ReceiveData (Impl.set_input_ rest s)) as [[x|e|] s2];
      discriminate. }
  destruct (Z.eqb_spec pt ServerCodes.Exception) as [->|_]; [tauto|].
  destruct (Z.eqb_spec pt ServerCodes.ProfileInfo) as [->|_]; [tauto|].
  destruct (Z.eqb_spec pt ServerCodes.Progress) as [->|_]; [tauto|].
  destruct (Z.eqb_spec pt ServerCodes.Pong) as [->|_]; [discriminate|].
  destruct (Z.eqb_spec pt ServerCodes.EndOfStream) as [->|_]; [tauto|].
  discriminate.
Qed.

Lemma ReceiveAll_packet (pk : packet) (s : Impl.t) (rest : list byte) :
  packet_ok pk ->
  Impl.input_ s = packet_wire pk ++ rest ->
  ReceiveAll s = ReceiveAll (deliver (packet_calls pk) (Impl.set_input_ rest s)).
Proof.
  intros Hok Hin. rewrite ReceiveAll_unfold.
  destruct pk as [d|p|p|]; cbn [packet_ok packet_wire packet_calls] in *.
  - rewrite (bind_run _ _ _ _ _ (ReceivePacket_Data s d rest Hok Hin)).
    reflexivity.
  - rewrite (bind_run _ _ _ _ _ (ReceivePacket_Progress s p rest Hok Hin)).
    reflexivity.
  - rewrite (bind_run _ _ _ _ _ (ReceivePacket_ProfileInfo s p rest Hok Hin)).
    reflexivity.
  - rewrite (bind_run _ _ _ _ _ (ReceivePacket_Pong s rest Hin)).
    rewrite deliver_nil. reflexivity.
Qed.

Lemma ReceiveAll_transcript (pks : list packet) :
  Forall packet_ok pks ->
  forall (s : Impl.t) (tail : list byte),
    Impl.input_ s = transcript pks ++ tail ->
    ReceiveAll s
    = ReceiveAll (deliver (transcript_calls pks) (Impl.set_input_ tail s)).
Proof.
  unfold transcript, transcript_calls.
  induction 1 as [|pk pks Hpk Hpks IH]; intros s tail Hin.
  - cbn [map List.concat app] in *. rewrite deliver_nil.
    destruct s as [o ev q sock inp out si calls]. fields. subst inp.
    reflexivity.
  - cbn [map List.concat] in *. rewrite <- app_assoc in Hin.
    rewrite (ReceiveAll_packet pk s _ Hpk Hin).
    rewrite (IH _ tail) by (rewrite input_deliver; reflexivity).
    rewrite deliver_set_input, set_input_set_input, deliver_deliver.
    reflexivity.
Qed.

Lemma ReceiveAll_Eof (s : Impl.t) :
  Impl.input_ s = [] -> ReceiveAll s = (Ret tt, s).
Proof.
  intros Hin. rewrite ReceiveAll_unfold. unfold ReceivePacket.
  erewrite bind_bind, bind_read by (rewrite Hin; reflexivity).
  destruct s as [o ev q sock inp out si calls]. fields. subst inp.
  reflexivity.
Qed.

Lemma ReceiveAll_unimplemented (s : Impl.t) (c : Z) (rest : list byte) :
  is_u64 c -> ~ (1 <= c <= 6) ->
  Impl.input_ s = WireFormat.WriteUInt64 c ++ rest ->
  ReceiveAll s
  = (Throw (runtime_error ("unimplemented " ++ to_string (int_of_u64 c))),
     Impl.set_input_ rest s).
Proof.
  intros Hc Hn Hin. rewrite ReceiveAll_unfold.
  now rewrite (bind_throw _ _ _ _ _ (ReceivePacket_unimplemented s c rest Hc Hn Hin)).
Qed.

Lemma query_sent_deliver (query : Query.t) (s : Impl.t) (rest : list byte)
      (calls : list SinkCall) :
  Impl.set_events_ None
    (deliver calls (Impl.set_input_ rest (query_sent query s)))
  = query_done query s rest calls.
Proof. reflexivity. Qed.

Lemma ExecuteQuery_run (query : Query.t) (s : Impl.t) :
  ExecuteQuery query s
  = (fst (ReceiveAll (query_sent query s)),
     Impl.set_events_ None (snd (ReceiveAll (query_sent query s)))).
Proof.
  destruct s as [o ev q sock inp out si calls].
  unfold ExecuteQuery, EnsureNull, query_sent. fields.
  rewrite (bind_run _ _ _ _ _ (SendQuery_wire _ _)). fields.
  destruct (ReceiveAll _) as [r s2]. reflexivity.
Qed.

(** ** The errors of a session *)

Lemma raises_ret {A} (a : A) : raises (ret a).
Proof. intros s. exact I. Qed.

Lemma raises_out_of_fuel {A} : raises (@out_of_fuel A).
Proof. intros s. exact I. Qed.

Lemma raises_get : raises get.
Proof. intros s. exact I. Qed.

Lemma raises_write (bs : list byte) : raises (write bs).
Proof. intros s. exact I. Qed.

Lemma raises_Flush : raises Flush.
Proof. intros s. exact I. Qed.

Lemma raises_notify (call : SinkCall) : raises (notify call).
Proof. intros s. unfold notify. destruct (Impl.events_ s); exact I. Qed.

Lemma raises_read {A} (r : Codec.reader A) : raises (read r).
Proof. intros s. unfold read. destruct (r (Impl.input_ s)). exact I. Qed.

Lemma raises_bind {A B} (m : M A) (k : A -> M B) :
  keeps m -> raises m -> (forall a, raises (k a)) -> raises (bind m k).
Proof.
  intros Hk Hm Hka s. specialize (Hk s). specialize (Hm s).
  unfold bind. destruct (m s) as [[a|e|] s1]; cbn [fst snd] in *.
  - destruct Hk as (Ho & _). specialize (Hka a s1). now rewrite Ho in Hka.
  - exact Hm.
  - exact I.
Qed.


Create HintDb errors.

Ltac raises_step :=
  lazymatch goal with
  | |- raises (ret _) => apply raises_ret
  | |- raises out_of_fuel => apply raises_out_of_fuel
  | |- raises get => apply raises_get
  | |- raises (write _) => apply raises_write
  | |- raises Flush => apply raises_Flush
  | |- raises (notify _) => apply raises_notify
  | |- raises (read _) => apply raises_read
  | |- raises (bind _ _) =>
      apply raises_bind; [solve [keeps_steps] | | intros ? ]
  | |- raises (match ?x with _ => _ end) => destruct x eqn:?
  | |- raises (let _ := _ in _) => cbv zeta
  | |- raises _ => solve [auto 2 with errors nocore]
  end.

Ltac raises_steps := repeat raises_step.

Lemma raises_SendData (block : Block.t) : raises (SendData block).
Proof. intros s. now rewrite (SendData_wire block s). Qed.
#[local] Hint Resolve raises_SendData : errors.

Lemma raises_SendQuery (query : string) : raises (SendQuery query).
Proof. intros s. now rewrite (SendQuery_wire query s). Qed.
#[local] Hint Resolve raises_SendQuery : errors.

Lemma raises_ReadExceptionFrames (fuel : nat) :
  raises (ReadExceptionFrames fuel).
Proof. induction fuel as [|fuel IH]; cbn [ReadExceptionFrames]; raises_steps. Qed.
#[local] Hint Resolve raises_ReadExceptionFrames : errors.

Lemma raises_ReadException : raises ReadException.
Proof. unfold ReadException. raises_steps. Qed.
#[local] Hint Resolve raises_ReadException : errors.

Lemma raises_ReceiveException : raises (ReceiveException false).
Proof.
  unfold ReceiveException.
  apply raises_bind; [solve [keeps_steps]|auto 2 with errors nocore|].
  intros [e|]; [|apply raises_ret].
  apply raises_bind; [solve [keeps_steps]|apply raises_notify|intros _].
  intros s. unfold bind, get, throw, ret. cbn [orb].
  destruct (ClientOptions.rethrow_exceptions (Impl.options_ s)) eqn:E;
    cbn [fst expected]; [exact E|exact I].
Qed.
#[local] Hint Resolve raises_ReceiveException : errors.

Lemma raises_ReadColumns (n : nat) (num_rows : Z) :
  forall block, raises (ReadColumns n num_rows block).
Proof.
  induction n as [|n IH]; intros block; cbn [ReadColumns]; raises_steps.
  all: intros st; unfold throw; cbn [fst expected];
    first [now left | right; left; eauto].
Qed.
#[local] Hint Resolve raises_ReadColumns : errors.

Lemma raises_ReadBlock : raises ReadBlock.
Proof. unfold ReadBlock. raises_steps. Qed.
#[local] Hint Resolve raises_ReadBlock : errors.

Lemma raises_ReceiveData : raises ReceiveData.
Proof. unfold ReceiveData. raises_steps. Qed.
#[local] Hint Resolve raises_ReceiveData : errors.

Lemma raises_ReadProfile : raises ReadProfile.
Proof. unfold ReadProfile. raises_steps. Qed.
#[local] Hint Resolve raises_ReadProfile : errors.

Lemma raises_ReadProgress : raises ReadProgress.
Proof. unfold ReadProgress. raises_steps. Qed.
#[local] Hint Resolve raises_ReadProgress : errors.

Lemma raises_dispatch (packet_type : Z) : raises (dispatch packet_type).
Proof.
  unfold dispatch. raises_steps.
  intros st. unfold throw. cbn [fst expected]. right. right. eauto.
Qed.
#[local] Hint Resolve raises_dispatch : errors.

Lemma raises_ReceivePacket : raises ReceivePacket.
Proof. unfold ReceivePacket. raises_steps. Qed.
#[local] Hint Resolve raises_ReceivePacket : errors.

Lemma raises_ReceiveLoop (fuel : nat) : raises (ReceiveLoop fuel).
Proof. induction fuel as [|fuel IH]; cbn [ReceiveLoop]; raises_steps. Qed.
#[local] Hint Resolve raises_ReceiveLoop : errors.

Lemma raises_ReceiveAll : raises ReceiveAll.
Proof. unfold ReceiveAll. raises_steps. Qed.
#[local] Hint Resolve raises_ReceiveAll : errors.

Lemma raises_AwaitData (fuel : nat) :
  forall server_packet, raises (AwaitData fuel server_packet).
Proof.
  induction fuel as [|fuel IH]; intros server_packet; cbn [AwaitData];
    raises_steps.
Qed.
#[local] Hint Resolve raises_AwaitData : errors.

(** * The claims of the specification *)

(** C1 (as amended). The revision gates work by direction. What the client
    emits is gated on the server's revision: a client Data packet carries
    the temporary-table name if and only if [server.revision >= 50264] and
    the BlockInfo if and only if [server.revision >= 51903]. The timezone
    of the server Hello is consumed if and only if the revision just read
    is at least 54058, and is left on the stream below it. What the client
    consumes in a received Data packet (table name, BlockInfo) and in a
    Progress packet (total_rows) is gated on the client's own [REVISION]
    54126, which is above each gate: these fields are consumed whatever the
    server's revision is. *)
Theorem revision_gates_by_direction :
  (forall (block : Block.t) (s : Impl.t),
      let revision := ServerInfo.revision (Impl.server_info_ s) in
      SendData block s
      = (Ret tt,
         Impl.set_output_
           (Impl.socket_ s ++ Impl.output_ s
            ++ WireFormat.WriteUInt64 ClientCodes.Data
            ++ Wire.data_header
                 (if 50264 <=? revision then Some "" else None)
                 (if 51903 <=? revision then Some (Block.Info block) else None)
                 (Block.GetColumnCount block) (Block.GetRowCount block)
            ++ Wire.columns (Wire.entries_of (Block.columns block)))
           [] s))
  /\ (forall (s : Impl.t) (name : string) (version_major version_minor revision : Z)
             (tz : string) (rest : list byte),
         is_short name -> is_u64 version_major -> is_u64 version_minor ->
         is_u64 revision -> is_short tz ->
         Impl.input_ s
         = Wire.hello name version_major version_minor revision
           ++ WireFormat.WriteString tz ++ rest ->
         ReceiveHello s
         = (Ret true,
            if 54058 <=? revision
            then Impl.set_server_info_
                   (ServerInfo.make name tz version_major version_minor revision)
                   (Impl.set_input_ rest s)
            else Impl.set_server_info_
                   (ServerInfo.make name (ServerInfo.timezone (Impl.server_info_ s))
                                    version_major version_minor revision)
                   (Impl.set_input_ (WireFormat.WriteString tz ++ rest) s)))
  /\ (forall (s : Impl.t) (d : Wire.data) (rest : list byte),
         data_ok d ->
         Impl.input_ s = Wire.data_body d ++ rest ->
         ReadBlock s = (Ret (Some (block_of d)), Impl.set_input_ rest s))
  /\ (forall (s : Impl.t) (p : Progress.t) (rest : list byte),
         Progress_wf p ->
         Impl.input_ s = Wire.progress p ++ rest ->
         ReadProgress s = (Ret (Some p), Impl.set_input_ rest s)).
Proof.
  repeat split.
  - intros block s revision. exact (SendData_wire block s).
  - intros. now apply ReceiveHello_wire.
  - intros. now apply ReadBlock_wire.
  - intros s p rest (Hr & Hb & Ht) Hin. now apply ReadProgress_wire.
Qed.

(** What [ExecuteQuery] leaves behind, whatever the server answers: the
    Query packet flushed with the id of the session, the id unchanged, the
    sink cleared. *)
Lemma ExecuteQuery_frame (query : Query.t) (s : Impl.t) :
  let s' := snd (ExecuteQuery query s) in
  Impl.query_id_ s' = Impl.query_id_ s
  /\ Impl.socket_ s'
     = Impl.socket_ s ++ Impl.output_ s
       ++ Wire.query (ServerInfo.revision (Impl.server_info_ s))
                     (to_string (Impl.query_id_ s)) (Query.GetText query)
                     Block_empty
  /\ Impl.output_ s' = []
  /\ Impl.server_info_ s' = Impl.server_info_ s
  /\ Impl.options_ s' = Impl.options_ s
  /\ Impl.events_ s' = None.
Proof.
  destruct s as [o ev q sock inp out si calls].
  unfold ExecuteQuery, EnsureNull. fields.
  rewrite (bind_run _ _ _ _ _ (SendQuery_wire _ _)). fields.
  match goal with
  | |- context [ReceiveAll ?s1] =>
      pose proof (keeps_ReceiveAll s1) as (Ho & He & Hq & _ & _);
      pose proof (reads_only_ReceiveAll s1) as (Hs & Hout & Hsi);
      destruct (ReceiveAll s1) as [r s2]
  end.
  cbn [snd] in *. fields. cbv zeta. fields.
  repeat split; assumption.
Qed.


Lemma Ping_run (s : Impl.t) :
  Ping s = bind ReceivePacket (fun _ => ret tt) (ping_sent s).
Proof.
  destruct s as [o ev q sock inp out si calls].
  unfold Ping, ping_sent. rewrite bind_write. fields.
  rewrite bind_Flush. fields. reflexivity.
Qed.

(** C3 (as amended). [Ping] sends the varuint64 Ping code, the single byte
    04, flushes, then calls the packet reception exactly once and returns,
    ignoring its boolean result: nothing checks that the reply is a Pong.
    A Pong reply returns normally; so do an EndOfStream reply, any
    well-formed Data, Progress or ProfileInfo packet, an Exception packet
    when [rethrow_exceptions] is not set, and a reply that ends before a
    packet code. [Ping] ends with an error exactly when that one reception
    throws: [ServerException] for an Exception packet when
    [rethrow_exceptions] is set, [std::runtime_error("unimplemented <code>")]
    for a reply code outside 1 to 6, and otherwise only an error of the
    decoding of a Data packet, [can't load] or [unsupported column type]. *)
Theorem Ping_replies :
  WireFormat.WriteUInt64 ClientCodes.Ping = [x04]
  /\ (forall (s : Impl.t) (rest : list byte),
         Impl.input_ s = WireFormat.WriteUInt64 ServerCodes.Pong ++ rest ->
         Ping s = (Ret tt, Impl.set_input_ rest (ping_sent s)))
  /\ (forall (s : Impl.t) (rest : list byte),
         Impl.input_ s = WireFormat.WriteUInt64 ServerCodes.EndOfStream ++ rest ->
         Ping s
         = (Ret tt, deliver [OnFinish] (Impl.set_input_ rest (ping_sent s))))
  /\ (forall (s : Impl.t) (c : Z) (rest : list byte),
         is_u64 c -> ~ (1 <= c <= 6) ->
         Impl.input_ s = WireFormat.WriteUInt64 c ++ rest ->
         Ping s
         = (Throw (runtime_error ("unimplemented " ++ to_string (int_of_u64 c))),
            Impl.set_input_ rest (ping_sent s)))
  /\ (forall (s : Impl.t) (e : Exception.t) (rest : list byte),
         Exception_wf e ->
         Impl.input_ s = Wire.exception_packet e ++ rest ->
         Ping s
         = (if ClientOptions.rethrow_exceptions (Impl.options_ s)
            then Throw (ServerException e) else Ret tt,
            deliver [OnServerException e] (Impl.set_input_ rest (ping_sent s))))
  /\ (forall (s : Impl.t) (pk : packet) (rest : list byte),
         packet_ok pk ->
         Impl.input_ s = packet_wire pk ++ rest ->
         Ping s
         = (Ret tt, deliver (packet_calls pk) (Impl.set_input_ rest (ping_sent s))))
  /\ (forall (s : Impl.t),
         Impl.input_ s = [] -> Ping s = (Ret tt, ping_sent s))
  /\ (forall (s : Impl.t),
         Ping s
         = (match fst (ReceivePacket (ping_sent s)) with
            | Ret _ => Ret tt
            | Throw e => Throw e
            | OutOfFuel => OutOfFuel
            end,
            snd (ReceivePacket (ping_sent s))))
  /\ (forall (s : Impl.t), fst (Ping s) <> OutOfFuel)
  /\ (forall (s : Impl.t) (e : Error),
         fst (Ping s) = Throw e -> expected (Impl.options_ s) e).
Proof.
  split; [reflexivity|].
  split; [|split; [|split; [|split; [|split; [|split; [|split; [|split]]]]]]].
  - intros s rest Hin. rewrite Ping_run.
    erewrite bind_run by (apply ReceivePacket_Pong; exact Hin). reflexivity.
  - intros s rest Hin. rewrite Ping_run.
    erewrite bind_run by (apply ReceivePacket_EndOfStream; exact Hin).
    reflexivity.
  - intros s c rest Hc Hn Hin. rewrite Ping_run.
    erewrite bind_throw by (apply ReceivePacket_unimplemented; eassumption).
    reflexivity.
  - intros s e rest He Hin. rewrite Ping_run. unfold bind.
    rewrite (ReceivePacket_Exception (ping_sent s) e rest He Hin).
    change (Impl.options_ (ping_sent s)) with (Impl.options_ s).
    destruct (ClientOptions.rethrow_exceptions (Impl.options_ s)); reflexivity.
  - intros s pk rest Hok Hin. rewrite Ping_run.
    rewrite (bind_run _ _ _ _ _ (ReceivePacket_packet pk (ping_sent s) rest Hok Hin)).
    reflexivity.
  - intros s Hin. rewrite Ping_run.
    rewrite (bind_run _ _ _ _ _ (ReceivePacket_Eof (ping_sent s) Hin)).
    reflexivity.
  - intros s. rewrite Ping_run. unfold bind.
    destruct (ReceivePacket (ping_sent s)) as [[r|e|] s1]; reflexivity.
  - intros s. rewrite Ping_run. unfold bind.
    pose proof (total_ReceivePacket (ping_sent s)) as T.
    destruct (ReceivePacket (ping_sent s)) as [[r|e|] s1]; cbn [fst] in *;
      [discriminate|discriminate|congruence].
  - intros s e. rewrite Ping_run. unfold bind.
    pose proof (raises_ReceivePacket (ping_sent s)) as R.
    destruct (ReceivePacket (ping_sent s)) as [[r|e'|] s1]; cbn [fst] in *;
      try discriminate.
    intros H. inversion H. subst e'. exact R.
Qed.

(** C4 (as amended). During query execution [OnData] is invoked exactly
    once for every Data packet that is decoded while a sink is set, in the
    order of the packets and whether the block has rows or not: a Data
    packet whose block has zero rows triggers one call as well. Without a
    sink no call is made. *)
Theorem OnData_once_per_data_packet :
  (forall (query : Query.t) (ds : list Wire.data) (s : Impl.t) (rest : list byte),
      Forall data_ok ds ->
      Impl.input_ s
      = List.concat (map Wire.data_packet ds)
        ++ WireFormat.WriteUInt64 ServerCodes.EndOfStream ++ rest ->
      exists s',
        ExecuteQuery query s = (Ret tt, s')
        /\ Impl.sink_calls s'
           = Impl.sink_calls s
             ++ map (fun d => OnData (block_of d)) ds ++ [OnFinish])
  /\ (forall (s : Impl.t) (d : Wire.data) (rest : list byte),
         data_ok d ->
         Impl.input_ s = Wire.data_packet d ++ rest ->
         Impl.sink_calls (snd (ReceivePacket s))
         = Impl.sink_calls s
           ++ match Impl.events_ s with
              | Some _ => [OnData (block_of d)]
              | None => []
              end).
Proof.
  split.
  - intros query ds s rest Hds Hin.
    eexists. split; [apply (ExecuteQuery_stream query ds s rest Hds Hin)|].
    reflexivity.
  - intros s d rest Hd Hin.
    rewrite (ReceivePacket_Data s d rest Hd Hin).
    unfold deliver. destruct s as [o [ev|] q sock inp out si calls]; fields;
      cbn [snd]; fields; [reflexivity|now rewrite app_nil_r].
Qed.

Lemma total_ExecuteQuery (query : Query.t) : total (ExecuteQuery query).
Proof.
  intros s. destruct s as [o ev q sock inp out si calls].
  unfold ExecuteQuery, EnsureNull. fields.
  rewrite (bind_run _ _ _ _ _ (SendQuery_wire _ _)). fields.
  match goal with
  | |- context [ReceiveAll ?s1] =>
      pose proof (total_ReceiveAll s1) as H; destruct (ReceiveAll s1) as [r s2]
  end.
  exact H.
Qed.

(** C5 (as amended). A Data packet is not terminal. [ReceivePacket]
    answers [true] (continue) for a Data packet, on every path on which it
    returns, and after a decoded Data packet the receive loop of
    [ExecuteQuery] goes on with the packets that follow. The loop calls
    [ReceivePacket] until it answers [false] or throws. It answers [false]
    at an EndOfStream packet and at an Exception packet, and also when a read
    fails: a reply that stops after the Data packet and the packets that
    follow it, with no EndOfStream or Exception packet, makes [ExecuteQuery]
    return normally, without [OnFinish]. A well-formed Data, Progress,
    ProfileInfo or Pong packet never ends the loop, and the loop always
    ends. *)
Theorem Data_packet_is_not_terminal :
  (forall (s s' : Impl.t) (b : bool),
      ReceivePacket s = (Ret (b, Some ServerCodes.Data), s') -> b = true)
  /\ (forall (s : Impl.t) (d : Wire.data) (rest : list byte),
         data_ok d ->
         Impl.input_ s = Wire.data_packet d ++ rest ->
         ReceivePacket s
         = (Ret (true, Some ServerCodes.Data),
            deliver [OnData (block_of d)] (Impl.set_input_ rest s))
         /\ ReceiveAll s
            = ReceiveAll (deliver [OnData (block_of d)] (Impl.set_input_ rest s)))
  /\ (forall (query : Query.t) (d : Wire.data) (pks : list packet) (s : Impl.t)
             (rest : list byte),
         data_ok d -> Forall packet_ok pks ->
         Impl.input_ s
         = Wire.data_packet d ++ transcript pks
           ++ WireFormat.WriteUInt64 ServerCodes.EndOfStream ++ rest ->
         ExecuteQuery query s
         = (Ret tt,
            query_done query s rest
              (OnData (block_of d) :: transcript_calls pks ++ [OnFinish])))
  /\ (forall (query : Query.t) (d : Wire.data) (pks : list packet) (s : Impl.t)
             (e : Exception.t) (rest : list byte),
         data_ok d -> Forall packet_ok pks -> Exception_wf e ->
         Impl.input_ s
         = Wire.data_packet d ++ transcript pks
           ++ Wire.exception_packet e ++ rest ->
         ExecuteQuery query s
         = (if ClientOptions.rethrow_exceptions (Impl.options_ s)
            then Throw (ServerException e) else Ret tt,
            query_done query s rest
              (OnData (block_of d) :: transcript_calls pks
               ++ [OnServerException e])))
  /\ (forall (query : Query.t) (d : Wire.data) (pks : list packet) (s : Impl.t),
         data_ok d -> Forall packet_ok pks ->
         Impl.input_ s = Wire.data_packet d ++ transcript pks ->
         ExecuteQuery query s
         = (Ret tt,
            query_done query s [] (OnData (block_of d) :: transcript_calls pks)))
  /\ (forall (s : Impl.t) (pk : packet) (rest : list byte),
         packet_ok pk ->
         Impl.input_ s = packet_wire pk ++ rest ->
         ReceivePacket s
         = (Ret (true, Some (packet_code pk)),
            deliver (packet_calls pk) (Impl.set_input_ rest s)))
  /\ (forall (s s' : Impl.t) (c : option Z),
         ReceivePacket s = (Ret (false, c), s') ->
         c = None \/ c = Some ServerCodes.EndOfStream
         \/ c = Some ServerCodes.Exception
         \/ c = Some ServerCodes.Progress \/ c = Some ServerCodes.ProfileInfo)
  /\ (forall (query : Query.t) (s : Impl.t),
         fst (ExecuteQuery query s) <> OutOfFuel).
Proof.
  split; [|split; [|split; [|split; [|split; [|split; [|split]]]]]].
  - intros s s' b. unfold ReceivePacket, bind at 1, read.
    destruct (Codec.ReadVarint64 (Impl.input_ s)) as [[c|] rest];
      [|discriminate].
    unfold bind.
    destruct (dispatch c (Impl.set_input_ rest s)) as [[b'|e|] s1] eqn:E;
      try discriminate.
    intros H. inversion H; subst. clear H.
    change (dispatch ServerCodes.Data)
      with (bind ReceiveData (fun _ => ret true)) in E.
    unfold bind in E.
    destruct (ReceiveData (Impl.set_input_ rest s)) as [[x|e|] s2];
      try discriminate.
    now inversion E.
  - intros s d rest Hd Hin. split.
    + now apply ReceivePacket_Data.
    + now apply ReceiveAll_Data.
  - intros query d pks s rest Hd Hpks Hin. rewrite ExecuteQuery_run.
    rewrite (ReceiveAll_transcript (PData d :: pks)
               (Forall_cons (PData d) Hd Hpks) (query_sent query s)
               (WireFormat.WriteUInt64 ServerCodes.EndOfStream ++ rest))
      by (unfold transcript in *; cbn [map List.concat packet_wire];
          rewrite <- app_assoc; exact Hin).
    rewrite (ReceiveAll_EndOfStream _ rest)
      by (rewrite input_deliver; reflexivity).
    cbn [fst snd].
    rewrite deliver_set_input, set_input_set_input, deliver_deliver.
    reflexivity.
  - intros query d pks s e rest Hd Hpks He Hin. rewrite ExecuteQuery_run.
    rewrite (ReceiveAll_transcript (PData d :: pks)
               (Forall_cons (PData d) Hd Hpks) (query_sent query s)
               (Wire.exception_packet e ++ rest))
      by (unfold transcript in *; cbn [map List.concat packet_wire];
          rewrite <- app_assoc; exact Hin).
    rewrite (ReceiveAll_Exception _ e rest He)
      by (rewrite input_deliver; reflexivity).
    cbn [fst snd].
    rewrite deliver_set_input, set_input_set_input, deliver_deliver.
    reflexivity.
  - intros query d pks s Hd Hpks Hin. rewrite ExecuteQuery_run.
    rewrite (ReceiveAll_transcript (PData d :: pks)
               (Forall_cons (PData d) Hd Hpks) (query_sent query s) [])
      by (unfold transcript in *; cbn [map List.concat packet_wire];
          rewrite app_nil_r; exact Hin).
    rewrite ReceiveAll_Eof by (rewrite input_deliver; reflexivity).
    reflexivity.
  - intros s pk rest Hok Hin. now apply ReceivePacket_packet.
  - intros s s' c H. exact (ReceivePacket_false s s' c H).
  - intros query s. apply total_ExecuteQuery.
Qed.

Lemma ReceivePacket_Progress_cut (s : Impl.t) (p : Progress.t)
      (pre suf : list byte) :
  Progress_wf p -> Wire.progress p = pre ++ suf -> suf <> [] ->
  Impl.input_ s = WireFormat.WriteUInt64 ServerCodes.Progress ++ pre ->
  ReceivePacket s = (Ret (false, Some ServerCodes.Progress), Impl.set_input_ [] s).
Proof.
  intros Hp Hcut Hs Hin.
  rewrite (ReceivePacket_code s ServerCodes.Progress pre)
    by (try apply is_u64_small; try exact Hin; unfold ServerCodes.Progress; lia).
  change (dispatch ServerCodes.Progress)
    with (info <-! ReadProgress;; notify (OnProgress info);; ret true).
  rewrite bind_bind.
  erewrite bind_run
    by (apply (ReadProgress_cut _ p suf Hp); [symmetry; exact Hcut|exact Hs]).
  reflexivity.
Qed.

Lemma ReceivePacket_ProfileInfo_cut (s : Impl.t) (p : Profile.t)
      (pre suf : list byte) :
  Profile_wf p -> Wire.profile p = pre ++ suf -> suf <> [] ->
  Impl.input_ s = WireFormat.WriteUInt64 ServerCodes.ProfileInfo ++ pre ->
  ReceivePacket s
  = (Ret (false, Some ServerCodes.ProfileInfo), Impl.set_input_ [] s).
Proof.
  intros Hp Hcut Hs Hin.
  rewrite (ReceivePacket_code s ServerCodes.ProfileInfo pre)
    by (try apply is_u64_small; try exact Hin; unfold ServerCodes.ProfileInfo; lia).
  change (dispatch ServerCodes.ProfileInfo)
    with (profile <-! ReadProfile;; notify (OnProfile profile);; ret true).
  rewrite bind_bind.
  erewrite bind_run
    by (apply (ReadProfile_cut _ p suf Hp); [symmetry; exact Hcut|exact Hs]).
  reflexivity.
Qed.

(** A Data packet that ends inside the body of one of its columns. *)
Lemma ReceivePacket_cant_load (s : Impl.t) (table_name : string)
      (info : BlockInfo.t) (num_rows : Z)
      (entries : list (string * string * Column.t))
      (name type : string) (col : Column.t) (pre suf : list byte) (n : nat) :
  is_short table_name -> BlockInfo_wf info -> is_u64 num_rows ->
  is_u64 (Z.of_nat (List.length entries + S n)) ->
  Forall (entry_ok num_rows) entries ->
  entry_ok num_rows (name, type, col) ->
  Column.Save col = pre ++ suf -> suf <> [] ->
  Impl.input_ s
  = WireFormat.WriteUInt64 ServerCodes.Data
    ++ Wire.data_header (Some table_name) (Some info)
         (Z.of_nat (List.length entries + S n)) num_rows
    ++ Wire.columns entries ++ WireFormat.WriteString name
    ++ WireFormat.WriteString type ++ pre ->
  ReceivePacket s = (Throw (runtime_error "can't load"), Impl.set_input_ [] s).
Proof.
  intros Ht Hi Hr Hc Hes He Hsave Hs Hin.
  rewrite (ReceivePacket_code s ServerCodes.Data _
             (is_u64_small ServerCodes.Data ltac:(unfold ServerCodes.Data; lia)) Hin).
  change (dispatch ServerCodes.Data) with (bind ReceiveData (fun _ => ret true)).
  rewrite bind_bind. unfold ReceiveData. rewrite bind_bind.
  erewrite bind_throw; [reflexivity|].
  match goal with
  | |- ReadBlock ?st = _ =>
      rewrite (ReadBlock_header st table_name info
                 (Z.of_nat (List.length entries + S n)) num_rows
                 (Wire.columns entries ++ WireFormat.WriteString name
                  ++ WireFormat.WriteString type ++ pre) Ht Hi Hc Hr)
        by reflexivity
  end.
  rewrite Nat2Z.id.
  match goal with
  | |- ReadColumns _ _ ?blk ?st = _ =>
      rewrite (ReadColumns_cant_load num_rows entries name type col pre suf
                 Hes He Hsave Hs n blk st) by reflexivity
  end.
  reflexivity.
Qed.

(** C6 (as amended). A Progress or ProfileInfo packet that ends inside its
    body makes [ReceivePacket] return [false], the same answer as for a
    terminal packet: the receive loop ends, no callback is made and
    [ExecuteQuery] returns normally, without an error. It is a Data packet
    that ends inside the body of a column, with [num_rows > 0], that raises
    an error, [std::runtime_error("can't load")], which leaves
    [ExecuteQuery] as a throw. *)
Theorem truncated_packets :
  (forall (query : Query.t) (s : Impl.t) (p : Progress.t) (pre suf : list byte),
      Progress_wf p -> Wire.progress p = pre ++ suf -> suf <> [] ->
      Impl.input_ s = WireFormat.WriteUInt64 ServerCodes.Progress ++ pre ->
      ExecuteQuery query s
      = (Ret tt,
         Impl.set_events_ None (Impl.set_input_ [] (query_sent query s))))
  /\ (forall (query : Query.t) (s : Impl.t) (p : Profile.t) (pre suf : list byte),
         Profile_wf p -> Wire.profile p = pre ++ suf -> suf <> [] ->
         Impl.input_ s = WireFormat.WriteUInt64 ServerCodes.ProfileInfo ++ pre ->
         ExecuteQuery query s
         = (Ret tt,
            Impl.set_events_ None (Impl.set_input_ [] (query_sent query s))))
  /\ (forall (query : Query.t) (s : Impl.t) (table_name : string)
             (info : BlockInfo.t) (num_rows : Z)
             (entries : list (string * string * Column.t))
             (name type : string) (col : Column.t) (pre suf : list byte)
             (n : nat),
         is_short table_name -> BlockInfo_wf info -> is_u64 num_rows ->
         is_u64 (Z.of_nat (List.length entries + S n)) ->
         Forall (entry_ok num_rows) entries ->
         entry_ok num_rows (name, type, col) ->
         Column.Save col = pre ++ suf -> suf <> [] ->
         Impl.input_ s
         = WireFormat.WriteUInt64 ServerCodes.Data
           ++ Wire.data_header (Some table_name) (Some info)
                (Z.of_nat (List.length entries + S n)) num_rows
           ++ Wire.columns entries ++ WireFormat.WriteString name
           ++ WireFormat.WriteString type ++ pre ->
         ExecuteQuery query s
         = (Throw (runtime_error "can't load"),
            Impl.set_events_ None (Impl.set_input_ [] (query_sent query s)))).
Proof.
  split; [|split].
  - intros query s p pre suf Hp Hcut Hs Hin.
    rewrite ExecuteQuery_run, ReceiveAll_unfold.
    rewrite (bind_run _ _ _ _ _
               (ReceivePacket_Progress_cut (query_sent query s) p pre suf
                  Hp Hcut Hs Hin)).
    reflexivity.
  - intros query s p pre suf Hp Hcut Hs Hin.
    rewrite ExecuteQuery_run, ReceiveAll_unfold.
    rewrite (bind_run _ _ _ _ _
               (ReceivePacket_ProfileInfo_cut (query_sent query s) p pre suf
                  Hp Hcut Hs Hin)).
    reflexivity.
  - intros query s table_name info num_rows entries name type col pre suf n
           Ht Hi Hr Hc Hes He Hsave Hs Hin.
    rewrite ExecuteQuery_run, ReceiveAll_unfold.
    rewrite (bind_throw _ _ _ _ _
               (ReceivePacket_cant_load (query_sent query s) table_name info
                  num_rows entries name type col pre suf n
                  Ht Hi Hr Hc Hes He Hsave Hs Hin)).
    reflexivity.
Qed.

Lemma ReceivePacket_unsupported (s : Impl.t) (table_name : string)
      (info : BlockInfo.t) (num_rows : Z)
      (entries : list (string * string * Column.t))
      (name type : string) (n : nat) (rest : list byte) :
  is_short table_name -> BlockInfo_wf info -> is_u64 num_rows ->
  is_u64 (Z.of_nat (List.length entries + S n)) ->
  Forall (entry_ok num_rows) entries ->
  is_short name -> is_short type ->
  Column.CreateColumnByType type = None ->
  Impl.input_ s
  = WireFormat.WriteUInt64 ServerCodes.Data
    ++ Wire.data_header (Some table_name) (Some info)
         (Z.of_nat (List.length entries + S n)) num_rows
    ++ Wire.columns entries ++ WireFormat.WriteString name
    ++ WireFormat.WriteString type ++ rest ->
  ReceivePacket s
  = (Throw (runtime_error ("unsupported column type: " ++ type)),
     Impl.set_input_ rest s).
Proof.
  intros Ht Hi Hr Hc Hes Hname Htype Hnone Hin.
  rewrite (ReceivePacket_code s ServerCodes.Data _
             (is_u64_small ServerCodes.Data ltac:(unfold ServerCodes.Data; lia))
             Hin).
  change (dispatch ServerCodes.Data) with (bind ReceiveData (fun _ => ret true)).
  rewrite bind_bind. unfold ReceiveData. rewrite bind_bind.
  erewrite bind_throw; [reflexivity|].
  match goal with
  | |- ReadBlock ?st = _ =>
      rewrite (ReadBlock_header st table_name info
                 (Z.of_nat (List.length entries + S n)) num_rows
                 (Wire.columns entries ++ WireFormat.WriteString name
                  ++ WireFormat.WriteString type ++ rest) Ht Hi Hc Hr)
        by reflexivity
  end.
  rewrite Nat2Z.id.
  match goal with
  | |- ReadColumns _ _ ?blk ?st = _ =>
      rewrite (ReadColumns_unsupported num_rows entries name type
                 Hes Hname Htype Hnone n blk st rest) by reflexivity
  end.
  reflexivity.
Qed.

(** C7. When a Data packet names a column whose type descriptor is outside
    the registry, the data packet handler throws
    [std::runtime_error("unsupported column type: <descriptor>")], the
    client's only form of protocol error; the throw leaves [ExecuteQuery],
    no block is handed to the sink and the rest of the stream is not read.
    Columns with recognised descriptors are decoded and appended to the
    block in the order of the wire. *)
Theorem unsupported_column_type_aborts :
  (forall (query : Query.t) (s : Impl.t) (table_name : string)
          (info : BlockInfo.t) (num_rows : Z)
          (entries : list (string * string * Column.t))
          (name type : string) (n : nat) (rest : list byte),
      is_short table_name -> BlockInfo_wf info -> is_u64 num_rows ->
      is_u64 (Z.of_nat (List.length entries + S n)) ->
      Forall (entry_ok num_rows) entries ->
      is_short name -> is_short type ->
      Column.CreateColumnByType type = None ->
      Impl.input_ s
      = WireFormat.WriteUInt64 ServerCodes.Data
        ++ Wire.data_header (Some table_name) (Some info)
             (Z.of_nat (List.length entries + S n)) num_rows
        ++ Wire.columns entries ++ WireFormat.WriteString name
        ++ WireFormat.WriteString type ++ rest ->
      ExecuteQuery query s
      = (Throw (runtime_error ("unsupported column type: " ++ type)),
         Impl.set_events_ None (Impl.set_input_ rest (query_sent query s))))
  /\ (forall (s : Impl.t) (d : Wire.data) (rest : list byte),
         data_ok d ->
         Impl.input_ s = Wire.data_body d ++ rest ->
         exists block,
           ReadBlock s = (Ret (Some block), Impl.set_input_ rest s)
           /\ Block.columns block
              = map (fun e => (fst (fst e), snd e)) (Wire.entries d)
           /\ Block.rows block = Wire.num_rows d).
Proof.
  split.
  - intros query s table_name info num_rows entries name type n rest
           Ht Hi Hr Hc Hes Hname Htype Hnone Hin.
    rewrite ExecuteQuery_run, ReceiveAll_unfold.
    rewrite (bind_throw _ _ _ _ _
               (ReceivePacket_unsupported (query_sent query s) table_name info
                  num_rows entries name type n rest
                  Ht Hi Hr Hc Hes Hname Htype Hnone Hin)).
    reflexivity.
  - intros s d rest Hd Hin. exists (block_of d).
    split; [now apply ReadBlock_wire|]. split; reflexivity.
Qed.

(** C8. [SendQuery] emits, in this order: the Query code; the query id as a
    decimal string; the ClientInfo block if and only if
    [server.revision >= 54032], with the quota key appended if and only if
    [server.revision >= 54060]; an empty settings string; the stage 2
    (Complete); the compression 0 (Disable); the query text; an empty block
    as a Data packet; and everything is flushed to the socket. *)
Theorem SendQuery_layout (query : string) (s : Impl.t) :
  let revision := ServerInfo.revision (Impl.server_info_ s) in
  SendQuery query s
  = (Ret tt,
     Impl.set_output_
       (Impl.socket_ s ++ Impl.output_ s
        ++ WireFormat.WriteUInt64 ClientCodes.Query
        ++ WireFormat.WriteString (to_string (Impl.query_id_ s))
        ++ (if 54032 <=? revision
            then Wire.client_info
                 ++ (if 54060 <=? revision then WireFormat.WriteString "" else [])
            else [])
        ++ WireFormat.WriteString ""
        ++ WireFormat.WriteUInt64 2
        ++ WireFormat.WriteUInt64 0
        ++ WireFormat.WriteString query
        ++ (WireFormat.WriteUInt64 ClientCodes.Data
            ++ Wire.data_header
                 (if 50264 <=? revision then Some "" else None)
                 (if 51903 <=? revision then Some BlockInfo_init else None)
                 0 0))
       [] s).
Proof.
  intros revision. rewrite SendQuery_wire. unfold Wire.query, Wire.client_data.
  fold revision.
  change (Wire.columns (Wire.entries_of (Block.columns Block_empty)))
    with (@nil byte).
  rewrite app_nil_r. reflexivity.
Qed.

(** The bytes of the ClientInfo block. *)
Example client_info_bytes :
  Wire.client_info
  = [x01; x00; x00; x14] ++ bytes_of_string "[::ffff:127.0.0.1]:0"
    ++ [x01; x00; x00; x11] ++ bytes_of_string "ClickHouse client"
    ++ [x01; x01; xee; xa6; x03].
Proof. vm_compute. reflexivity. Qed.

Lemma Impl_new_Exception (opts : ClientOptions.t) (counter : Z)
      (e : Exception.t) (rest : list byte) :
  Exception_wf e ->
  Impl_new opts counter (Some (Wire.exception_packet e ++ rest))
  = (Throw (ServerException e), u64 (counter + 1)).
Proof.
  intros He. unfold Impl_new, GenerateQueryId, Handshake.
  rewrite (bind_run _ _ _ _ _ (SendHello_wire _)).
  cbn [negb]. cbv iota. fields.
  erewrite bind_throw
    by (apply (ReceiveHello_Exception _ e rest He); reflexivity).
  reflexivity.
Qed.

(** C9. An Exception packet is decoded as a chain of frames
    [{i32 code, string name, string display_text, string stack_trace,
    u8 has_nested}], the last one having [has_nested = 0]. The chain is
    handed to the sink through [OnServerException] whenever a sink is set;
    a [ServerException] carrying the chain is thrown if and only if the
    caller asks for it or [rethrow_exceptions] is set; a received Exception
    packet is terminal; and during handshake an Exception reply always makes
    the constructor throw the [ServerException]. *)
Theorem server_exception_delivery :
  (forall (e : Exception.t),
      Wire.chain e
      = WireFormat.WriteFixed32 (Exception.code e)
        ++ WireFormat.WriteString (Exception.name e)
        ++ WireFormat.WriteString (Exception.display_text e)
        ++ WireFormat.WriteString (Exception.stack_trace e)
        ++ match Exception.nested e with
           | Some e' => WireFormat.WriteFixed8 1 ++ Wire.chain e'
           | None => WireFormat.WriteFixed8 0
           end)
  /\ (forall (rethrow : bool) (e : Exception.t) (s : Impl.t) (rest : list byte),
         Exception_wf e ->
         Impl.input_ s = Wire.chain e ++ rest ->
         ReceiveException rethrow s
         = (if rethrow || ClientOptions.rethrow_exceptions (Impl.options_ s)
            then Throw (ServerException e) else Ret true,
            deliver [OnServerException e] (Impl.set_input_ rest s)))
  /\ (forall (e : Exception.t) (s : Impl.t) (rest : list byte),
         Exception_wf e ->
         Impl.input_ s = Wire.exception_packet e ++ rest ->
         ReceivePacket s
         = (if ClientOptions.rethrow_exceptions (Impl.options_ s)
            then Throw (ServerException e)
            else Ret (false, Some ServerCodes.Exception),
            deliver [OnServerException e] (Impl.set_input_ rest s)))
  /\ (forall (opts : ClientOptions.t) (counter : Z) (e : Exception.t)
             (rest : list byte),
         Exception_wf e ->
         Impl_new opts counter (Some (Wire.exception_packet e ++ rest))
         = (Throw (ServerException e), u64 (counter + 1))).
Proof.
  split; [|split; [|split]].
  - intros [c nm d st [e'|]]; reflexivity.
  - intros. now apply ReceiveException_wire.
  - intros. now apply ReceivePacket_Exception.
  - intros. now apply Impl_new_Exception.
Qed.

(** ** The insert dialog *)

Lemma AwaitData_stream (ps : list Progress.t) (d : Wire.data) :
  Forall Progress_wf ps -> data_ok d ->
  forall (fuel : nat) (server_packet : Z) (s : Impl.t) (rest : list byte),
    (List.length ps < fuel)%nat ->
    Impl.input_ s
    = List.concat (map Wire.progress_packet ps) ++ Wire.data_packet d ++ rest ->
    AwaitData fuel server_packet s
    = (Ret tt,
       deliver (map OnProgress ps ++ [OnData (block_of d)])
               (Impl.set_input_ rest s)).
Proof.
  intros Hps Hd.
  induction Hps as [|p ps Hp Hps IH]; intros fuel server_packet s rest Hf Hin.
  - destruct fuel as [|fuel]; [simpl in Hf; lia|].
    cbn [map List.concat app] in *. cbn [AwaitData].
    rewrite (bind_run _ _ _ _ _ (ReceivePacket_Data s d rest Hd Hin)).
    reflexivity.
  - destruct fuel as [|fuel]; [simpl in Hf; lia|].
    cbn [map List.concat] in Hin. rewrite <- app_assoc in Hin.
    cbn [AwaitData].
    rewrite (bind_run _ _ _ _ _ (ReceivePacket_Progress s p _ Hp Hin)).
    cbn [snd]. change (ServerCodes.Progress =? ServerCodes.Data) with false.
    cbv iota.
    rewrite (IH fuel _ _ rest) by (simpl in Hf; try lia; rewrite input_deliver; reflexivity).
    rewrite deliver_set_input, set_input_set_input, deliver_deliver.
    reflexivity.
Qed.

(** The insert dialog on a server that answers the query with progress
    packets and the schema block, and the data with EndOfStream. *)
Lemma Insert_run (fuel : nat) (server_packet : Z) (table_name : string)
      (block : Block.t)
      (ps : list Progress.t) (d : Wire.data) (s : Impl.t) (rest : list byte) :
  Impl.events_ s = None ->
  Forall Progress_wf ps -> data_ok d ->
  (List.length ps < fuel)%nat ->
  Impl.input_ s
  = List.concat (map Wire.progress_packet ps) ++ Wire.data_packet d
    ++ WireFormat.WriteUInt64 ServerCodes.EndOfStream ++ rest ->
  let revision := ServerInfo.revision (Impl.server_info_ s) in
  Insert fuel server_packet table_name block s
  = (Ret tt,
     Impl.make (Impl.options_ s) None (Impl.query_id_ s)
       (Impl.socket_ s ++ Impl.output_ s
        ++ Wire.query revision (to_string (Impl.query_id_ s))
                      ("INSERT INTO " ++ table_name ++ " VALUES") Block_empty
        ++ Wire.client_data revision block
        ++ Wire.client_data revision Block_empty)
       rest [] (Impl.server_info_ s) (Impl.sink_calls s)).
Proof.
  intros Hev Hps Hd Hf Hin revision. unfold revision.
  destruct s as [o ev q sock inp out si calls]. fields. subst ev inp.
  unfold Insert.
  rewrite (bind_run _ _ _ _ _ (SendQuery_wire _ _)). fields.
  erewrite bind_run
    by (apply (AwaitData_stream ps d Hps Hd fuel server_packet _
                 (WireFormat.WriteUInt64 ServerCodes.EndOfStream ++ rest) Hf);
        reflexivity).
  unfold deliver. fields.
  rewrite (bind_run _ _ _ _ _ (SendData_wire _ _)). fields.
  rewrite (bind_run _ _ _ _ _ (SendData_wire _ _)).
  fields.
  rewrite (ReceiveAll_stream [] (Forall_nil _) _ rest) by reflexivity.
  unfold deliver. fields. cbn [app].
  rewrite ?app_nil_r. rewrite <- ?app_assoc. reflexivity.
Qed.

(** C10. [Insert] installs no sink. A session has no sink set when it is
    constructed, and none after [ExecuteQuery] has returned or thrown; with
    no sink set, no callback is made during [Insert], whatever packets the
    server sends while the schema is awaited and while EndOfStream is
    awaited, and however the call ends. *)
Theorem Insert_calls_no_sink :
  (forall (fuel : nat) (server_packet : Z) (table_name : string)
          (block : Block.t) (s : Impl.t),
      Impl.events_ s = None ->
      let s' := snd (Insert fuel server_packet table_name block s) in
      Impl.sink_calls s' = Impl.sink_calls s /\ Impl.events_ s' = None)
  /\ (forall (opts : ClientOptions.t) (counter counter' : Z)
             (server : option (list byte)) (s : Impl.t),
         Impl_new opts counter server = (Ret s, counter') ->
         Impl.events_ s = None)
  /\ (forall (query : Query.t) (s : Impl.t),
         Impl.events_ (snd (ExecuteQuery query s)) = None)
  /\ (forall (s : Impl.t), Impl.events_ (snd (Ping s)) = Impl.events_ s).
Proof.
  split; [|split; [|split]].
  - intros fuel server_packet table_name block s Hev s'.
    destruct (keeps_Insert fuel server_packet table_name block s)
      as (_ & He & _ & _ & Hc).
    fold s' in He, Hc. split; [auto|congruence].
  - intros opts counter counter' server s H.
    apply Impl_new_state in H. tauto.
  - intros query s.
    pose proof (ExecuteQuery_frame query s) as H. cbv zeta in H. tauto.
  - intros s. destruct (keeps_Ping s) as (_ & He & _). exact He.
Qed.

(** * Further properties of the session *)

(** ** Replies of mixed packets *)

(** X1. The callbacks of a query follow the transcript: on a stream of
    Data, Progress, ProfileInfo and Pong packets closed by EndOfStream,
    [ExecuteQuery] returns normally having made, in the order of the
    packets, one [OnData], [OnProgress] or [OnProfile] call per packet (none
    for a Pong), then [OnFinish]; it reads up to the end of the EndOfStream
    packet and no further. *)
Theorem ExecuteQuery_callbacks_follow_transcript
        (query : Query.t) (pks : list packet) (s : Impl.t) (rest : list byte) :
  Forall packet_ok pks ->
  Impl.input_ s
  = transcript pks ++ WireFormat.WriteUInt64 ServerCodes.EndOfStream ++ rest ->
  ExecuteQuery query s
  = (Ret tt, query_done query s rest (transcript_calls pks ++ [OnFinish])).
Proof.
  intros Hok Hin. rewrite ExecuteQuery_run.
  rewrite (ReceiveAll_transcript pks Hok (query_sent query s) _ Hin).
  rewrite (ReceiveAll_EndOfStream _ rest) by (rewrite input_deliver; reflexivity).
  cbn [fst snd].
  rewrite deliver_set_input, set_input_set_input, deliver_deliver.
  reflexivity.
Qed.

(** X2. A stream that just stops is taken for the end of the query: when
    the input is exhausted at a packet boundary, without EndOfStream,
    [ExecuteQuery] returns normally, with the callbacks of the packets
    received and without [OnFinish]; no error reports the lost
    connection. *)
Theorem ExecuteQuery_stream_without_EndOfStream
        (query : Query.t) (pks : list packet) (s : Impl.t) :
  Forall packet_ok pks ->
  Impl.input_ s = transcript pks ->
  ExecuteQuery query s = (Ret tt, query_done query s [] (transcript_calls pks)).
Proof.
  intros Hok Hin. rewrite ExecuteQuery_run.
  rewrite (ReceiveAll_transcript pks Hok (query_sent query s) [])
    by (rewrite app_nil_r; exact Hin).
  rewrite ReceiveAll_Eof by (rewrite input_deliver; reflexivity).
  reflexivity.
Qed.

(** The value of [(int) packet_type] only depends on the low 32 bits. *)
Lemma int_of_u64_wraps (c : Z) : int_of_u64 (c + 2 ^ 32) = int_of_u64 c.
Proof.
  unfold int_of_u64.
  replace (c + 2 ^ 32 + 2 ^ 31) with (c + 2 ^ 31 + 1 * 2 ^ 32) by lia.
  now rewrite Z.mod_add by lia.
Qed.

(** X3. A packet code that the reception does not know (0, or 7 and above)
    aborts the query with [std::runtime_error("unimplemented <n>")], after
    the callbacks of the packets before it; the sink is cleared and the
    bytes after the code are left unread. The number in the message is the
    code cast to [int]: codes that differ by a multiple of 2^32 give the
    same message. *)
Theorem ExecuteQuery_unknown_packet_code
        (query : Query.t) (pks : list packet) (s : Impl.t) (c : Z)
        (rest : list byte) :
  Forall packet_ok pks ->
  is_u64 c -> ~ (1 <= c <= 6) ->
  Impl.input_ s = transcript pks ++ WireFormat.WriteUInt64 c ++ rest ->
  ExecuteQuery query s
  = (Throw (runtime_error ("unimplemented " ++ to_string (int_of_u64 c))),
     query_done query s rest (transcript_calls pks))
  /\ int_of_u64 (c + 2 ^ 32) = int_of_u64 c.
Proof.
  intros Hok Hc Hn Hin. split; [|apply int_of_u64_wraps].
  rewrite ExecuteQuery_run.
  rewrite (ReceiveAll_transcript pks Hok (query_sent query s) _ Hin).
  rewrite (ReceiveAll_unimplemented _ c rest Hc Hn)
    by (rewrite input_deliver; reflexivity).
  cbn [fst snd]. rewrite deliver_set_input, set_input_set_input.
  reflexivity.
Qed.

(** X4. A server exception ends the query. After the callbacks of the
    packets before it, the chain is handed to [OnServerException]; without
    [rethrow_exceptions] the call returns normally, with it the call throws
    the [ServerException]; either way the sink is cleared, [OnFinish] is not
    called and the bytes after the exception packet are left unread. *)
Theorem ExecuteQuery_server_exception
        (query : Query.t) (pks : list packet) (s : Impl.t) (e : Exception.t)
        (rest : list byte) :
  Forall packet_ok pks -> Exception_wf e ->
  Impl.input_ s = transcript pks ++ Wire.exception_packet e ++ rest ->
  ExecuteQuery query s
  = (if ClientOptions.rethrow_exceptions (Impl.options_ s)
     then Throw (ServerException e) else Ret tt,
     query_done query s rest (transcript_calls pks ++ [OnServerException e])).
Proof.
  intros Hok He Hin. rewrite ExecuteQuery_run.
  rewrite (ReceiveAll_transcript pks Hok (query_sent query s) _ Hin).
  rewrite (ReceiveAll_Exception _ e rest He)
    by (rewrite input_deliver; reflexivity).
  cbn [fst snd].
  rewrite deliver_set_input, set_input_set_input, deliver_deliver.
  destruct s as [o ev q sock inp out si calls]; reflexivity.
Qed.

(** ** Construction of a session *)

Lemma ReceiveHello_below_gate (s : Impl.t) (name : string)
      (version_major version_minor revision : Z) (rest : list byte) :
  is_short name -> is_u64 version_major -> is_u64 version_minor ->
  is_u64 revision -> revision < 54058 ->
  Impl.input_ s = Wire.hello name version_major version_minor revision ++ rest ->
  ReceiveHello s
  = (Ret true,
     Impl.set_server_info_
       (ServerInfo.make name (ServerInfo.timezone (Impl.server_info_ s))
                        version_major version_minor revision)
       (Impl.set_input_ rest s)).
Proof.
  intros Hn Hmaj Hmin Hrev Hlt Hin.
  destruct s as [o ev q sock inp out si calls]. fields. subst inp.
  unfold ReceiveHello, Wire.hello, ServerCodes.Hello.
  rewrite <- !app_assoc.
  erewrite bind_read
    by (fields; apply ReadVarint64_Write; unfold is_u64; simpl; lia).
  cbv beta iota. fields.
  change (0 =? 0) with true. cbv iota.
  read_step. rewrite bind_set_server_info. fields.
  read_step. rewrite bind_set_server_info. fields.
  read_step. rewrite bind_set_server_info. fields.
  read_step. rewrite bind_set_server_info. fields.
  rewrite bind_get. fields.
  rewrite Z.geb_leb. unfold DBMS_MIN_REVISION_WITH_SERVER_TIMEZONE.
  replace (54058 <=? revision) with false
    by (symmetry; apply Z.leb_gt; exact Hlt).
  reflexivity.
Qed.

Lemma Impl_new_handshake (opts : ClientOptions.t) (counter : Z)
      (transcript : list byte) (r : Outcome bool) (s1 : Impl.t) :
  ReceiveHello
    (Impl.make opts None (u64 (counter + 1)) (Wire.client_hello opts)
               transcript [] ServerInfo_init [])
  = (r, s1) ->
  Impl_new opts counter (Some transcript)
  = (match r with
     | Ret true => Ret s1
     | Ret false =>
         Throw (runtime_error ("fail to connect to " ++ ClientOptions.host opts))
     | Throw e => Throw e
     | OutOfFuel => OutOfFuel
     end, u64 (counter + 1)).
Proof.
  intros H. unfold Impl_new, GenerateQueryId, Handshake.
  rewrite (bind_run _ _ _ _ _ (SendHello_wire _)).
  cbn [negb]. cbv iota. fields. cbn [app].
  unfold bind. rewrite H.
  destruct r as [[|]| |]; reflexivity.
Qed.

(** X5. Opening a session. The constructor draws the query id, sends the
    client Hello and reads the server Hello: the session it returns holds
    the server's name, versions and revision, and the server's timezone when
    the revision is at least 54058; below that gate nothing more is read and
    the bytes that follow stay on the stream. The Hello sent is the only
    thing written, no sink is set and no callback has been made. *)
Theorem Impl_new_server_hello :
  (forall (opts : ClientOptions.t) (counter : Z) (name : string)
          (version_major version_minor revision : Z) (tz : string)
          (rest : list byte),
      is_short name -> is_u64 version_major -> is_u64 version_minor ->
      is_u64 revision -> is_short tz -> 54058 <= revision ->
      Impl_new opts counter
        (Some (Wire.hello name version_major version_minor revision
               ++ WireFormat.WriteString tz ++ rest))
      = (Ret (Impl.make opts None (u64 (counter + 1)) (Wire.client_hello opts)
                rest []
                (ServerInfo.make name tz version_major version_minor revision)
                []),
         u64 (counter + 1)))
  /\ (forall (opts : ClientOptions.t) (counter : Z) (name : string)
             (version_major version_minor revision : Z) (rest : list byte),
         is_short name -> is_u64 version_major -> is_u64 version_minor ->
         is_u64 revision -> revision < 54058 ->
         Impl_new opts counter
           (Some (Wire.hello name version_major version_minor revision ++ rest))
         = (Ret (Impl.make opts None (u64 (counter + 1))
                   (Wire.client_hello opts) rest []
                   (ServerInfo.make name (ServerInfo.timezone ServerInfo_init)
                                    version_major version_minor revision)
                   []),
            u64 (counter + 1))).
Proof.
  split.
  - intros opts counter name version_major version_minor revision tz rest
           Hn Hmaj Hmin Hrev Htz Hge.
    erewrite Impl_new_handshake
      by (apply (ReceiveHello_wire _ name version_major version_minor revision
                   tz rest Hn Hmaj Hmin Hrev Htz); reflexivity).
    replace (54058 <=? revision) with true
      by (symmetry; apply Z.leb_le; exact Hge).
    reflexivity.
  - intros opts counter name version_major version_minor revision rest
           Hn Hmaj Hmin Hrev Hlt.
    erewrite Impl_new_handshake
      by (apply (ReceiveHello_below_gate _ name version_major version_minor
                   revision rest Hn Hmaj Hmin Hrev Hlt); reflexivity).
    reflexivity.
Qed.

Lemma ReceiveHello_unexpected (s : Impl.t) (c : Z) (rest : list byte) :
  is_u64 c -> c <> ServerCodes.Hello -> c <> ServerCodes.Exception ->
  Impl.input_ s = WireFormat.WriteUInt64 c ++ rest ->
  ReceiveHello s = (Ret false, Impl.set_input_ rest s).
Proof.
  intros Hc H0 H2 Hin. unfold ReceiveHello.
  erewrite bind_read by (rewrite Hin; apply ReadVarint64_Write; exact Hc).
  cbv beta iota.
  destruct (Z.eqb_spec c ServerCodes.Hello); [contradiction|].
  destruct (Z.eqb_spec c ServerCodes.Exception); [contradiction|].
  reflexivity.
Qed.

Lemma Impl_new_counter (opts : ClientOptions.t) (counter : Z)
      (server : option (list byte)) :
  snd (Impl_new opts counter server) = u64 (counter + 1).
Proof.
  unfold Impl_new, GenerateQueryId.
  destruct server as [transcript|]; [|reflexivity].
  destruct (Handshake _) as [[[|]|e|] s1]; reflexivity.
Qed.

(** X6. Failure to open a session. A connection that could not be made
    throws [std::system_error]. A server that closes the connection without
    a reply, or whose first packet is neither Hello nor Exception, makes the
    constructor throw [std::runtime_error("fail to connect to <host>")].
    The constructor never loops, and the process-global counter has been
    incremented whether it succeeds or not. *)
Theorem Impl_new_failures :
  (forall (opts : ClientOptions.t) (counter : Z),
      Impl_new opts counter None = (Throw system_error, u64 (counter + 1)))
  /\ (forall (opts : ClientOptions.t) (counter : Z),
         Impl_new opts counter (Some [])
         = (Throw (runtime_error ("fail to connect to " ++ ClientOptions.host opts)),
            u64 (counter + 1)))
  /\ (forall (opts : ClientOptions.t) (counter c : Z) (rest : list byte),
         is_u64 c -> c <> ServerCodes.Hello -> c <> ServerCodes.Exception ->
         Impl_new opts counter (Some (WireFormat.WriteUInt64 c ++ rest))
         = (Throw (runtime_error ("fail to connect to " ++ ClientOptions.host opts)),
            u64 (counter + 1)))
  /\ (forall (opts : ClientOptions.t) (counter : Z) (server : option (list byte)),
         fst (Impl_new opts counter server) <> OutOfFuel
         /\ snd (Impl_new opts counter server) = u64 (counter + 1)).
Proof.
  split; [|split; [|split]].
  - reflexivity.
  - intros opts counter.
    erewrite Impl_new_handshake by reflexivity. reflexivity.
  - intros opts counter c rest Hc H0 H2.
    erewrite Impl_new_handshake
      by (apply (ReceiveHello_unexpected _ c rest Hc H0 H2); reflexivity).
    reflexivity.
  - intros opts counter server. split; [|apply Impl_new_counter].
    unfold Impl_new, GenerateQueryId.
    destruct server as [transcript|]; [|discriminate].
    match goal with
    | |- context [Handshake ?s0] =>
        pose proof (total_Handshake s0) as Ht;
        destruct (Handshake s0) as [[[|]|e|] s1]
    end; simpl in *; congruence.
Qed.

(** ** Replies that end too early *)

Lemma bind_read_cut_fst {A B} (r : Codec.reader A) (v : A) (enc more : list byte)
      (k : option A -> M B) (s : Impl.t) (suf : list byte) (res : Outcome B) :
  (forall rest, r (enc ++ rest) = (Some v, rest)) ->
  cut_short r enc ->
  Impl.input_ s ++ suf = enc ++ more -> suf <> [] ->
  (forall p', more = p' ++ suf -> fst (k (Some v) (Impl.set_input_ p' s)) = res) ->
  fst (k None (Impl.set_input_ [] s)) = res ->
  fst (bind (read r) k s) = res.
Proof.
  intros Hok Hcut Hin Hs Hsome Hnone.
  apply app_split in Hin. destruct Hin as [(a2 & Hn & Ha)|(p' & Hp & Hm)].
  - erewrite bind_read by (apply (Hcut _ a2 Ha Hn)). exact Hnone.
  - erewrite bind_read by (rewrite Hp; apply Hok). now apply Hsome.
Qed.

(** A server Hello that ends before its last field. *)
Lemma ReceiveHello_cut (s : Impl.t) (name : string)
      (version_major version_minor revision : Z) (tz : string) (suf : list byte) :
  is_short name -> is_u64 version_major -> is_u64 version_minor ->
  is_u64 revision -> is_short tz ->
  Impl.input_ s ++ suf
  = Wire.hello name version_major version_minor revision
    ++ (if 54058 <=? revision then WireFormat.WriteString tz else []) ->
  suf <> [] ->
  fst (ReceiveHello s) = Ret false.
Proof.
  intros Hn Hmaj Hmin Hrev Htz Hin Hs.
  unfold Wire.hello in Hin. rewrite <- !app_assoc in Hin.
  unfold ReceiveHello.
  eapply (bind_read_cut_fst Codec.ReadVarint64 ServerCodes.Hello
            (WireFormat.WriteUInt64 ServerCodes.Hello));
    [ intros; apply ReadVarint64_Write; apply is_u64_small;
      unfold ServerCodes.Hello; lia
    | apply cut_short_ReadUInt64 | exact Hin | exact Hs | | reflexivity ].
  intros p1 E1. change (ServerCodes.Hello =? ServerCodes.Hello) with true.
  cbv iota.
  eapply (bind_read_cut_fst WireFormat.ReadString name
            (WireFormat.WriteString name));
    [ intros; apply ReadString_Write; exact Hn
    | apply cut_short_ReadString; exact Hn | exact (eq_sym E1) | exact Hs
    | | reflexivity ].
  intros p2 E2. rewrite bind_set_server_info.
  eapply (bind_read_cut_fst WireFormat.ReadUInt64 version_major
            (WireFormat.WriteUInt64 version_major));
    [ intros; apply ReadUInt64_Write; exact Hmaj
    | apply cut_short_ReadUInt64 | exact (eq_sym E2) | exact Hs
    | | reflexivity ].
  intros p3 E3. rewrite bind_set_server_info.
  eapply (bind_read_cut_fst WireFormat.ReadUInt64 version_minor
            (WireFormat.WriteUInt64 version_minor));
    [ intros; apply ReadUInt64_Write; exact Hmin
    | apply cut_short_ReadUInt64 | exact (eq_sym E3) | exact Hs
    | | reflexivity ].
  intros p4 E4. rewrite bind_set_server_info.
  eapply (bind_read_cut_fst WireFormat.ReadUInt64 revision
            (WireFormat.WriteUInt64 revision));
    [ intros; apply ReadUInt64_Write; exact Hrev
    | apply cut_short_ReadUInt64 | exact (eq_sym E4) | exact Hs
    | | reflexivity ].
  intros p5 E5. rewrite bind_set_server_info, bind_get.
  cbn [Impl.server_info_ Impl.set_server_info_ ServerInfo.revision].
  rewrite Z.geb_leb. unfold DBMS_MIN_REVISION_WITH_SERVER_TIMEZONE.
  destruct (54058 <=? revision).
  - eapply (bind_read_cut_fst WireFormat.ReadString tz
              (WireFormat.WriteString tz) []);
      [ intros; apply ReadString_Write; exact Htz
      | apply cut_short_ReadString; exact Htz
      | cbn [Impl.input_ Impl.set_input_ Impl.set_server_info_];
        rewrite <- E5; symmetry; apply app_nil_r
      | exact Hs
      | intros ? ?; exfalso; eapply no_proper_prefix_of_nil; eassumption
      | reflexivity ].
  - exfalso. eapply no_proper_prefix_of_nil; eassumption.
Qed.

(** X7. A server Hello that is cut short, anywhere inside its body, makes
    the constructor throw [std::runtime_error("fail to connect to <host>")]:
    every failed read of the handshake is reported as this one error. *)
Theorem Impl_new_truncated_hello
        (opts : ClientOptions.t) (counter : Z) (name : string)
        (version_major version_minor revision : Z) (tz : string)
        (pre suf : list byte) :
  is_short name -> is_u64 version_major -> is_u64 version_minor ->
  is_u64 revision -> is_short tz ->
  pre ++ suf
  = Wire.hello name version_major version_minor revision
    ++ (if 54058 <=? revision then WireFormat.WriteString tz else []) ->
  suf <> [] ->
  Impl_new opts counter (Some pre)
  = (Throw (runtime_error ("fail to connect to " ++ ClientOptions.host opts)),
     u64 (counter + 1)).
Proof.
  intros Hn Hmaj Hmin Hrev Htz Hcut Hs.
  match goal with
  | |- Impl_new ?o ?c (Some ?t) = _ =>
      pose proof (ReceiveHello_cut
                    (Impl.make o None (u64 (c + 1)) (Wire.client_hello o)
                               t [] ServerInfo_init [])
                    name version_major version_minor revision tz suf
                    Hn Hmaj Hmin Hrev Htz Hcut Hs) as H
  end.
  destruct (ReceiveHello _) as [r s1] eqn:E. cbn [fst] in H. subst r.
  now rewrite (Impl_new_handshake _ _ _ _ _ E).
Qed.

Ltac cut_str v Hv E :=
  from_here;
  eapply (bind_read_cut WireFormat.ReadString v (WireFormat.WriteString v));
  [ intros; apply ReadString_Write; exact Hv
  | apply cut_short_ReadString; exact Hv
  | first [exact E | exact (eq_sym E)]
  | assumption
  |
  | reflexivity ].

Ltac cut_i32 v Hv E :=
  from_here;
  eapply (bind_read_cut WireFormat.ReadFixed32 v (WireFormat.WriteFixed32 v));
  [ intros; apply ReadFixed32_Write; exact Hv
  | apply cut_short_ReadFixed32
  | first [exact E | exact (eq_sym E)]
  | assumption
  |
  | reflexivity ].

Lemma ReadExceptionFrames_cut (n : nat) :
  forall (e : Exception.t) (fuel : nat) (s : Impl.t) (suf : list byte),
    (Exception.depth e <= n)%nat ->
    Exception_wf e ->
    Impl.input_ s ++ suf = Wire.chain e -> suf <> [] ->
    (List.length (Impl.input_ s) < fuel)%nat ->
    ReadExceptionFrames fuel s = (Ret None, Impl.set_input_ [] s).
Proof.
  induction n as [|n IH]; intros [c nm d st ne] fuel s suf Hd Hwf Hin Hs Hf.
  - destruct ne; simpl in Hd; lia.
  - destruct fuel as [|fuel]; [lia|].
    destruct Hwf as (Hc & Hn & Hdt & Hst & Hne).
    cbn [Exception.code Exception.name Exception.display_text
         Exception.stack_trace Exception.nested] in *.
    cbn [Wire.chain Exception.code Exception.name Exception.display_text
         Exception.stack_trace Exception.nested] in Hin.
    cbn [ReadExceptionFrames].
    cut_i32 c Hc Hin. intros p1 E1.
    cut_str nm Hn E1. intros p2 E2.
    cut_str d Hdt E2. intros p3 E3.
    cut_str st Hst E3. intros p4 E4.
    destruct ne as [e'|].
    + assert (H1 : is_u8 1) by (unfold is_u8; lia).
      cut_u8 1 H1 E4. intros p5 E5.
      change (negb (1 =? 0)) with true. cbv iota.
      assert (Hlen : (List.length p5 < fuel)%nat).
      { cbv iota in Hin, E4.
        pose proof (f_equal (@List.length byte) Hin) as L0.
        pose proof (f_equal (@List.length byte) E1) as L1.
        pose proof (f_equal (@List.length byte) E2) as L2.
        pose proof (f_equal (@List.length byte) E3) as L3.
        pose proof (f_equal (@List.length byte) E4) as L4.
        pose proof (f_equal (@List.length byte) E5) as L5.
        repeat match goal with
               | H : context [List.length (_ ++ _)] |- _ =>
                   rewrite length_app in H
               end.
        change (List.length (WireFormat.WriteFixed32 c)) with 4%nat in L0.
        lia. }
      assert (Hd' : (Exception.depth e' <= n)%nat)
        by (cbn [Exception.depth Exception.nested] in Hd; lia).
      match goal with
      | |- bind _ _ ?st0 = _ =>
          rewrite (bind_run _ _ _ _ _
                     (IH e' fuel st0 suf Hd' Hne (eq_sym E5) Hs Hlen))
      end.
      reflexivity.
    + assert (H0 : is_u8 0) by (unfold is_u8; lia).
      cut_u8_last 0 H0 E4.
Qed.

Lemma ReceiveException_cut (rethrow : bool) (e : Exception.t) (s : Impl.t)
      (suf : list byte) :
  Exception_wf e ->
  Impl.input_ s ++ suf = Wire.chain e -> suf <> [] ->
  ReceiveException rethrow s = (Ret false, Impl.set_input_ [] s).
Proof.
  intros He Hin Hs. unfold ReceiveException, ReadException.
  rewrite bind_bind, bind_get.
  erewrite bind_run
    by (apply (ReadExceptionFrames_cut (Exception.depth e) e _ s suf
                 (Nat.le_refl _) He Hin Hs); lia).
  reflexivity.
Qed.

Lemma ReceivePacket_Exception_cut (s : Impl.t) (e : Exception.t)
      (pre suf : list byte) :
  Exception_wf e -> Wire.chain e = pre ++ suf -> suf <> [] ->
  Impl.input_ s = WireFormat.WriteUInt64 ServerCodes.Exception ++ pre ->
  ReceivePacket s
  = (Ret (false, Some ServerCodes.Exception), Impl.set_input_ [] s).
Proof.
  intros He Hcut Hs Hin.
  rewrite (ReceivePacket_code s ServerCodes.Exception pre
             (is_u64_small ServerCodes.Exception
                ltac:(unfold ServerCodes.Exception; lia)) Hin).
  change (dispatch ServerCodes.Exception)
    with (bind (ReceiveException false) (fun _ => ret false)).
  rewrite bind_bind.
  erewrite bind_run
    by (apply (ReceiveException_cut false e _ suf He);
        [symmetry; exact Hcut|exact Hs]).
  reflexivity.
Qed.

Lemma ReceiveHello_Exception_cut (s : Impl.t) (e : Exception.t)
      (pre suf : list byte) :
  Exception_wf e -> Wire.chain e = pre ++ suf -> suf <> [] ->
  Impl.input_ s = WireFormat.WriteUInt64 ServerCodes.Exception ++ pre ->
  ReceiveHello s = (Ret false, Impl.set_input_ [] s).
Proof.
  intros He Hcut Hs Hin. unfold ReceiveHello.
  erewrite bind_read
    by (rewrite Hin; apply ReadVarint64_Write; apply is_u64_small;
        unfold ServerCodes.Exception; lia).
  cbv beta iota.
  change (ServerCodes.Exception =? ServerCodes.Hello) with false.
  change (ServerCodes.Exception =? ServerCodes.Exception) with true.
  cbv iota.
  erewrite bind_run
    by (apply (ReceiveException_cut true e _ suf He);
        [symmetry; exact Hcut|exact Hs]).
  reflexivity.
Qed.

(** X8. An exception packet that is cut short is swallowed. When the stream
    ends inside the chain, [ReceiveException] returns before it has called
    the sink or thrown: the query returns normally, with no
    [OnServerException] call and no [ServerException], even when
    [rethrow_exceptions] is set; during handshake the constructor throws
    [std::runtime_error("fail to connect to <host>")] instead of the
    server's exception. *)
Theorem truncated_exception_is_swallowed :
  (forall (query : Query.t) (pks : list packet) (s : Impl.t) (e : Exception.t)
          (pre suf : list byte),
      Forall packet_ok pks -> Exception_wf e ->
      Wire.chain e = pre ++ suf -> suf <> [] ->
      Impl.input_ s
      = transcript pks ++ WireFormat.WriteUInt64 ServerCodes.Exception ++ pre ->
      ExecuteQuery query s
      = (Ret tt, query_done query s [] (transcript_calls pks)))
  /\ (forall (opts : ClientOptions.t) (counter : Z) (e : Exception.t)
             (pre suf : list byte),
         Exception_wf e -> Wire.chain e = pre ++ suf -> suf <> [] ->
         Impl_new opts counter
           (Some (WireFormat.WriteUInt64 ServerCodes.Exception ++ pre))
         = (Throw (runtime_error ("fail to connect to " ++ ClientOptions.host opts)),
            u64 (counter + 1))).
Proof.
  split.
  - intros query pks s e pre suf Hok He Hcut Hs Hin.
    rewrite ExecuteQuery_run.
    rewrite (ReceiveAll_transcript pks Hok (query_sent query s) _ Hin).
    rewrite ReceiveAll_unfold.
    match goal with
    | |- context [bind ReceivePacket _ ?st] =>
        assert (Hst : Impl.input_ st
                      = WireFormat.WriteUInt64 ServerCodes.Exception ++ pre)
          by (rewrite input_deliver; reflexivity);
        rewrite (bind_run _ _ _ _ _
                   (ReceivePacket_Exception_cut st e pre suf He Hcut Hs Hst))
    end.
    cbn [fst snd]. rewrite deliver_set_input. reflexivity.
  - intros opts counter e pre suf He Hcut Hs.
    rewrite (Impl_new_handshake opts counter _ _ _
               (ReceiveHello_Exception_cut
                  (Impl.make opts None (u64 (counter + 1))
                     (Wire.client_hello opts)
                     (WireFormat.WriteUInt64 ServerCodes.Exception ++ pre)
                     [] ServerInfo_init [])
                  e pre suf He Hcut Hs eq_refl)).
    reflexivity.
Qed.

(** ** The insert dialog, continued *)

Lemma bind_spin {A B} (m : M A) (k : A -> M B) (s s1 : Impl.t) :
  m s = (OutOfFuel, s1) -> bind m k s = (OutOfFuel, s1).
Proof. intros H. unfold bind. now rewrite H. Qed.

(** Once the stream is exhausted the first loop of [Insert] goes round
    without end, unless the code it holds is [Data]. *)
Lemma AwaitData_Eof (fuel : nat) :
  forall (server_packet : Z) (s : Impl.t),
    Impl.input_ s = [] ->
    server_packet <> ServerCodes.Data ->
    AwaitData fuel server_packet s = (OutOfFuel, s).
Proof.
  induction fuel as [|fuel IH]; intros server_packet s Hin Hsp; [reflexivity|].
  cbn [AwaitData].
  rewrite (bind_run _ _ _ _ _ (ReceivePacket_Eof s Hin)). cbn [snd].
  destruct (Z.eqb_spec server_packet ServerCodes.Data) as [->|Hne];
    [congruence|].
  now apply IH.
Qed.

(** X9. The insert dialog. On a server that answers the INSERT query with
    progress packets and the schema block, and the data with any
    non-terminal packets and EndOfStream, [Insert] returns having flushed
    exactly the Query packet (with its end-of-data marker), the caller's
    block as a Data packet and one more empty Data packet, in this order;
    the schema block is read and dropped, and no callback is made. *)
Theorem Insert_dialog
        (fuel : nat) (server_packet : Z) (table_name : string)
        (block : Block.t)
        (ps : list Progress.t) (d : Wire.data) (pks : list packet)
        (s : Impl.t) (rest : list byte) :
  Impl.events_ s = None ->
  Forall Progress_wf ps -> data_ok d -> Forall packet_ok pks ->
  (List.length ps < fuel)%nat ->
  Impl.input_ s
  = List.concat (map Wire.progress_packet ps) ++ Wire.data_packet d
    ++ transcript pks
    ++ WireFormat.WriteUInt64 ServerCodes.EndOfStream ++ rest ->
  let revision := ServerInfo.revision (Impl.server_info_ s) in
  Insert fuel server_packet table_name block s
  = (Ret tt,
     Impl.make (Impl.options_ s) None (Impl.query_id_ s)
       (Impl.socket_ s ++ Impl.output_ s
        ++ Wire.query revision (to_string (Impl.query_id_ s))
                      ("INSERT INTO " ++ table_name ++ " VALUES") Block_empty
        ++ Wire.client_data revision block
        ++ Wire.client_data revision Block_empty)
       rest [] (Impl.server_info_ s) (Impl.sink_calls s)).
Proof.
  intros Hev Hps Hd Hpks Hf Hin revision. unfold revision.
  destruct s as [o ev q sock inp out si calls]. fields. subst ev inp.
  unfold Insert.
  rewrite (bind_run _ _ _ _ _ (SendQuery_wire _ _)). fields.
  erewrite bind_run
    by (apply (AwaitData_stream ps d Hps Hd fuel server_packet _
                 (transcript pks
                  ++ WireFormat.WriteUInt64 ServerCodes.EndOfStream ++ rest) Hf);
        reflexivity).
  unfold deliver. fields.
  rewrite (bind_run _ _ _ _ _ (SendData_wire _ _)). fields.
  rewrite (bind_run _ _ _ _ _ (SendData_wire _ _)).
  fields.
  rewrite (ReceiveAll_transcript pks Hpks _
             (WireFormat.WriteUInt64 ServerCodes.EndOfStream ++ rest))
    by reflexivity.
  rewrite (ReceiveAll_EndOfStream _ rest) by reflexivity.
  unfold deliver. fields. cbn [app].
  rewrite ?app_nil_r. rewrite <- ?app_assoc. reflexivity.
Qed.

(** X10. [Insert] does not return when the schema block never comes. The
    first loop of [Insert] leaves on a Data code only, and the
    [std::runtime_error] built in the loop is not thrown. When the server
    answers the INSERT query with an exception that is not rethrown, or
    with EndOfStream, and sends nothing more, the code stored by that
    answer stays in [server_packet] and the loop goes on for ever, whatever
    the number of rounds allowed and whatever the local held at entry. On a
    connection that is closed before any answer, no code is ever stored and
    the loop compares the uninitialised local: it goes on for ever unless
    the local happens to hold the Data code, in which case [Insert] sends
    the block and the empty block and returns. *)
Theorem Insert_spins_without_schema :
  (forall (fuel : nat) (server_packet : Z) (table_name : string)
          (block : Block.t) (s : Impl.t) (e : Exception.t),
      Exception_wf e ->
      ClientOptions.rethrow_exceptions (Impl.options_ s) = false ->
      Impl.input_ s = Wire.exception_packet e ->
      fst (Insert fuel server_packet table_name block s) = OutOfFuel)
  /\ (forall (fuel : nat) (server_packet : Z) (table_name : string)
             (block : Block.t) (s : Impl.t),
         Impl.input_ s = WireFormat.WriteUInt64 ServerCodes.EndOfStream ->
         fst (Insert fuel server_packet table_name block s) = OutOfFuel)
  /\ (forall (fuel : nat) (server_packet : Z) (table_name : string)
             (block : Block.t) (s : Impl.t),
         Impl.input_ s = [] ->
         server_packet <> ServerCodes.Data ->
         fst (Insert fuel server_packet table_name block s) = OutOfFuel)
  /\ (forall (fuel : nat) (table_name : string) (block : Block.t) (s : Impl.t),
         Impl.input_ s = [] ->
         let revision := ServerInfo.revision (Impl.server_info_ s) in
         let r := Insert (S fuel) ServerCodes.Data table_name block s in
         fst r = Ret tt
         /\ Impl.socket_ (snd r)
            = Impl.socket_ s ++ Impl.output_ s
              ++ Wire.query revision (to_string (Impl.query_id_ s))
                            ("INSERT INTO " ++ table_name ++ " VALUES")
                            Block_empty
              ++ Wire.client_data revision block
              ++ Wire.client_data revision Block_empty).
Proof.
  split; [|split; [|split]].
  - intros fuel server_packet table_name block s e He Hre Hin. unfold Insert.
    rewrite (bind_run _ _ _ _ _ (SendQuery_wire _ _)).
    destruct fuel as [|fuel]; [reflexivity|].
    cbn [AwaitData]. rewrite !bind_bind.
    match goal with
    | |- context [bind ReceivePacket _ ?st] =>
        pose proof (ReceivePacket_Exception st e []
                      He ltac:(rewrite app_nil_r; exact Hin)) as Hp;
        change (Impl.options_ st) with (Impl.options_ s) in Hp;
        rewrite Hre in Hp;
        rewrite (bind_run _ _ _ _ _ Hp)
    end.
    cbn [snd].
    change (ServerCodes.Exception =? ServerCodes.Data) with false. cbv iota.
    erewrite bind_spin; [reflexivity|].
    apply AwaitData_Eof; [rewrite input_deliver; reflexivity|discriminate].
  - intros fuel server_packet table_name block s Hin. unfold Insert.
    rewrite (bind_run _ _ _ _ _ (SendQuery_wire _ _)).
    destruct fuel as [|fuel]; [reflexivity|].
    cbn [AwaitData]. rewrite !bind_bind.
    match goal with
    | |- context [bind ReceivePacket _ ?st] =>
        rewrite (bind_run _ _ _ _ _
                   (ReceivePacket_EndOfStream st []
                      ltac:(rewrite app_nil_r; exact Hin)))
    end.
    cbn [snd].
    change (ServerCodes.EndOfStream =? ServerCodes.Data) with false. cbv iota.
    erewrite bind_spin; [reflexivity|].
    apply AwaitData_Eof; [rewrite input_deliver; reflexivity|discriminate].
  - intros fuel server_packet table_name block s Hin Hsp. unfold Insert.
    rewrite (bind_run _ _ _ _ _ (SendQuery_wire _ _)).
    erewrite bind_spin; [reflexivity|].
    apply AwaitData_Eof; [exact Hin|exact Hsp].
  - intros fuel table_name block s Hin. cbv zeta.
    destruct s as [o ev q sock inp out si calls]. fields. subst inp.
    unfold Insert.
    rewrite (bind_run _ _ _ _ _ (SendQuery_wire _ _)). fields.
    cbn [AwaitData]. rewrite bind_bind.
    match goal with
    | |- context [bind ReceivePacket _ ?st] =>
        rewrite (bind_run _ _ _ _ _ (ReceivePacket_Eof st eq_refl))
    end.
    cbn [snd].
    change (ServerCodes.Data =? ServerCodes.Data) with true. cbv iota.
    rewrite bind_ret.
    rewrite (bind_run _ _ _ _ _ (SendData_wire _ _)). fields.
    rewrite (bind_run _ _ _ _ _ (SendData_wire _ _)). fields.
    match goal with
    | |- context [ReceiveAll ?st] => rewrite (ReceiveAll_Eof st eq_refl)
    end.
    cbn [fst snd]. fields.
    split; [reflexivity|].
    rewrite <- ?app_assoc. reflexivity.
Qed.

(** X11. With [rethrow_exceptions] set, an exception in answer to the INSERT
    query leaves [Insert] as a [ServerException] before any data is sent:
    the socket has received the Query packet and nothing else. *)
Theorem Insert_rethrows_before_sending
        (fuel : nat) (server_packet : Z) (table_name : string)
        (block : Block.t) (s : Impl.t)
        (e : Exception.t) (rest : list byte) :
  Exception_wf e ->
  ClientOptions.rethrow_exceptions (Impl.options_ s) = true ->
  Impl.input_ s = Wire.exception_packet e ++ rest ->
  let r := Insert (S fuel) server_packet table_name block s in
  fst r = Throw (ServerException e)
  /\ Impl.socket_ (snd r)
     = Impl.socket_ s ++ Impl.output_ s
       ++ Wire.query (ServerInfo.revision (Impl.server_info_ s))
                     (to_string (Impl.query_id_ s))
                     ("INSERT INTO " ++ table_name ++ " VALUES") Block_empty
  /\ Impl.input_ (snd r) = rest.
Proof.
  intros He Hre Hin r. unfold r, Insert.
  rewrite (bind_run _ _ _ _ _ (SendQuery_wire _ _)).
  cbn [AwaitData]. rewrite !bind_bind.
  match goal with
  | |- context [bind ReceivePacket _ ?st] =>
      pose proof (ReceivePacket_Exception st e rest He Hin) as Hp;
      change (Impl.options_ st) with (Impl.options_ s) in Hp;
      rewrite Hre in Hp;
      rewrite (bind_throw _ _ _ _ _ Hp)
  end.
  cbn [fst snd].
  destruct s as [o [ev|] q sock inp out si calls]; repeat split; reflexivity.
Qed.

(** ** Data packets there and back *)

Lemma block_ok_data (block : Block.t) :
  block_ok block ->
  data_ok (Wire.make_data "" (Block.Info block) (Block.rows block)
             (Wire.entries_of (Block.columns block))).
Proof.
  intros (Hi & Hc & Hr & Hcols). unfold data_ok. fields.
  unfold Block.GetColumnCount in Hc. unfold Wire.entries_of.
  rewrite length_map.
  split; [|split; [exact Hi|split; [exact Hc|split; [exact Hr|]]]].
  - unfold is_short. cbn [String.length]. change (Z.of_nat 0) with 0.
    apply Z.pow_pos_nonneg; lia.
  - rewrite Forall_map. eapply Forall_impl; [|exact Hcols].
    intros [name col] (H1 & H2 & H3 & H4). unfold entry_ok. fields. auto.
Qed.

(** X12. The body of a Data packet is read back as written. For a server
    revision of at least 51903, what [SendData] flushes for a block is the
    client Data code followed by a body that [ReceiveData]'s decoding turns
    back into a block with the same columns, in the same order, and the
    same row count; only the block info is dropped (the block read has
    the info of a fresh block). *)
Theorem Data_packet_round_trip (block : Block.t) :
  block_ok block ->
  (forall s,
      51903 <= ServerInfo.revision (Impl.server_info_ s) ->
      SendData block s
      = (Ret tt,
         Impl.set_output_
           (Impl.socket_ s ++ Impl.output_ s
            ++ WireFormat.WriteUInt64 ClientCodes.Data ++ block_body block)
           [] s))
  /\ (forall s rest,
         Impl.input_ s = block_body block ++ rest ->
         ReadBlock s
         = (Ret (Some (Block.make BlockInfo_init (Block.columns block)
                                  (Block.rows block))),
            Impl.set_input_ rest s)).
Proof.
  intros Hok. split.
  - intros s Hrev. rewrite (SendData_wire block s).
    unfold Wire.client_data, block_body.
    replace (50264 <=? ServerInfo.revision (Impl.server_info_ s)) with true
      by (symmetry; apply Z.leb_le; lia).
    replace (51903 <=? ServerInfo.revision (Impl.server_info_ s)) with true
      by (symmetry; apply Z.leb_le; lia).
    reflexivity.
  - intros s rest Hin.
    pose proof (block_ok_data block Hok) as Hd.
    rewrite (ReadBlock_wire s _ rest Hd).
    + unfold block_of, append_entries, Block_new, Wire.entries_of. fields.
      cbn [app]. rewrite map_map. cbn [fst snd].
      rewrite map_ext with (g := fun nc => nc) by (intros [? ?]; reflexivity).
      now rewrite map_id.
    + rewrite Hin. unfold block_body, Wire.data_body. fields.
      unfold Block.GetColumnCount, Block.GetRowCount, Wire.entries_of.
      now rewrite length_map.
Qed.

(** ** The errors and the end of a query *)


(** X14. A query always ends, and sends one packet. Whatever the server
    sends, truncated or unknown packets included, [ExecuteQuery] returns
    or throws; what it has flushed to the socket is the Query packet with
    the id of the session and nothing else; the sink of the query is
    detached again, also when the call throws; the options, the query id
    and the server info are as before, and no byte is put back on the
    stream. *)
Theorem ExecuteQuery_ends_and_sends_one_packet (query : Query.t) (s : Impl.t) :
  let r := ExecuteQuery query s in
  fst r <> OutOfFuel
  /\ Impl.socket_ (snd r)
     = Impl.socket_ s ++ Impl.output_ s
       ++ Wire.query (ServerInfo.revision (Impl.server_info_ s))
                     (to_string (Impl.query_id_ s)) (Query.GetText query)
                     Block_empty
  /\ Impl.output_ (snd r) = []
  /\ Impl.events_ (snd r) = None
  /\ Impl.options_ (snd r) = Impl.options_ s
  /\ Impl.query_id_ (snd r) = Impl.query_id_ s
  /\ Impl.server_info_ (snd r) = Impl.server_info_ s
  /\ (List.length (Impl.input_ (snd r)) <= List.length (Impl.input_ s))%nat.
Proof.
  cbv zeta. split.
  { exact (total_ExecuteQuery query s). }
  destruct s as [o ev q sock inp out si calls].
  unfold ExecuteQuery, EnsureNull. fields.
  rewrite (bind_run _ _ _ _ _ (SendQuery_wire _ _)). fields.
  match goal with
  | |- context [ReceiveAll ?s1] =>
      pose proof (keeps_ReceiveAll s1) as (Ho & He & Hq & Hl & _);
      pose proof (reads_only_ReceiveAll s1) as (Hs & Hout & Hsi);
      destruct (ReceiveAll s1) as [r s2]
  end.
  cbn [snd] in *. fields. cbv zeta. fields.
  repeat split; assumption.
Qed.

(** ** Worked values of the codec and of the registry *)

Example varint_54126 :
Codec.WriteVarint64 54126 = [xee; xa6; x03]
/\ Codec.ReadVarint64 [xee; xa6; x03; x07] = (Some 54126, [x07]).
Proof. split; reflexivity. Qed.

Example to_string_examples :
to_string 0 = "0" /\ to_string 54126 = "54126" /\ to_string (int_of_u64 (2 ^ 32 - 5)) = "-5".
Proof. repeat split; vm_compute; reflexivity. Qed.

Example fixed32_minus_one :
WireFormat.WriteFixed32 (-1) = [xff; xff; xff; xff]
/\ WireFormat.ReadFixed32 [xff; xff; xff; xff] = (Some (-1), []).
Proof. split; reflexivity. Qed.

Example registry_examples :
Column.kind_of_name "UInt8" = Some Column.UInt8
/\ Column.kind_of_name "FixedString(16)" = Some (Column.FixedString 16)
/\ Column.kind_of_name "Nullable(UInt8)" = None
/\ Column.kind_of_name "uint8" = None
/\ Column.kind_of_name "FixedString()" = None
/\ Column.GetName (Column.FixedString 16) = "FixedString(16)".
Proof. repeat split; vm_compute; reflexivity. Qed.

End Client.

(** * The claims at concrete sessions *)

(** Closes a range or well-formedness side condition on constants. *)
Ltac in_range :=
  repeat (hnf;
          match goal with
          | |- _ /\ _ => split
          | |- Forall _ _ => constructor
          end);
  vm_compute; first [ reflexivity | discriminate | exact I ].

(** Below the gate 54058 the timezone bytes are left on the stream; at a
    server of revision 50000 a Progress packet is still read with its
    total_rows. *)
Lemma revision_gates_by_direction_witness :
  let s := example_session 50000 None
             (Wire.progress (Progress.make 10 80 100) ++ [x05]) in
  Progress_wf (Progress.make 10 80 100)
  /\ Impl.input_ s = Wire.progress (Progress.make 10 80 100) ++ [x05]
  /\ ReadProgress example_progress s
     = (Ret (Some (Progress.make 10 80 100)), Impl.set_input_ [x05] s).
Proof.
  cbv zeta. split; [in_range|]. split; [reflexivity|].
  apply (proj2 (proj2 (proj2
           (revision_gates_by_direction example_info example_progress)))).
  - in_range.
  - reflexivity.
Defined.

(** C1, as stated, fails: with a server revision of 50000, below the gates
    51554, 50264 and 51903, a Progress packet is read with its total_rows
    (here 100, the byte 64) and a Data packet with its table name and
    BlockInfo. *)
Lemma revision_gates_counterexample :
  let q := Query.make "SELECT 1" in
  let progress := example_session 50000 (Some q) [x03; x0a; x50; x64; x05] in
  let data := example_session 50000 (Some q)
                [x01; x00; x01; x00; x02; xff; xff; xff; xff; x00; x00; x00; x05] in
  ServerInfo.revision (Impl.server_info_ progress)
  < DBMS_MIN_REVISION_WITH_TOTAL_ROWS_IN_PROGRESS
  /\ ServerInfo.revision (Impl.server_info_ data)
     < DBMS_MIN_REVISION_WITH_TEMPORARY_TABLES
  /\ ReceivePacket example_info example_progress progress
     = (Ret (true, Some ServerCodes.Progress),
        Impl.set_sink_calls [OnProgress (Progress.make 10 80 100)]
          (Impl.set_input_ [x05] progress))
  /\ ReceivePacket example_info example_progress data
     = (Ret (true, Some ServerCodes.Data),
        Impl.set_sink_calls [OnData (Block.make example_info [] 0)]
          (Impl.set_input_ [x05] data)).
Proof. cbv zeta. repeat split; vm_compute; reflexivity. Qed.



(** A reply of Pong, and a reply of the unknown code 7. *)
Lemma Ping_replies_witness :
  let s := example_session 54126 None [x07; x01] in
  is_u64 7 /\ ~ (1 <= 7 <= 6)
  /\ Impl.input_ s = WireFormat.WriteUInt64 7 ++ [x01]
  /\ Ping example_info example_progress s
     = (Throw (runtime_error ("unimplemented " ++ to_string (int_of_u64 7))),
        Impl.set_input_ [x01] (ping_sent s)).
Proof.
  cbv zeta.
  assert (H7 : is_u64 7) by in_range.
  assert (Hn : ~ (1 <= 7 <= 6)) by lia.
  split; [exact H7|]. split; [exact Hn|]. split; [reflexivity|].
  exact (proj1 (proj2 (proj2 (proj2
                  (Ping_replies example_info example_progress))))
           (example_session 54126 None [x07; x01]) 7 [x01] H7 Hn eq_refl).
Defined.

(** C3, as stated, fails: a reply of 05 (EndOfStream) to a ping raises
    nothing; [Ping] returns normally. *)
Lemma Ping_counterexample :
  let s := example_session 54126 None [x05] in
  Ping example_info example_progress s
  = (Ret tt, Impl.set_input_ [] (ping_sent s)).
Proof. cbv zeta. vm_compute. reflexivity. Qed.

(** A stream of a one-row block, a zero-row block and EndOfStream. *)
Lemma OnData_once_per_data_packet_witness :
  let ds := [example_data; example_schema] in
  let q := Query.make "SELECT 1" in
  let s := example_session 54126 None
             (List.concat (map Wire.data_packet ds)
              ++ WireFormat.WriteUInt64 ServerCodes.EndOfStream ++ []) in
  Forall data_ok ds
  /\ exists s',
      ExecuteQuery example_info example_progress q s = (Ret tt, s')
      /\ Impl.sink_calls s'
         = Impl.sink_calls s
           ++ map (fun d => OnData (block_of example_info d)) ds ++ [OnFinish].
Proof.
  cbv zeta.
  assert (H : Forall data_ok [example_data; example_schema]) by in_range.
  split; [exact H|].
  exact (proj1 (OnData_once_per_data_packet example_info example_progress)
           (Query.make "SELECT 1") [example_data; example_schema]
           (example_session 54126 None
              (List.concat (map Wire.data_packet [example_data; example_schema])
               ++ WireFormat.WriteUInt64 ServerCodes.EndOfStream ++ []))
           [] H eq_refl).
Defined.

(** C4, as stated, fails: a Data packet whose block has zero rows, received
    with a sink set, triggers one [OnData] call. *)
Lemma OnData_counterexample :
  let q := Query.make "SELECT 1" in
  let s := example_session 54126 (Some q) (Wire.data_packet example_schema) in
  Block.rows (block_of example_info example_schema) = 0
  /\ Impl.sink_calls (snd (ReceivePacket example_info example_progress s))
     = [OnData (block_of example_info example_schema)].
Proof. cbv zeta. split; vm_compute; reflexivity. Qed.

(** A one-row Data packet followed by a Progress packet and EndOfStream. *)
Lemma Data_packet_is_not_terminal_witness :
  let q := Query.make "SELECT 1" in
  let pks := [PProgress (Progress.make 10 80 100)] in
  let s := example_session 54126 None
             (Wire.data_packet example_data ++ transcript pks
              ++ WireFormat.WriteUInt64 ServerCodes.EndOfStream ++ []) in
  data_ok example_data /\ Forall packet_ok pks
  /\ ExecuteQuery example_info example_progress q s
     = (Ret tt,
        query_done example_info q s []
          (OnData (block_of example_info example_data)
           :: transcript_calls example_info pks ++ [OnFinish])).
Proof.
  cbv zeta.
  assert (H : data_ok example_data) by in_range.
  assert (Hpks : Forall packet_ok [PProgress (Progress.make 10 80 100)])
    by in_range.
  split; [exact H|]. split; [exact Hpks|].
  exact (proj1 (proj2 (proj2
                  (Data_packet_is_not_terminal example_info example_progress)))
           (Query.make "SELECT 1") example_data
           [PProgress (Progress.make 10 80 100)]
           (example_session 54126 None _) [] H Hpks eq_refl).
Defined.

(** C5, as stated, fails: the receive loop of a query ends although neither
    an EndOfStream nor an Exception packet has been seen. On a reply that is
    one Data packet and nothing more, and on a reply that is one Data packet
    and the first two bytes of a Progress packet, [ExecuteQuery] returns
    normally after the one [OnData] call, without [OnFinish]. *)
Lemma Data_packet_counterexample :
  let q := Query.make "SELECT 1" in
  let data := [x01; x00; x01; x00; x02; xff; xff; xff; xff; x00; x01; x01;
               x01; x31; x05; x55; x49; x6e; x74; x38; x01] in
  let s := example_session 54126 None data in
  let s' := example_session 54126 None (data ++ [x03; x0a]) in
  Wire.data_packet example_data = data
  /\ ExecuteQuery example_info example_progress q s
     = (Ret tt,
        query_done example_info q s []
          [OnData (block_of example_info example_data)])
  /\ ExecuteQuery example_info example_progress q s'
     = (Ret tt,
        query_done example_info q s' []
          [OnData (block_of example_info example_data)]).
Proof. cbv zeta. repeat split; vm_compute; reflexivity. Qed.

(** A Progress packet that ends after its first field. *)
Lemma truncated_packets_witness :
  let q := Query.make "SELECT 1" in
  let p := Progress.make 10 80 100 in
  let s := example_session 54126 None [x03; x0a] in
  Progress_wf p /\ Wire.progress p = [x0a] ++ [x50; x64]
  /\ [x50; x64] <> []
  /\ Impl.input_ s = WireFormat.WriteUInt64 ServerCodes.Progress ++ [x0a]
  /\ ExecuteQuery example_info example_progress q s
     = (Ret tt,
        Impl.set_events_ None
          (Impl.set_input_ [] (query_sent example_info q s))).
Proof.
  cbv zeta.
  assert (Hp : Progress_wf (Progress.make 10 80 100)) by in_range.
  assert (Hs : [x50; x64] <> @nil byte) by discriminate.
  split; [exact Hp|]. split; [reflexivity|]. split; [exact Hs|].
  split; [reflexivity|].
  exact (proj1 (truncated_packets example_info example_progress)
           (Query.make "SELECT 1") (example_session 54126 None [x03; x0a])
           (Progress.make 10 80 100) [x0a] [x50; x64] Hp eq_refl Hs eq_refl).
Defined.

(** C6, as stated, fails: a Progress packet cut after its first field, and a
    Data packet cut inside its header, both leave [ExecuteQuery] returning
    normally, with no error. *)
Lemma truncated_packets_counterexample :
  let q := Query.make "SELECT 1" in
  fst (ExecuteQuery example_info example_progress q
         (example_session 54126 None [x03; x0a])) = Ret tt
  /\ fst (ExecuteQuery example_info example_progress q
            (example_session 54126 None [x01; x00; x01])) = Ret tt.
Proof. cbv zeta. split; vm_compute; reflexivity. Qed.

(** A Data packet of two columns, the second of a type outside the
    registry. *)
Lemma unsupported_column_type_aborts_witness :
  let q := Query.make "SELECT 1" in
  let entries := [("1", "UInt8", Column.make Column.UInt8 [[x01]])] in
  let stream :=
    WireFormat.WriteUInt64 ServerCodes.Data
    ++ Wire.data_header (Some "") (Some example_info)
         (Z.of_nat (List.length entries + 1)) 1
    ++ Wire.columns entries ++ WireFormat.WriteString "x"
    ++ WireFormat.WriteString "Nullable(UInt8)" ++ [x00; x05] in
  let s := example_session 54126 None stream in
  Forall (entry_ok 1) entries
  /\ Column.CreateColumnByType "Nullable(UInt8)" = None
  /\ ExecuteQuery example_info example_progress q s
     = (Throw (runtime_error "unsupported column type: Nullable(UInt8)"),
        Impl.set_events_ None
          (Impl.set_input_ [x00; x05] (query_sent example_info q s))).
Proof.
  cbv zeta.
  assert (He : Forall (entry_ok 1)
                 [("1", "UInt8", Column.make Column.UInt8 [[x01]])])
    by in_range.
  assert (Hn : Column.CreateColumnByType "Nullable(UInt8)" = None)
    by (vm_compute; reflexivity).
  split; [exact He|]. split; [exact Hn|].
  eapply (proj1 (unsupported_column_type_aborts example_info example_progress)
            (Query.make "SELECT 1") _ "" example_info 1
            [("1", "UInt8", Column.make Column.UInt8 [[x01]])]
            "x" "Nullable(UInt8)" 0%nat [x00; x05]);
    [ in_range | in_range | in_range | in_range | exact He
    | in_range | in_range | exact Hn | reflexivity ].
Defined.

(** An exception chain of two frames, with and without rethrow. *)
Lemma server_exception_delivery_witness :
  let q := Query.make "SELECT 1" in
  let s := example_session 54126 (Some q)
             (Wire.exception_packet example_exception ++ [x05]) in
  Exception_wf example_exception
  /\ ReceivePacket example_info example_progress s
     = (Ret (false, Some ServerCodes.Exception),
        deliver [OnServerException example_exception] (Impl.set_input_ [x05] s))
  /\ Impl_new example_server_init (example_options false) 0
       (Some (Wire.exception_packet example_exception ++ [x05]))
     = (Throw (ServerException example_exception), u64 (0 + 1)).
Proof.
  cbv zeta.
  assert (H : Exception_wf example_exception) by in_range.
  split; [exact H|]. split.
  - exact (proj1 (proj2 (proj2
             (server_exception_delivery example_info example_progress
                example_server_init)))
             example_exception
             (example_session 54126 (Some (Query.make "SELECT 1"))
                (Wire.exception_packet example_exception ++ [x05]))
             [x05] H eq_refl).
  - exact (proj2 (proj2 (proj2
             (server_exception_delivery example_info example_progress
                example_server_init)))
             (example_options false) 0 example_exception [x05] H).
Defined.

(** An insert answered by a Progress packet, the schema block, a profile and
    EndOfStream. *)
Lemma Insert_calls_no_sink_witness :
  let s := example_session 54126 None
             (Wire.progress_packet (Progress.make 10 80 100)
              ++ Wire.data_packet example_schema
              ++ Wire.profile_packet (Profile.make 2 1 9 0 2 0)
              ++ [x05]) in
  let s' := snd (Insert example_info example_progress 8 0 "t" example_block s) in
  Impl.events_ s = None
  /\ Impl.sink_calls s' = Impl.sink_calls s /\ Impl.events_ s' = None.
Proof.
  cbv zeta. split; [reflexivity|].
  exact (proj1 (Insert_calls_no_sink example_info example_progress
                  example_server_init)
           8%nat 0 "t" example_block
           (example_session 54126 None
              (Wire.progress_packet (Progress.make 10 80 100)
               ++ Wire.data_packet example_schema
               ++ Wire.profile_packet (Profile.make 2 1 9 0 2 0)
               ++ [x05]))
           eq_refl).
Defined.

(** The insert of the example returns, having sent the query, the block and
    the two end-of-data markers, and read the whole reply. *)
Example Insert_example :
  let s := example_session 54126 None
             (Wire.progress_packet (Progress.make 10 80 100)
              ++ Wire.data_packet example_schema
              ++ Wire.profile_packet (Profile.make 2 1 9 0 2 0)
              ++ [x05]) in
  let r := Insert example_info example_progress 8 0 "t" example_block s in
  fst r = Ret tt
  /\ Impl.input_ (snd r) = []
  /\ Impl.socket_ (snd r)
     = Wire.query 54126 "1" "INSERT INTO t VALUES" (Block_empty example_info)
       ++ Wire.client_data 54126 example_block
       ++ Wire.client_data 54126 (Block_empty example_info).
Proof. cbv zeta. repeat split; vm_compute; reflexivity. Qed.

(** ** Worked sessions of the reply loop, the handshake and the insert *)

(** A reply of a Progress, a one-row Data, a ProfileInfo and a Pong packet,
    then EndOfStream. *)
Lemma ExecuteQuery_callbacks_follow_transcript_witness :
  let q := Query.make "SELECT 1" in
  let pks := [PProgress (Progress.make 10 80 100); PData example_data;
              PProfileInfo (Profile.make 1 1 1 0 0 0); PPong] in
  let s := example_session 54126 None
             (transcript pks
              ++ WireFormat.WriteUInt64 ServerCodes.EndOfStream ++ []) in
  Forall packet_ok pks
  /\ ExecuteQuery example_info example_progress q s
     = (Ret tt,
        query_done example_info q s []
          (transcript_calls example_info pks ++ [OnFinish])).
Proof.
  cbv zeta.
  assert (H : Forall packet_ok
                [PProgress (Progress.make 10 80 100); PData example_data;
                 PProfileInfo (Profile.make 1 1 1 0 0 0); PPong])
    by in_range.
  split; [exact H|].
  exact (ExecuteQuery_callbacks_follow_transcript example_info example_progress
           (Query.make "SELECT 1") _
           (example_session 54126 None _) [] H eq_refl).
Defined.

(** The same reply with the connection closed after the Data packet. *)
Lemma ExecuteQuery_stream_without_EndOfStream_witness :
  let q := Query.make "SELECT 1" in
  let pks := [PProgress (Progress.make 10 80 100); PData example_data] in
  let s := example_session 54126 None (transcript pks) in
  Forall packet_ok pks
  /\ ExecuteQuery example_info example_progress q s
     = (Ret tt,
        query_done example_info q s [] (transcript_calls example_info pks)).
Proof.
  cbv zeta.
  assert (H : Forall packet_ok
                [PProgress (Progress.make 10 80 100); PData example_data])
    by in_range.
  split; [exact H|].
  exact (ExecuteQuery_stream_without_EndOfStream example_info example_progress
           (Query.make "SELECT 1") _ (example_session 54126 None _) H eq_refl).
Defined.

(** A Pong packet followed by the code 7 (Totals, which has no case). *)
Lemma ExecuteQuery_unknown_packet_code_witness :
  let q := Query.make "SELECT 1" in
  let s := example_session 54126 None
             (transcript [PPong] ++ WireFormat.WriteUInt64 7 ++ [x01]) in
  Forall packet_ok [PPong] /\ is_u64 7 /\ ~ (1 <= 7 <= 6)
  /\ ExecuteQuery example_info example_progress q s
     = (Throw (runtime_error ("unimplemented " ++ to_string (int_of_u64 7))),
        query_done example_info q s [x01]
          (transcript_calls example_info [PPong]))
  /\ int_of_u64 (7 + 2 ^ 32) = int_of_u64 7.
Proof.
  cbv zeta.
  assert (H : Forall packet_ok [PPong]) by in_range.
  assert (H7 : is_u64 7) by in_range.
  assert (Hn : ~ (1 <= 7 <= 6)) by lia.
  split; [exact H|]. split; [exact H7|]. split; [exact Hn|].
  exact (ExecuteQuery_unknown_packet_code example_info example_progress
           (Query.make "SELECT 1") [PPong] (example_session 54126 None _)
           7 [x01] H H7 Hn eq_refl).
Defined.

(** A Progress packet followed by a two-frame exception, on a session that
    does not rethrow. *)
Lemma ExecuteQuery_server_exception_witness :
  let q := Query.make "SELECT 1" in
  let pks := [PProgress (Progress.make 10 80 100)] in
  let s := example_session 54126 None
             (transcript pks ++ Wire.exception_packet example_exception ++ []) in
  Forall packet_ok pks /\ Exception_wf example_exception
  /\ ExecuteQuery example_info example_progress q s
     = (if ClientOptions.rethrow_exceptions (Impl.options_ s)
        then Throw (ServerException example_exception) else Ret tt,
        query_done example_info q s []
          (transcript_calls example_info pks
           ++ [OnServerException example_exception])).
Proof.
  cbv zeta.
  assert (H : Forall packet_ok [PProgress (Progress.make 10 80 100)])
    by in_range.
  assert (He : Exception_wf example_exception) by in_range.
  split; [exact H|]. split; [exact He|].
  exact (ExecuteQuery_server_exception example_info example_progress
           (Query.make "SELECT 1") _ (example_session 54126 None _)
           example_exception [] H He eq_refl).
Defined.

(** The handshake with a server of revision 54126 in the timezone UTC. *)
Lemma Impl_new_server_hello_witness :
  is_short "ClickHouse" /\ is_u64 1 /\ is_u64 54126 /\ is_short "UTC"
  /\ 54058 <= 54126
  /\ Impl_new example_server_init (example_options false) 0
       (Some (Wire.hello "ClickHouse" 1 1 54126
              ++ WireFormat.WriteString "UTC" ++ []))
     = (Ret (Impl.make (example_options false) None (u64 (0 + 1))
               (Wire.client_hello (example_options false)) [] []
               (ServerInfo.make "ClickHouse" "UTC" 1 1 54126) []),
        u64 (0 + 1)).
Proof.
  assert (Hn : is_short "ClickHouse") by in_range.
  assert (H1 : is_u64 1) by in_range.
  assert (Hr : is_u64 54126) by in_range.
  assert (Ht : is_short "UTC") by in_range.
  assert (Hg : 54058 <= 54126) by lia.
  repeat (split; [assumption|]).
  exact (proj1 (Impl_new_server_hello example_server_init)
           (example_options false) 0 "ClickHouse" 1 1 54126 "UTC" []
           Hn H1 H1 Hr Ht Hg).
Defined.

(** A server whose first packet is a Pong. *)
Lemma Impl_new_failures_witness :
  is_u64 ServerCodes.Pong /\ ServerCodes.Pong <> ServerCodes.Hello
  /\ ServerCodes.Pong <> ServerCodes.Exception
  /\ Impl_new example_server_init (example_options false) 0
       (Some (WireFormat.WriteUInt64 ServerCodes.Pong ++ []))
     = (Throw (runtime_error
                 ("fail to connect to "
                  ++ ClientOptions.host (example_options false))),
        u64 (0 + 1)).
Proof.
  assert (Hc : is_u64 ServerCodes.Pong) by in_range.
  assert (Hh : ServerCodes.Pong <> ServerCodes.Hello) by discriminate.
  assert (He : ServerCodes.Pong <> ServerCodes.Exception) by discriminate.
  repeat (split; [assumption|]).
  exact (proj1 (proj2 (proj2 (Impl_new_failures example_server_init)))
           (example_options false) 0 ServerCodes.Pong [] Hc Hh He).
Defined.

(** A server Hello that stops before the timezone. *)
Lemma Impl_new_truncated_hello_witness :
  let pre := Wire.hello "ClickHouse" 1 1 54126 in
  let suf := WireFormat.WriteString "UTC" in
  is_short "ClickHouse" /\ is_u64 1 /\ is_u64 54126 /\ is_short "UTC"
  /\ suf <> []
  /\ Impl_new example_server_init (example_options false) 0 (Some pre)
     = (Throw (runtime_error
                 ("fail to connect to "
                  ++ ClientOptions.host (example_options false))),
        u64 (0 + 1)).
Proof.
  cbv zeta.
  assert (Hn : is_short "ClickHouse") by in_range.
  assert (H1 : is_u64 1) by in_range.
  assert (Hr : is_u64 54126) by in_range.
  assert (Ht : is_short "UTC") by in_range.
  assert (Hs : WireFormat.WriteString "UTC" <> []) by in_range.
  repeat (split; [assumption|]).
  exact (Impl_new_truncated_hello example_server_init (example_options false) 0
           "ClickHouse" 1 1 54126 "UTC"
           (Wire.hello "ClickHouse" 1 1 54126) (WireFormat.WriteString "UTC")
           Hn H1 H1 Hr Ht eq_refl Hs).
Defined.

(** An exception packet that stops five bytes into its first frame, on a
    session that rethrows. *)
Lemma truncated_exception_is_swallowed_witness :
  let q := Query.make "SELECT 1" in
  let pre := firstn 5 (Wire.chain example_exception) in
  let suf := skipn 5 (Wire.chain example_exception) in
  let s := Impl.make (example_options true) None 1 []
             (transcript []
              ++ WireFormat.WriteUInt64 ServerCodes.Exception ++ pre)
             [] (ServerInfo.make "ClickHouse" "UTC" 1 1 54126) [] in
  Forall packet_ok [] /\ Exception_wf example_exception
  /\ Wire.chain example_exception = pre ++ suf /\ suf <> []
  /\ ExecuteQuery example_info example_progress q s
     = (Ret tt,
        query_done example_info q s [] (transcript_calls example_info [])).
Proof.
  cbv zeta.
  assert (H : Forall packet_ok []) by constructor.
  assert (He : Exception_wf example_exception) by in_range.
  assert (Hc : Wire.chain example_exception
               = firstn 5 (Wire.chain example_exception)
                 ++ skipn 5 (Wire.chain example_exception))
    by (symmetry; apply firstn_skipn).
  assert (Hs : skipn 5 (Wire.chain example_exception) <> [])
    by (vm_compute; discriminate).
  repeat (split; [assumption|]).
  exact (proj1 (truncated_exception_is_swallowed example_info example_progress
                  example_server_init)
           (Query.make "SELECT 1") []
           (Impl.make (example_options true) None 1 [] _ []
              (ServerInfo.make "ClickHouse" "UTC" 1 1 54126) [])
           example_exception _ _ H He Hc Hs eq_refl).
Defined.

(** An insert of the two-row block: the server answers a Progress packet
    and the schema block, then a Progress packet and EndOfStream. *)
Lemma Insert_dialog_witness :
  let ps := [Progress.make 0 0 0] in
  let pks := [PProgress (Progress.make 2 11 2)] in
  let s := example_session 54126 None
             (List.concat (map Wire.progress_packet ps)
              ++ Wire.data_packet example_schema
              ++ transcript pks
              ++ WireFormat.WriteUInt64 ServerCodes.EndOfStream ++ []) in
  Forall Progress_wf ps /\ data_ok example_schema /\ Forall packet_ok pks
  /\ (List.length ps < 2)%nat
  /\ Insert example_info example_progress 2 0 "t" example_block s
     = (Ret tt,
        Impl.make (Impl.options_ s) None (Impl.query_id_ s)
          (Impl.socket_ s ++ Impl.output_ s
           ++ Wire.query 54126 (to_string (Impl.query_id_ s))
                         ("INSERT INTO " ++ "t" ++ " VALUES")
                         (Block_empty example_info)
           ++ Wire.client_data 54126 example_block
           ++ Wire.client_data 54126 (Block_empty example_info))
          [] [] (Impl.server_info_ s) (Impl.sink_calls s)).
Proof.
  cbv zeta.
  assert (Hps : Forall Progress_wf [Progress.make 0 0 0]) by in_range.
  assert (Hd : data_ok example_schema) by in_range.
  assert (Hpks : Forall packet_ok [PProgress (Progress.make 2 11 2)])
    by in_range.
  assert (Hf : (List.length [Progress.make 0 0 0] < 2)%nat)
    by (cbn [List.length]; lia).
  repeat (split; [assumption|]).
  exact (Insert_dialog example_info example_progress 2 0 "t" example_block
           _ example_schema _ (example_session 54126 None _) []
           eq_refl Hps Hd Hpks Hf eq_refl).
Defined.

(** An insert answered with EndOfStream and nothing more: a thousand
    rounds of the first loop do not end it. *)
Lemma Insert_spins_without_schema_witness :
  let s := example_session 54126 None [x05] in
  Impl.input_ s = WireFormat.WriteUInt64 ServerCodes.EndOfStream
  /\ fst (Insert example_info example_progress 1000 0 "t" example_block s)
     = OutOfFuel.
Proof.
  cbv zeta. split; [reflexivity|].
  exact (proj1 (proj2
                  (Insert_spins_without_schema example_info example_progress))
           1000%nat 0 "t" example_block (example_session 54126 None [x05])
           eq_refl).
Defined.

(** An insert refused by the server, on a session that rethrows. *)
Lemma Insert_rethrows_before_sending_witness :
  let s := Impl.make (example_options true) None 1 []
             (Wire.exception_packet example_exception ++ [])
             [] (ServerInfo.make "ClickHouse" "UTC" 1 1 54126) [] in
  let r := Insert example_info example_progress 1 0 "t" example_block s in
  Exception_wf example_exception
  /\ ClientOptions.rethrow_exceptions (Impl.options_ s) = true
  /\ fst r = Throw (ServerException example_exception)
  /\ Impl.socket_ (snd r)
     = Impl.socket_ s ++ Impl.output_ s
       ++ Wire.query (ServerInfo.revision (Impl.server_info_ s))
                     (to_string (Impl.query_id_ s))
                     ("INSERT INTO " ++ "t" ++ " VALUES")
                     (Block_empty example_info)
  /\ Impl.input_ (snd r) = [].
Proof.
  cbv zeta.
  assert (He : Exception_wf example_exception) by in_range.
  split; [exact He|]. split; [reflexivity|].
  exact (Insert_rethrows_before_sending example_info example_progress
           0 0 "t" example_block
           (Impl.make (example_options true) None 1 [] _ []
              (ServerInfo.make "ClickHouse" "UTC" 1 1 54126) [])
           example_exception [] He eq_refl eq_refl).
Defined.

(** The two-row block of a [String] and a [UInt32] column, written and read
    back. *)
Lemma Data_packet_round_trip_witness :
  let s := example_session 54126 None (block_body example_block ++ [x05]) in
  block_ok example_block
  /\ ReadBlock example_info s
     = (Ret (Some (Block.make example_info (Block.columns example_block)
                              (Block.rows example_block))),
        Impl.set_input_ [x05] s).
Proof.
  cbv zeta.
  assert (Hok : block_ok example_block) by in_range.
  split; [exact Hok|].
  exact (proj2 (Data_packet_round_trip example_info example_block Hok)
           (example_session 54126 None (block_body example_block ++ [x05]))
           [x05] eq_refl).
Defined.

